(** * godx storage client: upload/repair segments, downloads, directory
      metadata and currency units

    A shallow embedding of the parts of the storage client that the
    specification talks about, followed by the properties proved of them.

    Conventions.
    - Go's [int] and [int64] are [Z] reduced with [wrap_int]; [uint64] is [Z]
      reduced with [wrap_u64].  A field of such a type holds a value in range.
    - A Go slice of byte slices is a list of [option]: [None] is the nil
      slice.  Indexing a slice out of range panics; functions that index
      return [option], [None] being the panic.
    - Calls to collaborators that are not part of the embedded code (the
      memory manager, the file entry, the logger) are recorded as a trace of
      [event]s, in program order. *)

From Stdlib Require Import ZArith QArith List String Ascii Bool Lia.
From Stdlib Require Import DecimalString DecimalZ DecimalPos.
From stdpp Require Import base list strings gmap.
Import ListNotations.

Local Open Scope Z_scope.

(** ** Machine integers *)

Module GoInt.

Definition two64 : Z := 2 ^ 64.

(** Conversion to [uint64]. *)
Definition wrap_u64 (x : Z) : Z := x mod two64.

(** Conversion to [int] (64 bits, two's complement). *)
Definition wrap_int (x : Z) : Z := (x + 2 ^ 63) mod two64 - 2 ^ 63.

Definition u64_add (x y : Z) : Z := wrap_u64 (x + y).
Definition u64_sub (x y : Z) : Z := wrap_u64 (x - y).
Definition u64_mul (x y : Z) : Z := wrap_u64 (x * y).

Definition int_add (x y : Z) : Z := wrap_int (x + y).
Definition int_sub (x y : Z) : Z := wrap_int (x - y).

End GoInt.

Import GoInt.

(** Outcome of a Go function whose last result is an [error]. *)
Inductive result (A : Type) : Type :=
| Ok (a : A)
| Err (msg : string).
Arguments Ok {A} a.
Arguments Err {A} msg.

(** ** binary64 arithmetic

    The repair code compares piece counts after converting them to
    [float64].  A finite binary64 value is a pair of an integer significand
    and an exponent; every operation computes the exact result and rounds it
    to 53 significant bits, ties to even.  Exponent range (overflow to
    infinity, subnormal numbers) is not modelled: the operands below are
    64-bit integers and a threshold between 0 and 1. *)

Module Float64.

Record float64 : Type := mkF { Fnum : Z; Fexp : Z }.

Definition prec : Z := 53.

(** Number of significant bits of an integer. *)
Definition digits (m : Z) : Z :=
  if m =? 0 then 0 else Z.log2 (Z.abs m) + 1.

(** Round [m * 2^e] to [prec] bits, to nearest, ties to even. *)
Definition round (m e : Z) : float64 :=
  let d := digits m in
  if d <=? prec then mkF m e
  else
    let s := d - prec in
    let q := Z.abs m / 2 ^ s in
    let r := Z.abs m mod 2 ^ s in
    let half := 2 ^ (s - 1) in
    let q' :=
      if r <? half then q
      else if half <? r then q + 1
      else if Z.even q then q else q + 1 in
    mkF (Z.sgn m * q') (e + s).

(** [float64(n)] for an integer [n]. *)
Definition of_int (n : Z) : float64 := round n 0.

(** Significands of two values brought to their common, smaller exponent. *)
Definition align (a b : float64) : Z * Z * Z :=
  let e := Z.min (Fexp a) (Fexp b) in
  (Fnum a * 2 ^ (Fexp a - e), Fnum b * 2 ^ (Fexp b - e), e).

Definition fsub (a b : float64) : float64 :=
  let '(x, y, e) := align a b in round (x - y) e.

Definition fmul (a b : float64) : float64 :=
  round (Fnum a * Fnum b) (Fexp a + Fexp b).

(** [a <= b]. *)
Definition fle (a b : float64) : bool :=
  let '(x, y, _) := align a b in x <=? y.

(** [int(a)]: the fractional part is discarded (truncation towards zero). *)
Definition to_int (a : float64) : Z :=
  if 0 <=? Fexp a then wrap_int (Fnum a * 2 ^ Fexp a)
  else wrap_int (Z.quot (Fnum a) (2 ^ (- Fexp a))).

Definition one : float64 := mkF 1 0.

(** The rational number that a value with a non-positive exponent stands
    for: [Fnum / 2^(-Fexp)]. *)
Definition value (a : float64) : Q := Fnum a # Z.to_pos (2 ^ (- Fexp a)).

End Float64.

(** ** Downloads: [newDownload] *)

Module Download.

(** A sector of a segment as the file records it. *)
Record Sector : Type := mkSector { HostID : string; MerkleRoot : Z }.

(** The read-only view of a file handed to a download.  [Sectors idx] is the
    result of [file.Sectors(idx)]: per sector index, the sectors stored for
    it, or an error. *)
Record Snapshot : Type := mkSnapshot {
  FileSize : Z;
  SegmentSize : Z;
  SectorSize : Z;
  NumSectors : nat;
  Sectors : Z -> result (list (list Sector))
}.

(** Modelled from the spec: [SegmentIndexByOffset] is not among the sources.
    Segments are fixed-size slices of the file, so a byte offset lies in
    segment [offset / SegmentSize], at [offset mod SegmentSize] within it.
    A segment size of zero is a division by zero. *)
Definition SegmentIndexByOffset (f : Snapshot) (offset : Z) : option (Z * Z) :=
  if SegmentSize f =? 0 then None
  else Some (offset / SegmentSize f, offset mod SegmentSize f).

Record downloadSectorInfo : Type := mkSectorInfo { index : Z; root : Z }.

Record downloadParams : Type := mkParams {
  file : option Snapshot;
  latencyTarget : Z;
  length : Z;
  needsMemory : bool;
  offset : Z;
  overdrive : Z;
  priority : Z
}.

Record download : Type := mkDownload {
  d_complete : bool;
  d_latencyTarget : Z;
  d_length : Z;
  d_offset : Z;
  d_overdrive : Z;
  d_priority : Z;
  d_segmentsRemaining : Z
}.

Record unfinishedDownloadSegment : Type := mkUds {
  segmentIndex : Z;
  segmentMap : gmap string downloadSectorInfo;
  segmentSize : Z;
  sectorSize : Z;
  uds_latencyTarget : Z;
  uds_needsMemory : bool;
  uds_priority : Z;
  completedSectors : list bool;
  physicalSegmentData : list (option (list Byte.byte));
  sectorUsage : list bool;
  fetchOffset : Z;
  fetchLength : Z;
  writeOffset : Z;
  uds_overdrive : Z
}.

(** The segment indices [first, first+1, ..., last] of the two [for] loops. *)
Definition segmentRange (first last : Z) : list Z :=
  map (fun k => first + Z.of_nat k) (seq 0 (Z.to_nat (last - first + 1))).

(** The inner two loops that fill the map of one segment: a later sector of
    the same host overwrites an earlier one. *)
Definition buildSegmentMap (sectors : list (list Sector))
  : gmap string downloadSectorInfo :=
  fold_left
    (fun m '(sectorIndex, sectorSet) =>
       fold_left
         (fun m sector =>
            <[HostID sector := mkSectorInfo (Z.of_nat sectorIndex) (MerkleRoot sector)]> m)
         sectorSet m)
    (combine (seq 0 (List.length sectors)) sectors) ∅.

(** The first loop: one map per segment, stopping at the first segment
    whose sectors cannot be read. *)
Fixpoint buildSegmentMaps (f : Snapshot) (idxs : list Z)
  : result (list (gmap string downloadSectorInfo)) :=
  match idxs with
  | [] => Ok []
  | i :: rest =>
      match Sectors f i with
      | Err e => Err e
      | Ok sectors =>
          match buildSegmentMaps f rest with
          | Err e => Err e
          | Ok maps => Ok (buildSegmentMap sectors :: maps)
          end
      end
  end.

(** The second loop.  [writeOffset] is the running destination offset. *)
Fixpoint queueSegments (p : downloadParams) (f : Snapshot)
    (startSegmentIndex startSegmentOffset endSegmentIndex endSegmentOffset : Z)
    (idxs : list Z) (maps : list (gmap string downloadSectorInfo))
    (writeOffset : Z) : list unfinishedDownloadSegment :=
  match idxs, maps with
  | i :: idxs', m :: maps' =>
      let fetchOffset :=
        if i =? startSegmentIndex then startSegmentOffset else 0 in
      let fetchLength :=
        if (i =? endSegmentIndex) && negb (endSegmentOffset =? 0)
        then u64_sub endSegmentOffset fetchOffset
        else u64_sub (SegmentSize f) fetchOffset in
      let uds :=
        {| segmentIndex := i;
           segmentMap := m;
           segmentSize := SegmentSize f;
           sectorSize := SectorSize f;
           uds_latencyTarget :=
             wrap_int (latencyTarget p + wrap_int (25 * wrap_int (i - startSegmentIndex)));
           uds_needsMemory := needsMemory p;
           uds_priority := priority p;
           completedSectors := repeat false (NumSectors f);
           physicalSegmentData := repeat None (NumSectors f);
           sectorUsage := repeat false (NumSectors f);
           fetchOffset := fetchOffset;
           fetchLength := fetchLength;
           writeOffset := writeOffset;
           uds_overdrive := overdrive p mod 2 ^ 32 |} in
      uds :: queueSegments p f startSegmentIndex startSegmentOffset
               endSegmentIndex endSegmentOffset idxs' maps'
               (wrap_int (writeOffset + wrap_int fetchLength))
  | _, _ => []
  end.

(** [newDownload]: the download object and the segments put on the download
    heap, in order.  [None] is a run-time panic: a division by a segment
    size of zero, or a slice of maps whose length [end - start + 1] has
    wrapped around.  The tests [length < 0] and [offset < 0] of the source
    never hold for unsigned integers and leave no trace here. *)
Definition newDownload (p : downloadParams)
  : option (result (download * list unfinishedDownloadSegment)) :=
  match file p with
  | None => Some (Err "not exist the remote file")
  | Some f =>
      if FileSize f <? u64_add (offset p) (length p)
      then Some (Err "download data out the boundary of the remote file")
      else
        if length p =? 0
        then Some (Ok ({| d_complete := true;
                          d_latencyTarget := latencyTarget p;
                          d_length := length p;
                          d_offset := offset p;
                          d_overdrive := overdrive p;
                          d_priority := priority p;
                          d_segmentsRemaining := 0 |}, []))
        else
          match SegmentIndexByOffset f (offset p),
                SegmentIndexByOffset f (u64_add (offset p) (length p)) with
          | Some (startSegmentIndex, startSegmentOffset),
            Some (endSegmentIndex0, endSegmentOffset) =>
              let endSegmentIndex :=
                if (0 <? endSegmentIndex0) && (endSegmentOffset =? 0)
                then endSegmentIndex0 - 1 else endSegmentIndex0 in
              if endSegmentIndex + 1 <? startSegmentIndex
              then None
              else
                let idxs := segmentRange startSegmentIndex endSegmentIndex in
                match buildSegmentMaps f idxs with
                | Err e => Some (Err e)
                | Ok segmentMaps =>
                    Some (Ok ({| d_complete := false;
                                 d_latencyTarget := latencyTarget p;
                                 d_length := length p;
                                 d_offset := offset p;
                                 d_overdrive := overdrive p;
                                 d_priority := priority p;
                                 d_segmentsRemaining :=
                                   u64_add (u64_sub endSegmentIndex startSegmentIndex) 1 |},
                              queueSegments p f startSegmentIndex startSegmentOffset
                                endSegmentIndex endSegmentOffset idxs segmentMaps 0))
                end
          | _, _ => None
          end
  end.

End Download.

(** ** Upload and repair of segments *)

Module Upload.

Import Float64.

Definition bytes : Type := list Byte.byte.

(** Calls made to the collaborators of the repair code, in program order. *)
Inductive event : Type :=
| MemoryReturn (amount : Z)
| QueueUploadSegment (worker : nat)
| NewDownload (p : Download.downloadParams)
| SetStuckByIndex (idx : Z) (stuck : bool)
| BubbleMetadata (dir : string)
| StuckSegmentSuccess (dxPath : string)
| FileClose
| LogDebug (msg : string)
| LogError (msg : string).

(** What the code reads from [fileEntry]. *)
Record FileSetEntryWithID : Type := mkEntry {
  LocalPath : string;
  DxPath : string;
  FileSize : Z;
  SectorSize : Z;
  MinSectors : Z;
  NumSegments : Z;
  Snapshot : Download.Snapshot
}.

Record uploadSegmentID : Type := mkID { fid : Z; id_index : Z }.

Record unfinishedUploadSegment : Type := mkSegment {
  id : uploadSegmentID;
  fileEntry : FileSetEntryWithID;
  index : Z;
  length : Z;
  memoryNeeded : Z;
  memoryReleased : Z;
  minimumPieces : Z;
  offset : Z;
  piecesNeeded : Z;
  stuck : bool;
  stuckRepair : bool;
  logicalSegmentData : option (list bytes);
  physicalSegmentData : list (option bytes);
  pieceUsage : list bool;
  piecesCompleted : Z;
  piecesRegistered : Z;
  released : bool;
  workersRemaining : Z;
  workersStandby : list nat
}.

(** Field assignments. *)
Definition set_memoryReleased (v : Z) (uc : unfinishedUploadSegment) :=
  mkSegment (id uc) (fileEntry uc) (index uc) (length uc) (memoryNeeded uc) v
    (minimumPieces uc) (offset uc) (piecesNeeded uc) (stuck uc) (stuckRepair uc)
    (logicalSegmentData uc) (physicalSegmentData uc) (pieceUsage uc)
    (piecesCompleted uc) (piecesRegistered uc) (released uc)
    (workersRemaining uc) (workersStandby uc).

Definition set_logicalSegmentData (v : option (list bytes)) (uc : unfinishedUploadSegment) :=
  mkSegment (id uc) (fileEntry uc) (index uc) (length uc) (memoryNeeded uc)
    (memoryReleased uc) (minimumPieces uc) (offset uc) (piecesNeeded uc) (stuck uc)
    (stuckRepair uc) v (physicalSegmentData uc) (pieceUsage uc)
    (piecesCompleted uc) (piecesRegistered uc) (released uc)
    (workersRemaining uc) (workersStandby uc).

Definition set_physicalSegmentData (v : list (option bytes)) (uc : unfinishedUploadSegment) :=
  mkSegment (id uc) (fileEntry uc) (index uc) (length uc) (memoryNeeded uc)
    (memoryReleased uc) (minimumPieces uc) (offset uc) (piecesNeeded uc) (stuck uc)
    (stuckRepair uc) (logicalSegmentData uc) v (pieceUsage uc)
    (piecesCompleted uc) (piecesRegistered uc) (released uc)
    (workersRemaining uc) (workersStandby uc).

Definition set_pieceUsage (v : list bool) (uc : unfinishedUploadSegment) :=
  mkSegment (id uc) (fileEntry uc) (index uc) (length uc) (memoryNeeded uc)
    (memoryReleased uc) (minimumPieces uc) (offset uc) (piecesNeeded uc) (stuck uc)
    (stuckRepair uc) (logicalSegmentData uc) (physicalSegmentData uc) v
    (piecesCompleted uc) (piecesRegistered uc) (released uc)
    (workersRemaining uc) (workersStandby uc).

Definition set_released (v : bool) (uc : unfinishedUploadSegment) :=
  mkSegment (id uc) (fileEntry uc) (index uc) (length uc) (memoryNeeded uc)
    (memoryReleased uc) (minimumPieces uc) (offset uc) (piecesNeeded uc) (stuck uc)
    (stuckRepair uc) (logicalSegmentData uc) (physicalSegmentData uc) (pieceUsage uc)
    (piecesCompleted uc) (piecesRegistered uc) v
    (workersRemaining uc) (workersStandby uc).

Definition set_workersRemaining (v : Z) (uc : unfinishedUploadSegment) :=
  mkSegment (id uc) (fileEntry uc) (index uc) (length uc) (memoryNeeded uc)
    (memoryReleased uc) (minimumPieces uc) (offset uc) (piecesNeeded uc) (stuck uc)
    (stuckRepair uc) (logicalSegmentData uc) (physicalSegmentData uc) (pieceUsage uc)
    (piecesCompleted uc) (piecesRegistered uc) (released uc)
    v (workersStandby uc).

Definition set_workersStandby (v : list nat) (uc : unfinishedUploadSegment) :=
  mkSegment (id uc) (fileEntry uc) (index uc) (length uc) (memoryNeeded uc)
    (memoryReleased uc) (minimumPieces uc) (offset uc) (piecesNeeded uc) (stuck uc)
    (stuckRepair uc) (logicalSegmentData uc) (physicalSegmentData uc) (pieceUsage uc)
    (piecesCompleted uc) (piecesRegistered uc) (released uc)
    (workersRemaining uc) v.

(** Result of reading the local copy of a segment. *)
Inductive readError : Type :=
| ReadOk
| ReadEOF
| ReadUnexpectedEOF
| ReadFailed.

(** Result of waiting for a repair download. *)
Inductive downloadWait : Type :=
| Interrupted
| DownloadFailed (msg : string)
| Downloaded (buf : list bytes).

(** The storage client as the repair code sees it: constants that are
    declared outside the embedded sources ([storage.SectorSize],
    [RemoteRepairDownloadThreshold]), the state of the client, and the
    answers of the operating system and of the other components. *)
Record StorageClient : Type := mkClient {
  storageSectorSize : Z;
  RemoteRepairDownloadThreshold : float64;
  tmAddFails : bool;
  stopped : bool;
  stoppedBeforeSignal : bool;
  Online : bool;
  workerPool : list nat;
  osOpen : string -> bool;
  readFrom : string -> Z -> Z -> list bytes * readError;
  waitDownload : Download.downloadParams -> downloadWait;
  Encode : option (list bytes) -> list (option bytes) * option string;
  Encrypt : option bytes -> result (option bytes);
  SetStuckByIndexErr : Z -> bool -> bool;
  NewDxPath : string -> result string;
  Dir : string -> result string;
  FileCloseErr : bool
}.

(** [SegmentComplete]. *)
Definition SegmentComplete (uc : unfinishedUploadSegment) : bool :=
  if (piecesCompleted uc =? piecesNeeded uc) && (piecesRegistered uc =? 0)
  then true
  else if (workersRemaining uc =? 0) && (piecesRegistered uc =? 0)
  then true
  else false.

(** [managedNotifyStandbyWorkers]: the standby list is emptied and the
    segment queued again on each worker that was on it. *)
Definition managedNotifyStandbyWorkers (uc : unfinishedUploadSegment)
  : unfinishedUploadSegment * list event :=
  (set_workersStandby [] uc, map QueueUploadSegment (workersStandby uc)).

(** [managedDistributeSegmentToWorkers], with the set of repairing
    segments of the upload heap. *)
Definition managedDistributeSegmentToWorkers (sc : StorageClient)
    (repairingSegments : gset (Z * Z)) (uc : unfinishedUploadSegment)
  : gset (Z * Z) * unfinishedUploadSegment * list event :=
  ({[ (fid (id uc), id_index (id uc)) ]} ∪ repairingSegments,
   set_workersRemaining
     (int_add (workersRemaining uc) (Z.of_nat (List.length (workerPool sc)))) uc,
   map QueueUploadSegment (workerPool sc)).

(** [managedDownloadLogicalSegmentData]: the number of bytes asked for.
    The remainder is only computed for the last segment, where a segment of
    length zero is a division by zero. *)
Definition downloadLength (uc : unfinishedUploadSegment) : option Z :=
  let fe := fileEntry uc in
  if index uc =? wrap_u64 (int_sub (NumSegments fe) 1) then
    if length uc =? 0 then None
    else if negb (FileSize fe mod length uc =? 0)
         then Some (FileSize fe mod length uc)
         else Some (length uc)
  else Some (length uc).

(** The parameters of a repair download. *)
Definition repairDownloadParams (uc : unfinishedUploadSegment) (downloadLength : Z)
  : Download.downloadParams :=
  {| Download.file := Some (Snapshot (fileEntry uc));
     Download.latencyTarget := 200000;
     Download.length := downloadLength;
     Download.needsMemory := false;
     Download.offset := wrap_u64 (offset uc);
     Download.overdrive := 0;
     Download.priority := 0 |}.

(** [managedDownloadLogicalSegmentData].  [None] is a run-time panic. *)
Definition managedDownloadLogicalSegmentData (sc : StorageClient)
    (segment : unfinishedUploadSegment)
  : option (result unit * unfinishedUploadSegment * list event) :=
  match downloadLength segment with
  | None => None
  | Some len =>
      let params := repairDownloadParams segment len in
      match Download.newDownload params with
      | None => None
      | Some (Err e) => Some (Err e, segment, [NewDownload params])
      | Some (Ok _) =>
          match waitDownload sc params with
          | Interrupted =>
              Some (Err "repair download interrupted by stop call", segment,
                    [NewDownload params])
          | DownloadFailed msg => Some (Err msg, segment, [NewDownload params])
          | Downloaded buf =>
              Some (Ok tt, set_logicalSegmentData (Some buf) segment,
                    [NewDownload params])
          end
      end
  end.

(** The [download] flag of [managedFetchLogicalSegmentData]. *)
Definition download (sc : StorageClient) (Segment : unfinishedUploadSegment) : bool :=
  let numParityPieces :=
    of_int (int_sub (piecesNeeded Segment) (minimumPieces Segment)) in
  let minMissingPiecesToDownload :=
    to_int (fmul numParityPieces (RemoteRepairDownloadThreshold sc)) in
  int_add (piecesCompleted Segment) minMissingPiecesToDownload <? piecesNeeded Segment.

(** The [return] statement at which [managedFetchLogicalSegmentData] ends,
    with what was logged on the way. *)
Inductive fetchReturn : Type :=
| ReturnDownload (log : list event)
| ReturnError (msg : string) (log : list event)
| ReturnLocal (buf : list bytes).

(** Whether the function ends in the call of
    [managedDownloadLogicalSegmentData]. *)
Definition isDownload (r : fetchReturn) : bool :=
  match r with
  | ReturnDownload _ => true
  | _ => false
  end.

(** [managedFetchLogicalSegmentData] up to its [return] statement. *)
Definition fetchLogicalSegmentData_return (sc : StorageClient)
    (Segment : unfinishedUploadSegment) : fetchReturn :=
  let download := download sc Segment in
  let localPath := LocalPath (fileEntry Segment) in
  if String.eqb localPath "" && download then ReturnDownload []
  else if String.eqb localPath "" then ReturnError "file not available locally" []
  else
    if negb (osOpen sc localPath) && download then ReturnDownload []
    else if negb (osOpen sc localPath) then ReturnError "failed to open file locally" []
    else
      let '(buf, err) :=
        readFrom sc localPath (offset Segment) (wrap_int (length Segment)) in
      match err with
      | ReadFailed =>
          if download
          then ReturnDownload [LogDebug "failed to read file, downloading instead:"]
          else ReturnError "failed to read file locally"
                 [LogDebug "failed to read file locally:"]
      | _ => ReturnLocal buf
      end.

(** [managedFetchLogicalSegmentData]: [return
    sc.managedDownloadLogicalSegmentData(Segment)] runs the download; the
    other [return]s end the function.  [None] is a run-time panic. *)
Definition managedFetchLogicalSegmentData (sc : StorageClient)
    (Segment : unfinishedUploadSegment)
  : option (result unit * unfinishedUploadSegment * list event) :=
  match fetchLogicalSegmentData_return sc Segment with
  | ReturnDownload log =>
      match managedDownloadLogicalSegmentData sc Segment with
      | None => None
      | Some (r, s, tr) => Some (r, s, log ++ tr)
      end
  | ReturnError msg log => Some (Err msg, Segment, log)
  | ReturnLocal buf => Some (Ok tt, set_logicalSegmentData (Some buf) Segment, [])
  end.

(** The test made by [managedUpdateUploadSegmentStuckStatus].  Were the
    threshold an untyped constant, Go would compute [1 - threshold] exactly
    before rounding it; for a threshold that is a binary fraction the
    subtraction is exact either way. *)
Definition successfulRepair (sc : StorageClient) (uc : unfinishedUploadSegment) : bool :=
  fle (fmul (fsub one (RemoteRepairDownloadThreshold sc)) (of_int (piecesNeeded uc)))
      (of_int (piecesCompleted uc)).

(** [managedUpdateUploadSegmentStuckStatus]. *)
Definition managedUpdateUploadSegmentStuckStatus (sc : StorageClient)
    (uc : unfinishedUploadSegment) : list event :=
  let index := id_index (id uc) in
  let successfulRepair := successfulRepair sc uc in
  let renterError := if stopped sc then true else negb (Online sc) in
  if negb successfulRepair && renterError then
    [LogDebug "WARN: repair unsuccessful for Segment due to an error with the renter"]
  else
    let log :=
      if negb successfulRepair
      then LogDebug "WARN: repair unsuccessful, marking Segment as stuck"
      else LogDebug "SUCCESS: repair successsful, marking Segment as non-stuck:" in
    let update :=
      SetStuckByIndex (wrap_int index) (negb successfulRepair)
      :: (if SetStuckByIndexErr sc (wrap_int index) (negb successfulRepair)
          then [LogDebug "WARN: could not set Segment stuck status for file"]
          else []) in
    match NewDxPath sc (DxPath (fileEntry uc)) with
    | Err _ => log :: update
    | Ok dxPath =>
        match Dir sc dxPath with
        | Err _ => log :: update
        | Ok dirDxPath =>
            log :: update ++ BubbleMetadata dirDxPath ::
              (if stuck uc && successfulRepair && stuckRepair uc then
                 LogDebug "Stuck Segment successfully repaired" ::
                 (if stoppedBeforeSignal sc
                  then [LogDebug "WARN: renter shut down before the stuck loop was signalled that the stuck repair was successful"]
                  else [StuckSegmentSuccess dxPath])
               else [])
        end
    end.

(** State of the scan of [managedCleanUpUploadSegment]. *)
Record cleanScan : Type := mkScan {
  scanUsage : list bool;
  scanData : list (option bytes);
  piecesAvailable : Z;
  scanReleased : Z
}.

(** One iteration of the scan, at index [i].  Writing
    [physicalSegmentData[i]] beyond the end of the slice panics. *)
Definition cleanStep (sectorSize workersRemaining : Z) (i : nat) (s : cleanScan)
  : option cleanScan :=
  match scanUsage s !! i with
  | None => None
  | Some true => Some s
  | Some false =>
      if workersRemaining <=? piecesAvailable s then
        if (i <? List.length (scanData s))%nat then
          Some {| scanUsage := <[i := true]> (scanUsage s);
                  scanData := <[i := None]> (scanData s);
                  piecesAvailable := piecesAvailable s;
                  scanReleased := u64_add (scanReleased s) sectorSize |}
        else None
      else
        Some {| scanUsage := scanUsage s;
                scanData := scanData s;
                piecesAvailable := int_add (piecesAvailable s) 1;
                scanReleased := scanReleased s |}
  end.

(** The scan over the indices [idxs], in order. *)
Fixpoint cleanLoop (sectorSize workersRemaining : Z) (idxs : list nat) (s : cleanScan)
  : option cleanScan :=
  match idxs with
  | [] => Some s
  | i :: rest =>
      match cleanStep sectorSize workersRemaining i s with
      | None => None
      | Some s' => cleanLoop sectorSize workersRemaining rest s'
      end
  end.

(** [managedCleanUpUploadSegment], with the set of repairing segments of
    the upload heap.  [None] is a run-time panic. *)
Definition managedCleanUpUploadSegment (sc : StorageClient)
    (repairingSegments : gset (Z * Z)) (uc : unfinishedUploadSegment)
  : option (gset (Z * Z) * unfinishedUploadSegment * list event) :=
  match cleanLoop (storageSectorSize sc) (workersRemaining uc)
          (seq 0 (List.length (pieceUsage uc)))
          {| scanUsage := pieceUsage uc;
             scanData := physicalSegmentData uc;
             piecesAvailable := 0;
             scanReleased := 0 |} with
  | None => None
  | Some s =>
      let uc1 := set_physicalSegmentData (scanData s) (set_pieceUsage (scanUsage s) uc) in
      let segmentComplete := SegmentComplete uc1 in
      let released := released uc1 in
      let uc2 := if segmentComplete && negb released then set_released true uc1 else uc1 in
      let uc3 := set_memoryReleased (u64_add (memoryReleased uc2) (scanReleased s)) uc2 in
      let totalMemoryReleased := memoryReleased uc3 in
      let '(uc4, notified) :=
        if 0 <? piecesAvailable s then managedNotifyStandbyWorkers uc3 else (uc3, []) in
      let returned :=
        if 0 <? scanReleased s then [MemoryReturn (scanReleased s)] else [] in
      let '(repairing', finished) :=
        if segmentComplete && negb released then
          (repairingSegments ∖ {[ (fid (id uc4), id_index (id uc4)) ]},
           managedUpdateUploadSegmentStuckStatus sc uc4 ++ FileClose ::
             (if FileCloseErr sc
              then [LogDebug "file not closed after segment upload complete"]
              else []))
        else (repairingSegments, []) in
      let sanity :=
        if segmentComplete && negb (totalMemoryReleased =? memoryNeeded uc4)
        then [LogDebug "No workers remaining, but not all memory released:"]
        else [] in
      Some (repairing', uc4, notified ++ returned ++ finished ++ sanity)
  end.

(** The memory that a function may have to give back, as
    [threadedFetchAndRepairSegment] computes it on entry. *)
Definition erasureCodingMemory (segment : unfinishedUploadSegment) : Z :=
  u64_mul (SectorSize (fileEntry segment)) (wrap_u64 (MinSectors (fileEntry segment))).

Definition pieceCompletedMemory (sc : StorageClient) (segment : unfinishedUploadSegment) : Z :=
  fold_left (fun acc (used : bool) => if used then u64_add acc (storageSectorSize sc) else acc)
    (pieceUsage segment) 0.

(** The encryption loop: used pieces are dropped, the others encrypted in
    place; a piece that fails to encrypt is left as it is. *)
Definition encryptPieces (sc : StorageClient) (usage : list bool)
    (data : list (option bytes)) : list (option bytes) * list event :=
  fold_left
    (fun '(data, log) '(i, used) =>
       if used : bool then (<[i := None]> data, log)
       else
         match data !! i with
         | None => (data, log)
         | Some piece =>
             match Encrypt sc piece with
             | Err _ => (data, log ++ [LogDebug "encrypt segment failed"])
             | Ok cipherData => (<[i := cipherData]> data, log)
             end
         end)
    (combine (seq 0 (List.length usage)) usage) (data, []).

(** The body of [threadedFetchAndRepairSegment] after [sc.tm.Add] and up to
    its [return], before the deferred clean-up runs. *)
Definition fetchAndRepairSegment_body (sc : StorageClient)
    (repairingSegments : gset (Z * Z)) (segment : unfinishedUploadSegment)
  : option (gset (Z * Z) * unfinishedUploadSegment * list event) :=
  let erasureCodingMemory := erasureCodingMemory segment in
  let pieceCompletedMemory := pieceCompletedMemory sc segment in
  match managedFetchLogicalSegmentData sc segment with
  | None => None
  | Some (Err _, segment, tr) =>
      let segment := set_logicalSegmentData None segment in
      let segment := set_workersRemaining 0 segment in
      let amount := u64_add erasureCodingMemory pieceCompletedMemory in
      let segment := set_memoryReleased (u64_add (memoryReleased segment) amount) segment in
      Some (repairingSegments, segment,
            tr ++ [MemoryReturn amount;
                   LogDebug "Fetching logical data of a Segment failed:"])
  | Some (Ok _, segment, tr) =>
      let '(physical, err) := Encode sc (logicalSegmentData segment) in
      let segment := set_physicalSegmentData physical segment in
      let segment := set_logicalSegmentData None segment in
      let segment :=
        set_memoryReleased (u64_add (memoryReleased segment) erasureCodingMemory) segment in
      let tr := tr ++ [MemoryReturn erasureCodingMemory] in
      match err with
      | Some _ =>
          let segment := set_workersRemaining 0 segment in
          let segment :=
            set_memoryReleased (u64_add (memoryReleased segment) pieceCompletedMemory)
              segment in
          let segment :=
            set_physicalSegmentData
              (map (fun _ => None) (physicalSegmentData segment)) segment in
          Some (repairingSegments, segment,
                tr ++ [MemoryReturn pieceCompletedMemory;
                       LogDebug "Fetching physical data of a Segment failed:"])
      | None =>
          if (List.length (physicalSegmentData segment) <? List.length (pieceUsage segment))%nat
          then
            Some (repairingSegments, segment,
                  tr ++ [LogError "not enough physical pieces to match the upload settings of the file"])
          else
            let '(data, log) :=
              encryptPieces sc (pieceUsage segment) (physicalSegmentData segment) in
            let segment := set_physicalSegmentData data segment in
            let '(segment, ret) :=
              if 0 <? pieceCompletedMemory then
                (set_memoryReleased
                   (u64_add (memoryReleased segment) pieceCompletedMemory) segment,
                 [MemoryReturn pieceCompletedMemory])
              else (segment, []) in
            let '(repairing', segment, queued) :=
              managedDistributeSegmentToWorkers sc repairingSegments segment in
            Some (repairing', segment, tr ++ log ++ ret ++ queued)
      end
  end.

(** [threadedFetchAndRepairSegment]: nothing happens when the client is
    stopping; otherwise the body runs and then the deferred
    [managedCleanUpUploadSegment]. *)
Definition threadedFetchAndRepairSegment (sc : StorageClient)
    (repairingSegments : gset (Z * Z)) (segment : unfinishedUploadSegment)
  : option (gset (Z * Z) * unfinishedUploadSegment * list event) :=
  if tmAddFails sc then Some (repairingSegments, segment, [])
  else
    match fetchAndRepairSegment_body sc repairingSegments segment with
    | None => None
    | Some (repairing1, segment1, tr1) =>
        match managedCleanUpUploadSegment sc repairing1 segment1 with
        | None => None
        | Some (repairing2, segment2, tr2) => Some (repairing2, segment2, tr1 ++ tr2)
        end
    end.

(** Total of the amounts given back to the memory manager in a trace. *)
Definition memoryReturned (tr : list event) : Z :=
  fold_right (fun e acc => match e with MemoryReturn a => a + acc | _ => acc end) 0 tr.

(** The calls to [SetStuckByIndex] in a trace. *)
Definition stuckUpdates (tr : list event) : list (Z * bool) :=
  flat_map (fun e => match e with SetStuckByIndex i b => [(i, b)] | _ => [] end) tr.

(** Number of pieces in use. *)
Definition usedPieces (usage : list bool) : Z :=
  Z.of_nat (List.length (List.filter (fun b : bool => b) usage)).

(** Number of pieces not in use among the first [i]. *)
Definition unusedBefore (usage : list bool) (i : nat) : Z :=
  Z.of_nat (List.length (List.filter negb (take i usage))).

(** Number of pieces that the scan of [managedCleanUpUploadSegment] has
    counted as available when it reaches index [i]: pieces not in use are
    counted until there is one for each remaining worker. *)
Definition availableBefore (workersRemaining : Z) (usage : list bool) (i : nat) : Z :=
  Z.min (unusedBefore usage i) (Z.max workersRemaining 0).

(** Number of slots that are in use afterwards and were not before. *)
Definition slotsReleased (before after : list bool) : Z :=
  Z.of_nat (List.length
              (List.filter (fun '(b, a) => negb b && a) (combine before after))).

(** What the scan has done at index [j] of the slices [usage0], [data0] it
    started from: a piece in use is left alone; a piece not in use is
    released when enough pieces were counted before it, and is left for a
    worker otherwise. *)
Definition settled (workersRemaining : Z) (usage0 : list bool)
    (data0 : list (option bytes)) (usage : list bool) (data : list (option bytes))
    (j : nat) : Prop :=
  match usage0 !! j with
  | Some true => usage !! j = Some true /\ data !! j = data0 !! j
  | Some false =>
      if workersRemaining <=? availableBefore workersRemaining usage0 j
      then usage !! j = Some true /\ data !! j = Some None
      else usage !! j = Some false /\ data !! j = data0 !! j
  | None => True
  end.

(** The state of the scan when it reaches index [k]. *)
Definition scanInvariant (sectorSize workersRemaining : Z) (usage0 : list bool)
    (data0 : list (option bytes)) (k : nat) (s : cleanScan) : Prop :=
  List.length (scanUsage s) = List.length usage0 /\
  List.length (scanData s) = List.length data0 /\
  (forall j, (k <= j)%nat ->
     scanUsage s !! j = usage0 !! j /\ scanData s !! j = data0 !! j) /\
  (forall j, (j < k)%nat ->
     settled workersRemaining usage0 data0 (scanUsage s) (scanData s) j) /\
  piecesAvailable s = availableBefore workersRemaining usage0 k /\
  scanReleased s = sectorSize * slotsReleased (take k usage0) (take k (scanUsage s)).

(** Whether a trace has a call to [newDownload]. *)
Definition downloadIssued (tr : list event) : bool :=
  existsb (fun e => match e with NewDownload _ => true | _ => false end) tr.

End Upload.

(** ** The memory manager *)

Module MemoryManager.

(** Modelled from the spec: the memory manager itself is not among the
    sources, only its test and its callers are.  It is a budget of bytes
    with two tiers of waiters.  A request larger than the limit is admitted
    and what [available] cannot cover is recorded as [underflow]; memory
    given back, and slack gained by raising the limit, pay off [underflow]
    before they replenish [available]; lowering the limit takes the
    difference from [available] and records what is missing as
    [underflow]. *)
Record memoryManager : Type := mkMM {
  limit : Z;
  available : Z;
  underflow : Z;
  waitingHigh : list Z;
  waitingLow : list Z
}.

(** Modelled from the spec: a new manager has its whole limit available. *)
Definition New (limit : Z) : memoryManager :=
  mkMM limit limit 0 [] [].

(** Modelled from the spec: one attempt to reserve [amount] bytes. *)
Definition try (amount : Z) (mm : memoryManager) : option memoryManager :=
  if amount <=? available mm then
    Some (mkMM (limit mm) (available mm - amount) (underflow mm)
            (waitingHigh mm) (waitingLow mm))
  else if limit mm <? amount then
    Some (mkMM (limit mm) 0 (underflow mm + (amount - available mm))
            (waitingHigh mm) (waitingLow mm))
  else None.

(** Modelled from the spec: waiters are served in order, the high tier
    before the low one, for as long as the request at the head can be
    granted. *)
Fixpoint wakeHigh (queue : list Z) (mm : memoryManager) : memoryManager :=
  match queue with
  | [] => mkMM (limit mm) (available mm) (underflow mm) [] (waitingLow mm)
  | amount :: rest =>
      match try amount mm with
      | Some mm' => wakeHigh rest mm'
      | None =>
          mkMM (limit mm) (available mm) (underflow mm) queue (waitingLow mm)
      end
  end.

(** Modelled from the spec: the same for the low tier. *)
Fixpoint wakeLow (queue : list Z) (mm : memoryManager) : memoryManager :=
  match queue with
  | [] => mkMM (limit mm) (available mm) (underflow mm) (waitingHigh mm) []
  | amount :: rest =>
      match try amount mm with
      | Some mm' => wakeLow rest mm'
      | None =>
          mkMM (limit mm) (available mm) (underflow mm) (waitingHigh mm) queue
      end
  end.

(** Modelled from the spec: waking the waiters; the low tier is only served
    once no high-priority request waits. *)
Definition wake (mm : memoryManager) : memoryManager :=
  let mm1 := wakeHigh (waitingHigh mm) mm in
  match waitingHigh mm1 with
  | [] => wakeLow (waitingLow mm1) mm1
  | _ => mm1
  end.

(** Modelled from the spec: [Request(amount, priority)].  The boolean tells
    whether the request was granted at once; otherwise the caller waits in
    the queue of its tier.  A high-priority request only waits behind
    high-priority waiters. *)
Definition Request (amount : Z) (priority : bool) (mm : memoryManager)
  : memoryManager * bool :=
  let mustQueue :=
    if priority then negb (Nat.eqb (List.length (waitingHigh mm)) 0)
    else negb (Nat.eqb (List.length (waitingHigh mm) + List.length (waitingLow mm)) 0) in
  match (if mustQueue then None else try amount mm) with
  | Some mm' => (mm', true)
  | None =>
      if priority
      then (mkMM (limit mm) (available mm) (underflow mm)
              (waitingHigh mm ++ [amount]) (waitingLow mm), false)
      else (mkMM (limit mm) (available mm) (underflow mm)
              (waitingHigh mm) (waitingLow mm ++ [amount]), false)
  end.

(** Modelled from the spec: bytes that come back pay off the underflow
    first. *)
Definition replenish (amount : Z) (mm : memoryManager) : memoryManager :=
  if amount <=? underflow mm then
    mkMM (limit mm) (available mm) (underflow mm - amount)
      (waitingHigh mm) (waitingLow mm)
  else
    mkMM (limit mm) (available mm + (amount - underflow mm)) 0
      (waitingHigh mm) (waitingLow mm).

(** Modelled from the spec: [Return(amount)]. *)
Definition Return (amount : Z) (mm : memoryManager) : memoryManager :=
  wake (replenish amount mm).

(** Modelled from the spec: [SetMemoryLimit(newLimit)]. *)
Definition SetMemoryLimit (newLimit : Z) (mm : memoryManager) : memoryManager :=
  if limit mm <=? newLimit then
    let mm' := replenish (newLimit - limit mm) mm in
    wake (mkMM newLimit (available mm') (underflow mm')
            (waitingHigh mm') (waitingLow mm'))
  else
    let delta := limit mm - newLimit in
    if delta <=? available mm then
      mkMM newLimit (available mm - delta) (underflow mm)
        (waitingHigh mm) (waitingLow mm)
    else
      mkMM newLimit 0 (underflow mm + (delta - available mm))
        (waitingHigh mm) (waitingLow mm).

(** Modelled from the spec: [MemoryAvailable()]. *)
Definition MemoryAvailable (mm : memoryManager) : Z := available mm.

(** Modelled from the spec: [MemoryLimit()]. *)
Definition MemoryLimit (mm : memoryManager) : Z := limit mm.

End MemoryManager.

(** ** Directory metadata *)

Module DxDir.

Definition chars (s : string) : list ascii := list_ascii_of_string s.
Definition str (l : list ascii) : string := string_of_list_ascii l.

(** *** [path/filepath] on a system whose separator is the slash *)

(** The elements of a path: the pieces between slashes. *)
Fixpoint splitPath (l : list ascii) : list (list ascii) :=
  match l with
  | [] => [[]]
  | c :: rest =>
      if Ascii.eqb c "/" then [] :: splitPath rest
      else
        match splitPath rest with
        | [] => [[c]]
        | e :: es => (c :: e) :: es
        end
  end.

Fixpoint joinWith (sep : list ascii) (elems : list (list ascii)) : list ascii :=
  match elems with
  | [] => []
  | [e] => e
  | e :: es => e ++ sep ++ joinWith sep es
  end.

Definition dot : list ascii := chars ".".
Definition dotdot : list ascii := chars "..".

Definition elemEqb (a b : list ascii) : bool := String.eqb (str a) (str b).

(** The elements kept by [Clean], last one first: empty elements and [.] go,
    [..] removes the element before it, at the root it goes too. *)
Fixpoint cleanElems (rooted : bool) (elems kept : list (list ascii))
  : list (list ascii) :=
  match elems with
  | [] => kept
  | e :: es =>
      if elemEqb e [] || elemEqb e dot then cleanElems rooted es kept
      else if elemEqb e dotdot then
        match kept with
        | k :: ks =>
            if elemEqb k dotdot then cleanElems rooted es (e :: kept)
            else cleanElems rooted es ks
        | [] =>
            if rooted then cleanElems rooted es []
            else cleanElems rooted es [e]
        end
      else cleanElems rooted es (e :: kept)
  end.

(** [filepath.Clean]. *)
Definition Clean (path : string) : string :=
  let l := chars path in
  let rooted := match l with c :: _ => Ascii.eqb c "/" | [] => false end in
  let body := joinWith (chars "/") (rev (cleanElems rooted (splitPath l) [])) in
  match (if rooted then "/"%char :: body else body) with
  | [] => "."
  | out => str out
  end.

(** [filepath.Join]: the elements from the first one that is not empty,
    separated by slashes, cleaned. *)
Fixpoint Join (elem : list string) : string :=
  match elem with
  | [] => ""
  | e :: rest =>
      if String.eqb e "" then Join rest
      else Clean (str (joinWith (chars "/") (map chars elem)))
  end.

(** *** The directory set and the directory *)

Definition DirFileName : string := ".dxdir".

(** Modelled from the spec: the constant [dirFileName] that the directory
    set uses is not among the sources; the persisted layout names the
    metadata file of a directory [.dxdir]. *)
Definition dirFileName : string := DirFileName.

Record Metadata : Type := mkMetadata {
  NumFiles : Z;
  TotalSize : Z;
  Health : Z;
  StuckHealth : Z;
  MinRedundancy : Z;
  TimeLastHealthCheck : Z;
  TimeModify : Z;
  NumStuckSegments : Z;
  DxPath : string;
  RootPath : string
}.

Record DxDir : Type := mkDxDir {
  metadata : Metadata;
  deleted : bool;
  dirFilePath_ : string
}.

Record DirSet : Type := mkDirSet {
  rootDir : string;
  dirMap : gmap string DxDir
}.

(** [DirSet.dirFilePath]. *)
Definition dirFilePath (ds : DirSet) (path : string) : string :=
  Join [path; path; dirFileName].

(** [DirSet.dirPath]. *)
Definition dirPath (ds : DirSet) (path : string) : string :=
  Join [rootDir ds; path].

(** [DirSet.exists], given which files are on disk: the file looked up is
    the one that [dirFilePath] names. *)
Definition exists_ (onDisk : string -> bool) (ds : DirSet) (path : string) : bool :=
  match dirMap ds !! path with
  | Some _ => true
  | None => onDisk (dirFilePath ds path)
  end.

(** Modelled from the spec: [SysPath.Join] is not among the sources; the
    persisted layout puts the metadata of a directory under the root at
    [<dxpath>/.dxdir], so it joins the root, the path and the further
    elements as [filepath.Join] does. *)
Definition SysPath_Join (rootPath dxPath : string) (extra : list string) : string :=
  Join (rootPath :: dxPath :: extra).

Definition DefaultHealth : Z := 200.
Definition MaxUint32 : Z := 2 ^ 32 - 1.

(** [New], given which files are on disk and the clock: the directory, or
    the error.  Creating the directory and saving the metadata may fail;
    [mkdirErr] and [saveErr] tell. *)
Definition New (onDisk : string -> bool) (statErr mkdirErr saveErr : bool) (now : Z)
    (dxPath rootPath : string) : result DxDir :=
  let filePath := SysPath_Join rootPath dxPath [DirFileName] in
  if onDisk filePath then Err "file already exists"
  else if statErr then Err "stat"
  else if mkdirErr then Err "mkdir"
  else
    let d := {| metadata :=
                  {| NumFiles := 0;
                     TotalSize := 0;
                     Health := DefaultHealth;
                     StuckHealth := DefaultHealth;
                     MinRedundancy := MaxUint32;
                     TimeLastHealthCheck := 0;
                     TimeModify := wrap_u64 now;
                     NumStuckSegments := 0;
                     DxPath := dxPath;
                     RootPath := rootPath |};
                deleted := false;
                dirFilePath_ := filePath |} in
    if saveErr then Err "save" else Ok d.

(** [DxDir.FilePath]. *)
Definition FilePath (d : DxDir) : string := dirFilePath_ d.

(** [DxDir.UpdateMetadata], at time [now]; [saveErr] is the result of
    [d.save()], which the function returns. *)
Definition UpdateMetadata (now : Z) (saveErr : option string) (d : DxDir)
    (md : Metadata) : DxDir * option string :=
  ({| metadata :=
        {| NumFiles := NumFiles md;
           TotalSize := TotalSize md;
           Health := Health md;
           StuckHealth := StuckHealth md;
           MinRedundancy := MinRedundancy md;
           TimeLastHealthCheck := TimeLastHealthCheck md;
           TimeModify := wrap_u64 now;
           NumStuckSegments := NumStuckSegments md;
           DxPath := DxPath (metadata d);
           RootPath := RootPath (metadata d) |};
      deleted := deleted d;
      dirFilePath_ := dirFilePath_ d |},
   saveErr).

End DxDir.

(** ** Currency units *)

Module Unit.

Definition chars (s : string) : list ascii := list_ascii_of_string s.
Definition str (l : list ascii) : string := string_of_list_ascii l.

(** *** [common.BigInt], an integer of any size *)

(** [BigInt.String]: the decimal numeral, with a minus sign when negative. *)
Definition BigInt_String (x : Z) : string :=
  NilZero.string_of_int (Z.to_int x).

(** [BigInt.DivUint64]: Euclidean division by a positive machine integer. *)
Definition DivUint64 (x y : Z) : Z := x / y.

(** [BigInt.MultUint64]. *)
Definition MultUint64 (x y : Z) : Z := x * y.

(** Modelled from the spec: [IsEqual] is not among the sources of
    [common.BigInt]; it is equality of the two integers. *)
Definition IsEqual (x y : Z) : bool := x =? y.

(** Modelled from the spec: [DivNoRemaining] is not among the sources of
    [common.BigInt]; it tells whether the division leaves no remainder. *)
Definition DivNoRemaining (x y : Z) : bool := x mod y =? 0.

(** *** [strings] *)

Fixpoint hasPrefix (p l : list ascii) : bool :=
  match p, l with
  | [], _ => true
  | a :: p', b :: l' => Ascii.eqb a b && hasPrefix p' l'
  | _ :: _, [] => false
  end.

(** [strings.HasSuffix]. *)
Definition HasSuffix (s suffix : string) : bool :=
  hasPrefix (rev (chars suffix)) (rev (chars s)).

(** [strings.TrimSuffix]. *)
Definition TrimSuffix (s suffix : string) : string :=
  if HasSuffix s suffix
  then str (take (List.length (chars s) - List.length (chars suffix)) (chars s))
  else s.

Definition isDigit (c : ascii) : bool :=
  let n := nat_of_ascii c in
  (Nat.leb 48 n && Nat.leb n 57)%bool.

Definition isSpace (c : ascii) : bool :=
  let n := nat_of_ascii c in
  (Nat.eqb n 32 || (Nat.leb 9 n && Nat.leb n 13))%bool.

Definition toLower (c : ascii) : ascii :=
  let n := nat_of_ascii c in
  if (Nat.leb 65 n && Nat.leb n 90)%bool then ascii_of_nat (n + 32) else c.

(** *** The units *)

Definition CurrencyUnit : list string :=
  ["wei"; "kwei"; "mwei"; "gwei"; "microether"; "milliether"; "ether"].

Definition CurrencyIndexMap : list (string * Z) :=
  [("wei", 1); ("kwei", 10 ^ 3); ("mwei", 10 ^ 6); ("gwei", 10 ^ 9);
   ("microether", 10 ^ 12); ("milliether", 10 ^ 15); ("ether", 10 ^ 18)].

(** Reading the map: a key that is absent reads as zero. *)
Definition index (unit : string) : Z :=
  match find (fun kv => String.eqb (fst kv) unit) CurrencyIndexMap with
  | Some kv => snd kv
  | None => 0
  end.

(** Modelled from the spec: [formatString] is not among the sources; its
    caller says that it removes all the white spaces and converts everything
    into lower case. *)
Definition formatString (s : string) : string :=
  str (map toLower (List.filter (fun c => negb (isSpace c)) (chars s))).

(** Modelled from the spec: [stringToBigInt] is not among the sources.  The
    amount is numeric with a unit suffix and is converted into wei: with the
    unit removed, the string has to be a decimal numeral, digits only, and
    its value is multiplied by the number of wei in the unit. *)
Definition stringToBigInt (unit s : string) : result Z :=
  match NilZero.uint_of_string (TrimSuffix s unit) with
  | Some d => Ok (MultUint64 (Z.of_uint d) (index unit))
  | None => Err "failed to parse the currency, the amount must be numeric"
  end.

(** [ParseCurrency].  Go visits the keys of a map in an order of its own
    choosing; [order] is the order of that visit. *)
Definition ParseCurrency (order : list string) (s : string) : result Z :=
  let s := formatString s in
  match find (fun unit =>
                negb (String.eqb unit "wei" || String.eqb unit "ether")
                && HasSuffix s unit) order with
  | Some unit => stringToBigInt unit s
  | None =>
      if HasSuffix s "wei" then stringToBigInt "wei" s
      else if HasSuffix s "ether" then stringToBigInt "ether" s
      else Err "the provided currency unit is invalid"
  end.

(** An order in which the keys of [CurrencyIndexMap] may be visited. *)
Definition visits (order : list string) : Prop :=
  Permutation order (map fst CurrencyIndexMap).

(** [FormatCurrency]. *)
Definition FormatCurrency (fund : Z) (extra : list string) : string :=
  let extraStr := String.concat "" extra in
  if IsEqual fund 0 then BigInt_String fund ++ " wei" ++ extraStr
  else if DivNoRemaining fund (index "ether")
  then BigInt_String (DivUint64 fund (index "ether")) ++ " ether" ++ extraStr
  else if DivNoRemaining fund (index "milliether")
  then BigInt_String (DivUint64 fund (index "milliether")) ++ " milliether" ++ extraStr
  else if DivNoRemaining fund (index "microether")
  then BigInt_String (DivUint64 fund (index "microether")) ++ " microether" ++ extraStr
  else if DivNoRemaining fund (index "gwei")
  then BigInt_String (DivUint64 fund (index "gwei")) ++ " Gwei" ++ extraStr
  else if DivNoRemaining fund (index "mwei")
  then BigInt_String (DivUint64 fund (index "mwei")) ++ " Mwei" ++ extraStr
  else if DivNoRemaining fund (index "kwei")
  then BigInt_String (DivUint64 fund (index "kwei")) ++ " Kwei" ++ extraStr
  else BigInt_String fund ++ " wei" ++ extraStr.

End Unit.

(** ** Further observations on traces *)

(** Number of times the file entry is closed. *)
Definition fileCloses (tr : list Upload.event) : nat :=
  List.length
    (List.filter (fun e => match e with Upload.FileClose => true | _ => false end) tr).

(** The workers on which the segment is queued, in order. *)
Definition queuedWorkers (tr : list Upload.event) : list nat :=
  flat_map (fun e => match e with Upload.QueueUploadSegment w => [w] | _ => [] end) tr.

(** The paths sent to the stuck loop. *)
Definition stuckSignals (tr : list Upload.event) : list string :=
  flat_map (fun e => match e with Upload.StuckSegmentSuccess p => [p] | _ => [] end) tr.

(** The directories whose metadata is bubbled. *)
Definition bubbled (tr : list Upload.event) : list string :=
  flat_map (fun e => match e with Upload.BubbleMetadata d => [d] | _ => [] end) tr.

(** ** Further observations on downloads *)

(** Where in the file a download starts to read segment [i]: at the start
    offset in the first segment, at the beginning of any other. *)
Definition fetchStart (segmentSize startSegmentIndex startSegmentOffset i : Z) : Z :=
  i * segmentSize + (if i =? startSegmentIndex then startSegmentOffset else 0).

(** Where in the file a download stops reading segment [i]: at the end
    offset in the last segment when that is not zero, at the end of the
    segment otherwise. *)
Definition fetchStop (segmentSize endSegmentIndex endSegmentOffset i : Z) : Z :=
  if (i =? endSegmentIndex) && negb (endSegmentOffset =? 0)
  then i * segmentSize + endSegmentOffset
  else (i + 1) * segmentSize.

(** The number of bytes that the queued segments fetch in all. *)
Definition bytesFetched (segs : list Download.unfinishedDownloadSegment) : Z :=
  fold_right (fun u acc => Download.fetchLength u + acc) 0 segs.

(** ** [common.BigInt], continued *)

Module BigInt.

(** [big.Int.Cmp]: -1, 0 or 1. *)
Definition Cmp (x y : Z) : Z :=
  match x ?= y with
  | Lt => -1
  | Eq => 0
  | Gt => 1
  end.

(** [big.Int.Div] is Euclidean division: the remainder is never negative. *)
Definition bigDiv (x y : Z) : Z := Z.sgn y * (x / Z.abs y).

(** [Div]: a denominator of zero is replaced by one. *)
Definition Div (x y : Z) : Z :=
  let y := if Cmp y 0 =? 0 then 1 else y in
  bigDiv x y.

(** [big.Int.SetString] in base 10: an optional sign, then one decimal
    digit or more, and nothing else. *)
Definition SetString10 (s : string) : option Z :=
  match s with
  | String "-" digits => option_map (fun d => - Z.of_uint d) (NilZero.uint_of_string digits)
  | String "+" digits => option_map Z.of_uint (NilZero.uint_of_string digits)
  | _ => option_map Z.of_uint (NilZero.uint_of_string s)
  end.

(** [MarshalJSON]: the decimal numeral, and no error. *)
Definition MarshalJSON (x : Z) : string := Unit.BigInt_String x.

(** [UnmarshalJSON]: the receiver afterwards, and whether an error is
    returned; of the message only the fixed part is kept. *)
Definition UnmarshalJSON (x : Z) (val : string) : Z * result unit :=
  if String.eqb val "null" then (x, Ok tt)
  else
    match SetString10 val with
    | None => (x, Err "invalid big integer: ")
    | Some y => (y, Ok tt)
    end.

End BigInt.

(** ** The entries of the directory set *)

Module DirEntries.

(** A [dirSetEntry]: the directory and the threads that hold it.  Of a
    thread the map only keeps where and when it was opened, which nothing
    reads; the keys are what matters. *)
Record dirSetEntry : Type := mkEntry {
  dxDir : DxDir.DxDir;
  threadMap : gset Z
}.

(** A [DirSetEntryWithId]: a pointer to the entry and the thread id. *)
Record DirSetEntryWithId : Type := mkHandle {
  entryPtr : nat;
  threadID : Z
}.

(** The [DirSet] with the entries that its pointers point to: [entries] is
    the store, an entry lives at its index and is never moved. *)
Record DirSet : Type := mkSet {
  rootDir : string;
  dirMap : gmap string nat;
  entries : list dirSetEntry
}.

(** [NewDirSet]. *)
Definition NewDirSet (rootDir : string) : DirSet :=
  {| rootDir := rootDir; dirMap := ∅; entries := [] |}.

(** [DirSet.dirPath]. *)
Definition dirPath (ds : DirSet) (path : string) : string :=
  DxDir.Join [rootDir ds; path].

(** [newDirSetEntry]. *)
Definition newDirSetEntry (d : DxDir.DxDir) : dirSetEntry :=
  {| dxDir := d; threadMap := ∅ |}.

(** [entry.threadMap[tid] = newThread()]. *)
Definition addThread (tid : Z) (e : dirSetEntry) : dirSetEntry :=
  {| dxDir := dxDir e; threadMap := {[ tid ]} ∪ threadMap e |}.

(** [DirSet.open], given what [load] returns for a path on disk and the
    thread id that [randomThreadID] draws. *)
Definition open (load : string -> result DxDir.DxDir) (tid : Z)
    (ds : DirSet) (path : string) : result DirSetEntryWithId * DirSet :=
  match dirMap ds !! path with
  | Some ptr =>
      (Ok {| entryPtr := ptr; threadID := tid |},
       {| rootDir := rootDir ds;
          dirMap := dirMap ds;
          entries := alter (addThread tid) ptr (entries ds) |})
  | None =>
      match load (dirPath ds path) with
      | Err e => (Err e, ds)
      | Ok d =>
          let ptr := List.length (entries ds) in
          (Ok {| entryPtr := ptr; threadID := tid |},
           {| rootDir := rootDir ds;
              dirMap := <[path := ptr]> (dirMap ds);
              entries := entries ds ++ [addThread tid (newDirSetEntry d)] |})
      end
  end.

(** [DirSet.closeEntry].  A handle points to an entry of the store; [None]
    is for a handle that does not. *)
Definition closeEntry (ds : DirSet) (entry : DirSetEntryWithId) : option DirSet :=
  match entries ds !! entryPtr entry with
  | None => None
  | Some e =>
      let e' := {| dxDir := dxDir e; threadMap := threadMap e ∖ {[ threadID entry ]} |} in
      let entries' := <[entryPtr entry := e']> (entries ds) in
      let key := DxDir.DxPath (DxDir.metadata (dxDir e)) in
      let kept := {| rootDir := rootDir ds; dirMap := dirMap ds; entries := entries' |} in
      match dirMap ds !! key with
      | None => Some kept
      | Some currentEntry =>
          if negb (currentEntry =? entryPtr entry)%nat then Some kept
          else if (size (threadMap e') =? 0)%nat
          then Some {| rootDir := rootDir ds;
                       dirMap := delete key (dirMap ds);
                       entries := entries' |}
          else Some kept
      end
  end.

(** Every directory of the map is held by a thread and filed under its own
    path. *)
Definition consistent (ds : DirSet) : Prop :=
  forall path ptr,
    dirMap ds !! path = Some ptr ->
    exists e,
      entries ds !! ptr = Some e /\
      threadMap e <> ∅ /\
      DxDir.DxPath (DxDir.metadata (dxDir e)) = path.

End DirEntries.

(** ** The accessors of a [DxFile] *)

Module DxFile.

(** The fields of [Metadata] that the accessors embedded here read or
    write.  Times are Unix seconds kept in 64 unsigned bits. *)
Record Metadata : Type := mkMetadata {
  FileSize : Z;
  SectorSize : Z;
  LocalPath : string;
  DxPath : string;
  TimeModify : Z;
  TimeUpdate : Z;
  TimeAccess : Z;
  TimeCreate : Z;
  TimeLastHealthCheck : Z;
  TimeRecentRepair : Z;
  FileMode : Z
}.

Record DxFile : Type := mkDxFile {
  metadata : Metadata;
  filePath : string
}.

(** A [time.Time] is known by its Unix seconds, which is all that the
    setters keep of it.  [time.Time{}] is the first of January of year 1. *)
Definition zeroTime : Z := -62135596800.

(** The body shared by the getters of a time: [guard] is the field that is
    tested, [field] the one that is returned; the second component is what
    is logged. *)
Definition timeOf (guard field : Z) (overflow : string) : Z * option string :=
  if wrap_int guard <? 0 then (zeroTime, Some overflow)
  else (wrap_int field, None).

Definition TimeAccess_ (df : DxFile) : Z * option string :=
  timeOf (TimeAccess (metadata df)) (TimeAccess (metadata df)) "TimeAccess uint64 overflow".

(** [TimeLastHealthCheck]: the field tested is [TimeRecentRepair]. *)
Definition TimeLastHealthCheck_ (df : DxFile) : Z * option string :=
  timeOf (TimeRecentRepair (metadata df)) (TimeLastHealthCheck (metadata df))
    "TimeRecentRepair uint64 overflow".

Definition LastTimeRecentRepair (df : DxFile) : Z * option string :=
  timeOf (TimeRecentRepair (metadata df)) (TimeRecentRepair (metadata df))
    "TimeRecentRepair uint64 overflow".

(** The setters: the field is written, then the metadata saved; [saveErr]
    is the result of [saveMetadata], which the setter returns.  [t] is
    [t.Unix()]. *)
Definition SetTimeAccess (saveErr : option string) (t : Z) (df : DxFile)
  : DxFile * option string :=
  let m := metadata df in
  ({| metadata :=
        mkMetadata (FileSize m) (SectorSize m) (LocalPath m) (DxPath m) (TimeModify m)
          (TimeUpdate m) (wrap_u64 t) (TimeCreate m) (TimeLastHealthCheck m)
          (TimeRecentRepair m) (FileMode m);
      filePath := filePath df |}, saveErr).

Definition SetTimeLastHealthCheck (saveErr : option string) (t : Z) (df : DxFile)
  : DxFile * option string :=
  let m := metadata df in
  ({| metadata :=
        mkMetadata (FileSize m) (SectorSize m) (LocalPath m) (DxPath m) (TimeModify m)
          (TimeUpdate m) (TimeAccess m) (TimeCreate m) (wrap_u64 t)
          (TimeRecentRepair m) (FileMode m);
      filePath := filePath df |}, saveErr).

Definition SetTimeRecentRepair (saveErr : option string) (t : Z) (df : DxFile)
  : DxFile * option string :=
  let m := metadata df in
  ({| metadata :=
        mkMetadata (FileSize m) (SectorSize m) (LocalPath m) (DxPath m) (TimeModify m)
          (TimeUpdate m) (TimeAccess m) (TimeCreate m) (TimeLastHealthCheck m)
          (wrap_u64 t) (FileMode m);
      filePath := filePath df |}, saveErr).

End DxFile.

(** ** The storage client: downloads and settings *)

Module Client.

(** [storage.DownloadParameters]. *)
Record DownloadParameters : Type := mkDownloadParameters {
  RemoteFilePath : string;
  WriteToLocalPath : string
}.

(** An opened file entry, as [createDownload] uses it. *)
Record FileEntry : Type := mkFileEntry {
  entrySnapshot : result Download.Snapshot;
  entryFileSize : Z
}.

(** What the file system, the environment and the operating system answer
    to [createDownload]. *)
Record System : Type := mkSystem {
  NewDxPath : string -> result string;
  OpenDxFile : string -> result FileEntry;
  HOME : string;
  userHomeDir : result string;
  OpenFile : string -> option string;
  closeFile : string -> option string
}.

(** What [createDownload] does to the file entry and to the disk. *)
Inductive event : Type :=
| OpenedFile (path : string)
| ClosedFile (path : string)
| SetTimeAccess
| EntryClose.

(** [filepath.IsAbs], where the separator is the slash. *)
Definition IsAbs (path : string) : bool := Unit.hasPrefix ["/"%char] (Unit.chars path).

(** [strings.Contains(path, "/")]. *)
Definition containsSlash (path : string) : bool :=
  existsb (fun c => Ascii.eqb c "/") (Unit.chars path).

(** Where the download is written: an absolute path as it is, a file name
    in the home directory of the user. *)
Definition destinationPath (sys : System) (WriteToLocalPath : string) : result string :=
  if negb (String.eqb WriteToLocalPath "") && negb (IsAbs WriteToLocalPath) then
    if containsSlash WriteToLocalPath
    then Err "should specify the file name not include directory，or specify absolute path"
    else if String.eqb (HOME sys) "" then Err "not home env"
    else
      match userHomeDir sys with
      | Err e => Err e
      | Ok home => Ok (DxDir.Join [home; WriteToLocalPath])
      end
  else Ok WriteToLocalPath.

(** The request that [createDownload] makes: the whole file, from 0. *)
Definition downloadRequest (snap : Download.Snapshot) (fileSize : Z)
  : Download.downloadParams :=
  {| Download.file := Some snap;
     Download.latencyTarget := 25000000000;
     Download.length := fileSize;
     Download.needsMemory := true;
     Download.offset := 0;
     Download.overdrive := 3;
     Download.priority := 5 |}.

(** [createDownload]: the download with the segments queued, or the error,
    and what was done on the way; the two deferred calls come last, in the
    reverse of the order in which they were deferred.  When the download is
    returned the destination stays open: closing it is left to the
    completion of the download.  [None] is a run-time panic of
    [newDownload]. *)
Definition createDownload (sys : System) (p : DownloadParameters)
  : option (result (Download.download * list Download.unfinishedDownloadSegment)
            * list event) :=
  match NewDxPath sys (RemoteFilePath p) with
  | Err e => Some (Err e, [])
  | Ok dxPath =>
      match OpenDxFile sys dxPath with
      | Err e => Some (Err e, [])
      | Ok entry =>
          let deferred := [SetTimeAccess; EntryClose] in
          if String.eqb (WriteToLocalPath p) ""
          then Some (Err "not specified local path", deferred)
          else
            match destinationPath sys (WriteToLocalPath p) with
            | Err e => Some (Err e, deferred)
            | Ok dest =>
                match OpenFile sys dest with
                | Some e => Some (Err e, deferred)
                | None =>
                    match entrySnapshot entry with
                    | Err e =>
                        Some (Err ("cannot create snapshot: " ++ e)%string,
                              OpenedFile dest :: deferred)
                    | Ok snap =>
                        match Download.newDownload
                                (downloadRequest snap (entryFileSize entry)) with
                        | None => None
                        | Some (Err e) =>
                            Some (match closeFile sys dest with
                                  | Some closeErr =>
                                      Err ("something wrong with creating download object: "
                                           ++ e ++ ", destination close error: "
                                           ++ closeErr)%string
                                  | None =>
                                      Err ("get something wrong with creating download object: "
                                           ++ e ++ ", destination close successfully")%string
                                  end,
                                  OpenedFile dest :: ClosedFile dest :: deferred)
                        | Some (Ok d) => Some (Ok d, OpenedFile dest :: deferred)
                        end
                    end
                end
            end
      end
  end.

(** The files opened and the files closed, in order. *)
Definition opened (tr : list event) : list string :=
  flat_map (fun e => match e with OpenedFile p => [p] | _ => [] end) tr.

Definition closed (tr : list event) : list string :=
  flat_map (fun e => match e with ClosedFile p => [p] | _ => [] end) tr.

(** *** The settings *)

(** [storage.ClientSetting]; the rent payment is handed on as it is. *)
Record ClientSetting (RentPayment : Type) : Type := mkSetting {
  rentPayment : RentPayment;
  EnableIPViolation : bool;
  MaxUploadSpeed : Z;
  MaxDownloadSpeed : Z
}.

Arguments mkSetting {RentPayment}.
Arguments rentPayment {RentPayment}.
Arguments EnableIPViolation {RentPayment}.
Arguments MaxUploadSpeed {RentPayment}.
Arguments MaxDownloadSpeed {RentPayment}.

(** The two speeds of the persisted settings. *)
Record persistence : Type := mkPersist {
  persistDownloadSpeed : Z;
  persistUploadSpeed : Z
}.

(** The calls to the managers, in order. *)
Inductive call (RentPayment : Type) : Type :=
| SetRentPayment (r : RentPayment)
| SetRateLimits (download upload packetSize : Z)
| SetIPViolationCheck (enabled : bool)
| SaveSettings
| ActivateWorkerPool.

Arguments SetRentPayment {RentPayment}.
Arguments SetRateLimits {RentPayment}.
Arguments SetIPViolationCheck {RentPayment}.
Arguments SaveSettings {RentPayment}.
Arguments ActivateWorkerPool {RentPayment}.

(** [setBandwidthLimits]; [DefaultPacketSize] is declared outside the
    embedded sources. *)
Definition setBandwidthLimits {RentPayment : Type} (DefaultPacketSize : Z)
    (downloadSpeedLimit uploadSpeedLimit : Z) : option string * list (call RentPayment) :=
  if (uploadSpeedLimit <? 0) || (downloadSpeedLimit <? 0)
  then (Some "upload/download speed limit cannot be negative", [])
  else if (uploadSpeedLimit =? 0) && (downloadSpeedLimit =? 0)
  then (None, [SetRateLimits 0 0 0])
  else (None, [SetRateLimits downloadSpeedLimit uploadSpeedLimit DefaultPacketSize]).

(** [SetClientSetting], given what the thread manager, the contract manager
    and the saving of the settings answer: the error, the persisted speeds
    in memory afterwards, and the calls made. *)
Definition SetClientSetting {RentPayment : Type} (DefaultPacketSize : Z)
    (tmAddErr rentPaymentErr saveErr : option string)
    (persist : persistence) (setting : ClientSetting RentPayment)
  : option string * persistence * list (call RentPayment) :=
  match tmAddErr with
  | Some e => (Some e, persist, [])
  | None =>
      if (MaxUploadSpeed setting <? 0) || (MaxDownloadSpeed setting <? 0)
      then (Some ("both upload speed " ++ Unit.BigInt_String (MaxUploadSpeed setting)
                  ++ " and download speed "
                  ++ Unit.BigInt_String (MaxDownloadSpeed setting)
                  ++ " cannot be smaller than 0")%string,
            persist, [])
      else
        match rentPaymentErr with
        | Some e => (Some e, persist, [SetRentPayment (rentPayment setting)])
        | None =>
            let '(err, limits) :=
              setBandwidthLimits DefaultPacketSize
                (MaxDownloadSpeed setting) (MaxUploadSpeed setting) in
            match err with
            | Some e => (Some e, persist, SetRentPayment (rentPayment setting) :: limits)
            | None =>
                let persist' :=
                  {| persistDownloadSpeed := MaxDownloadSpeed setting;
                     persistUploadSpeed := MaxUploadSpeed setting |} in
                let calls :=
                  SetRentPayment (rentPayment setting) :: limits
                  ++ [SetIPViolationCheck (EnableIPViolation setting); SaveSettings] in
                match saveErr with
                | Some e =>
                    (Some ("failed to save the storage client settings: " ++ e)%string,
                     persist', calls)
                | None => (None, persist', calls ++ [ActivateWorkerPool])
                end
            end
        end
  end.

(** The rate limits set, in order. *)
Definition rateLimits {RentPayment : Type} (calls : list (call RentPayment))
  : list (Z * Z * Z) :=
  flat_map (fun c => match c with SetRateLimits d u p => [(d, u, p)] | _ => [] end) calls.

End Client.

(** ** Sample values

    Concrete files, clients and segments on which the functions are run. *)

Definition sampleSnapshot : Download.Snapshot :=
  {| Download.FileSize := 10;
     Download.SegmentSize := 4;
     Download.SectorSize := 2;
     Download.NumSectors := 3;
     Download.Sectors := fun _ =>
       Ok [[Download.mkSector "h1" 1]; [Download.mkSector "h2" 2]; []] |}.

(** The request that [createDownload] makes: the whole file, from 0. *)
Definition wholeFile (f : Download.Snapshot) : Download.downloadParams :=
  {| Download.file := Some f;
     Download.latencyTarget := 25000000000;
     Download.length := Download.FileSize f;
     Download.needsMemory := true;
     Download.offset := 0;
     Download.overdrive := 3;
     Download.priority := 5 |}.

Definition sampleEntry (localPath : string) : Upload.FileSetEntryWithID :=
  {| Upload.LocalPath := localPath;
     Upload.DxPath := "dir/f";
     Upload.FileSize := 10;
     Upload.SectorSize := 2;
     Upload.MinSectors := 2;
     Upload.NumSegments := 3;
     Upload.Snapshot := sampleSnapshot |}.

(** A client that is online, whose threshold is one quarter, and for which
    local files cannot be opened. *)
Definition sampleClient : Upload.StorageClient :=
  {| Upload.storageSectorSize := 2;
     Upload.RemoteRepairDownloadThreshold := Float64.mkF 1 (-2);
     Upload.tmAddFails := false;
     Upload.stopped := false;
     Upload.stoppedBeforeSignal := false;
     Upload.Online := true;
     Upload.workerPool := [1%nat; 2%nat];
     Upload.osOpen := fun _ => false;
     Upload.readFrom := fun _ _ _ => ([], Upload.ReadOk);
     Upload.waitDownload := fun _ => Upload.DownloadFailed "no hosts";
     Upload.Encode := fun _ => ([], Some "no data");
     Upload.Encrypt := fun piece => Ok piece;
     Upload.SetStuckByIndexErr := fun _ _ => false;
     Upload.NewDxPath := fun s => Ok s;
     Upload.Dir := fun _ => Ok "dir";
     Upload.FileCloseErr := false |}.

(** The last segment of the sample file: three sectors, the first of them
    uploaded already, [completed] pieces completed in all. *)
Definition sampleSegment (localPath : string) (completed workers : Z)
  : Upload.unfinishedUploadSegment :=
  {| Upload.id := Upload.mkID 7 2;
     Upload.fileEntry := sampleEntry localPath;
     Upload.index := 2;
     Upload.length := 4;
     Upload.memoryNeeded := 10;
     Upload.memoryReleased := 0;
     Upload.minimumPieces := 2;
     Upload.offset := 8;
     Upload.piecesNeeded := 4;
     Upload.stuck := false;
     Upload.stuckRepair := false;
     Upload.logicalSegmentData := None;
     Upload.physicalSegmentData := [None; None; None; None];
     Upload.pieceUsage := [true; false; false; false];
     Upload.piecesCompleted := completed;
     Upload.piecesRegistered := 0;
     Upload.released := false;
     Upload.workersRemaining := workers;
     Upload.workersStandby := [] |}.

(** A client for which the local file opens and reads, whose erasure coder
    returns four pieces together with [encodeErr], and whose cipher reverses
    a piece and refuses a missing one. *)
Definition localClient (encodeErr : option string) : Upload.StorageClient :=
  {| Upload.storageSectorSize := 2;
     Upload.RemoteRepairDownloadThreshold := Float64.mkF 1 (-2);
     Upload.tmAddFails := false;
     Upload.stopped := false;
     Upload.stoppedBeforeSignal := false;
     Upload.Online := true;
     Upload.workerPool := [1%nat; 2%nat];
     Upload.osOpen := fun _ => true;
     Upload.readFrom := fun _ _ _ => ([[Byte.x01; Byte.x02]], Upload.ReadEOF);
     Upload.waitDownload := fun _ => Upload.DownloadFailed "no hosts";
     Upload.Encode := fun _ =>
       ([Some [Byte.x01; Byte.x02]; Some [Byte.x03; Byte.x04];
         None; Some [Byte.x05; Byte.x06]], encodeErr);
     Upload.Encrypt := fun piece =>
       match piece with
       | Some b => Ok (Some (rev b))
       | None => Err "no piece to encrypt"
       end;
     Upload.SetStuckByIndexErr := fun _ _ => false;
     Upload.NewDxPath := fun s => Ok s;
     Upload.Dir := fun _ => Ok "dir";
     Upload.FileCloseErr := false |}.

(** A directory saved under [path] below the root [/data], and a disk on
    which every directory of that kind can be loaded from its own place. *)
Definition sampleDir (path : string) : DxDir.DxDir :=
  {| DxDir.metadata :=
       {| DxDir.NumFiles := 0;
          DxDir.TotalSize := 0;
          DxDir.Health := DxDir.DefaultHealth;
          DxDir.StuckHealth := DxDir.DefaultHealth;
          DxDir.MinRedundancy := DxDir.MaxUint32;
          DxDir.TimeLastHealthCheck := 0;
          DxDir.TimeModify := 0;
          DxDir.NumStuckSegments := 0;
          DxDir.DxPath := path;
          DxDir.RootPath := "/data" |};
     DxDir.deleted := false;
     DxDir.dirFilePath_ := DxDir.SysPath_Join "/data" path [DxDir.DirFileName] |}.

Definition sampleLoad (path : string) (sysPath : string) : result DxDir.DxDir :=
  if String.eqb sysPath (DxDir.Join ["/data"; path])
  then Ok (sampleDir path)
  else Err "no such file or directory".

(** * Properties *)

Import Float64.

(** Case analysis on the answers that steer
    [managedUpdateUploadSegmentStuckStatus]. *)
Ltac stuck_status_cases sc uc :=
  destruct (Upload.successfulRepair sc uc), (Upload.SetStuckByIndexErr sc _ _),
    (Upload.NewDxPath sc _) as [?dxPath|]; try reflexivity;
  destruct (Upload.Dir sc _); try reflexivity;
  destruct (Upload.stuck uc), (Upload.stuckRepair uc),
    (Upload.stoppedBeforeSignal sc); reflexivity.

(** Case analysis on the tests of [managedFetchLogicalSegmentData]. *)
Ltac fetch_return_cases :=
  unfold Upload.fetchLogicalSegmentData_return;
  repeat match goal with
         | |- context [if ?c then _ else _] => destruct c
         | |- context [let '(_, _) := ?p in _] => destruct p
         | |- context [match ?e with Upload.ReadOk => _ | _ => _ end] => destruct e
         end.

(** ** Completion of a segment *)

(** What [SegmentComplete] tests: the pieces completed are compared with
    the pieces needed for equality. *)
Lemma SegmentComplete_iff (uc : Upload.unfinishedUploadSegment) :
  Upload.SegmentComplete uc = true <->
  (Upload.piecesCompleted uc = Upload.piecesNeeded uc /\ Upload.piecesRegistered uc = 0) \/
  (Upload.workersRemaining uc = 0 /\ Upload.piecesRegistered uc = 0).
Proof.
  unfold Upload.SegmentComplete.
  destruct (Z.eqb_spec (Upload.piecesCompleted uc) (Upload.piecesNeeded uc));
    destruct (Z.eqb_spec (Upload.piecesRegistered uc) 0);
    destruct (Z.eqb_spec (Upload.workersRemaining uc) 0); cbn;
    intuition congruence.
Qed.

(** C1: for every segment in which the pieces completed do not exceed the
    pieces needed, as they never do in a segment of the upload,
    [SegmentComplete] returns true if and only if
    ([piecesCompleted >= piecesNeeded] and [piecesRegistered = 0]) or
    ([workersRemaining = 0] and [piecesRegistered = 0]). *)
Theorem SegmentComplete_within_need (uc : Upload.unfinishedUploadSegment) :
  Upload.piecesCompleted uc <= Upload.piecesNeeded uc ->
  (Upload.SegmentComplete uc = true <->
   (Upload.piecesCompleted uc >= Upload.piecesNeeded uc /\ Upload.piecesRegistered uc = 0) \/
   (Upload.workersRemaining uc = 0 /\ Upload.piecesRegistered uc = 0)).
Proof.
  intros Hle. unfold Upload.SegmentComplete.
  destruct (Z.eqb_spec (Upload.piecesCompleted uc) (Upload.piecesNeeded uc));
    destruct (Z.eqb_spec (Upload.piecesRegistered uc) 0);
    destruct (Z.eqb_spec (Upload.workersRemaining uc) 0); cbn;
    intuition (congruence || lia).
Qed.

Lemma SegmentComplete_within_need_witness :
  Upload.SegmentComplete (sampleSegment "" 4 1) = true <->
  (Upload.piecesCompleted (sampleSegment "" 4 1) >= Upload.piecesNeeded (sampleSegment "" 4 1) /\
   Upload.piecesRegistered (sampleSegment "" 4 1) = 0) \/
  (Upload.workersRemaining (sampleSegment "" 4 1) = 0 /\
   Upload.piecesRegistered (sampleSegment "" 4 1) = 0).
Proof.
  apply (SegmentComplete_within_need (sampleSegment "" 4 1)). cbn. lia.
Defined.

(** ** The memory manager *)

(** C6: from a manager with limit 10000, [Request(15000, high)],
    [SetMemoryLimit(5000)], [Return(15000)] end with underflow 0,
    available 5000 and limit 5000; after the shrink and before the return
    the underflow is 10000. *)
Theorem memory_shrink_scenario :
  let mm0 := MemoryManager.New 10000 in
  let mm1 := fst (MemoryManager.Request 15000 true mm0) in
  let mm2 := MemoryManager.SetMemoryLimit 5000 mm1 in
  let mm3 := MemoryManager.Return 15000 mm2 in
  snd (MemoryManager.Request 15000 true mm0) = true /\
  MemoryManager.underflow mm2 = 10000 /\
  MemoryManager.limit mm2 = 5000 /\
  MemoryManager.underflow mm3 = 0 /\
  MemoryManager.available mm3 = 5000 /\
  MemoryManager.limit mm3 = 5000.
Proof. cbv zeta. repeat split; reflexivity. Qed.

(** The companion scenario of the test file: raising the limit pays off the
    underflow and lets the waiting request through. *)
Example memory_expand_scenario :
  let mm0 := MemoryManager.New 100000 in
  let mm1 := fst (MemoryManager.Request 150000 true mm0) in
  let '(mm2, granted) := MemoryManager.Request 5000 false mm1 in
  let mm3 := MemoryManager.SetMemoryLimit 156000 mm2 in
  MemoryManager.underflow mm1 = 50000 /\ granted = false /\
  MemoryManager.waitingLow mm3 = [] /\
  MemoryManager.available mm3 = 1000 /\
  MemoryManager.underflow mm3 = 0 /\
  MemoryManager.limit mm3 = 156000.
Proof. vm_compute. repeat split; reflexivity. Qed.

(** ** Directory metadata *)

(** C8 fails on the code: in a set rooted at [/data], the file consulted for
    the directory [a] is [a/a/.dxdir], while [New] creates the metadata at
    [/data/a/.dxdir]; once that file is the only one on disk, the directory
    is created and then reported as absent. *)
Theorem dirFilePath_misses_root :
  let ds := DxDir.mkDirSet "/data" ∅ in
  let onDisk := fun f : string => String.eqb f "/data/a/.dxdir" in
  DxDir.dirFilePath ds "a" = "a/a/.dxdir" /\
  (exists d, DxDir.New (fun _ => false) false false false 0 "a" "/data" = Ok d /\
             DxDir.FilePath d = "/data/a/.dxdir") /\
  DxDir.exists_ onDisk ds "a" = false.
Proof.
  cbv zeta. split; [reflexivity|]. split; [|reflexivity].
  eexists. split; reflexivity.
Qed.

(** The file consulted never depends on the root of the set. *)
Lemma dirFilePath_any_root (root1 root2 : string) (m1 m2 : gmap string DxDir.DxDir)
    (path : string) :
  DxDir.dirFilePath (DxDir.mkDirSet root1 m1) path =
  DxDir.dirFilePath (DxDir.mkDirSet root2 m2) path.
Proof. reflexivity. Qed.

(** C10: [UpdateMetadata] keeps [DxPath] and [RootPath], copies [NumFiles],
    [TotalSize], [Health], [StuckHealth], [MinRedundancy],
    [TimeLastHealthCheck] and [NumStuckSegments] from its argument, and sets
    [TimeModify] to the current time, whatever the argument's [TimeModify]
    is. *)
Theorem UpdateMetadata_fields (now : Z) (saveErr : option string)
    (d : DxDir.DxDir) (md : DxDir.Metadata) :
  let d' := fst (DxDir.UpdateMetadata now saveErr d md) in
  DxDir.DxPath (DxDir.metadata d') = DxDir.DxPath (DxDir.metadata d) /\
  DxDir.RootPath (DxDir.metadata d') = DxDir.RootPath (DxDir.metadata d) /\
  DxDir.NumFiles (DxDir.metadata d') = DxDir.NumFiles md /\
  DxDir.TotalSize (DxDir.metadata d') = DxDir.TotalSize md /\
  DxDir.Health (DxDir.metadata d') = DxDir.Health md /\
  DxDir.StuckHealth (DxDir.metadata d') = DxDir.StuckHealth md /\
  DxDir.MinRedundancy (DxDir.metadata d') = DxDir.MinRedundancy md /\
  DxDir.TimeLastHealthCheck (DxDir.metadata d') = DxDir.TimeLastHealthCheck md /\
  DxDir.NumStuckSegments (DxDir.metadata d') = DxDir.NumStuckSegments md /\
  DxDir.TimeModify (DxDir.metadata d') = wrap_u64 now /\
  (forall t : Z,
     DxDir.UpdateMetadata now saveErr d
       (DxDir.mkMetadata (DxDir.NumFiles md) (DxDir.TotalSize md) (DxDir.Health md)
          (DxDir.StuckHealth md) (DxDir.MinRedundancy md)
          (DxDir.TimeLastHealthCheck md) t (DxDir.NumStuckSegments md)
          (DxDir.DxPath md) (DxDir.RootPath md))
     = DxDir.UpdateMetadata now saveErr d md).
Proof. cbn. repeat split; reflexivity. Qed.

(** ** Downloads *)

Lemma wrap_u64_small (x : Z) : 0 <= x < two64 -> wrap_u64 x = x.
Proof. intros H. unfold wrap_u64. now apply Z.mod_small. Qed.

Lemma wrap_int_small (x : Z) : - 2 ^ 63 <= x < 2 ^ 63 -> wrap_int x = x.
Proof.
  intros H. unfold wrap_int, two64. rewrite Z.mod_small; lia.
Qed.

Lemma segmentRange_snoc (first last : Z) :
  first <= last ->
  Download.segmentRange first last = Download.segmentRange first (last - 1) ++ [last].
Proof.
  intros Hle. unfold Download.segmentRange.
  replace (Z.to_nat (last - first + 1)) with (S (Z.to_nat (last - 1 - first + 1))) by lia.
  rewrite seq_S, map_app. cbn. do 2 f_equal. lia.
Qed.

Lemma buildSegmentMaps_ok (f : Download.Snapshot) (idxs : list Z) :
  (forall i, exists s, Download.Sectors f i = Ok s) ->
  exists maps, Download.buildSegmentMaps f idxs = Ok maps /\
               List.length maps = List.length idxs.
Proof.
  intros Hs. induction idxs as [|i rest [maps [IH Hlen]]]; cbn.
  - now exists [].
  - destruct (Hs i) as [s ->]. rewrite IH. eexists. split; [reflexivity|]. cbn. lia.
Qed.

(** The segment queued last is the one built for the last index. *)
Lemma queueSegments_last (p : Download.downloadParams) (f : Download.Snapshot)
    (si so ei eo e : Z) (idxs : list Z) :
  forall (maps : list (gmap string Download.downloadSectorInfo)) (w : Z),
    List.length maps = List.length (idxs ++ [e]) ->
    exists uds,
      last (Download.queueSegments p f si so ei eo (idxs ++ [e]) maps w) = Some uds /\
      Download.segmentIndex uds = e /\
      Download.fetchLength uds =
        (let fetchOffset := if e =? si then so else 0 in
         if (e =? ei) && negb (eo =? 0)
         then u64_sub eo fetchOffset
         else u64_sub (Download.SegmentSize f) fetchOffset).
Proof.
  induction idxs as [|i rest IH]; intros maps w Hlen.
  - destruct maps as [|m [|m' maps]]; cbn in Hlen; try lia.
    cbn. eexists. split; [reflexivity|]. split; reflexivity.
  - destruct maps as [|m maps]; cbn in Hlen; [lia|].
    cbn [app Download.queueSegments].
    edestruct (IH maps) as [uds [Hlast Hrest]]; [cbn; lia|].
    exists uds. split; [|exact Hrest].
    rewrite last_cons, Hlast. reflexivity.
Qed.

(** [newDownload] does not panic on a request that lies within 64 bits, over
    a file with segments of positive size. *)
Lemma newDownload_returns (p : Download.downloadParams) (f : Download.Snapshot) :
  Download.file p = Some f ->
  0 < Download.SegmentSize f ->
  0 <= Download.offset p ->
  0 <= Download.length p ->
  Download.offset p + Download.length p < two64 ->
  exists r, Download.newDownload p = Some r.
Proof.
  intros Hf Hs Ho Hl Hsum. unfold Download.newDownload. rewrite Hf.
  unfold u64_add. rewrite wrap_u64_small by lia.
  destruct (_ <? _); [eauto|].
  destruct (Download.length p =? 0); [eauto|].
  unfold Download.SegmentIndexByOffset.
  destruct (Z.eqb_spec (Download.SegmentSize f) 0) as [E|_]; [lia|].
  set (S := Download.SegmentSize f) in *.
  assert (Hdiv : Download.offset p / S <= (Download.offset p + Download.length p) / S)
    by (apply Z.div_le_mono; lia).
  match goal with
  | |- context [if ?c then None else _] => destruct c eqn:Hc
  end.
  - exfalso. apply Z.ltb_lt in Hc.
    destruct (_ && _) in Hc; lia.
  - destruct (Download.buildSegmentMaps _ _); eauto.
Qed.

(** A repair download of a segment of positive length, within 64 bits, of a
    file with segments of positive size, calls [newDownload] and returns. *)
Lemma managedDownload_returns (sc : Upload.StorageClient)
    (uc : Upload.unfinishedUploadSegment) :
  0 < Upload.length uc ->
  0 < Download.SegmentSize (Upload.Snapshot (Upload.fileEntry uc)) ->
  0 <= Upload.offset uc ->
  Upload.offset uc + Upload.length uc < two64 ->
  exists r s len,
    Upload.downloadLength uc = Some len /\
    Upload.managedDownloadLogicalSegmentData sc uc
      = Some (r, s, [Upload.NewDownload (Upload.repairDownloadParams uc len)]).
Proof.
  intros Hlen Hs Hoff Hsum.
  assert (Hdl : exists len, Upload.downloadLength uc = Some len /\
                            0 <= len <= Upload.length uc).
  { unfold Upload.downloadLength.
    pose proof (Z.mod_pos_bound (Upload.FileSize (Upload.fileEntry uc))
                  (Upload.length uc) Hlen).
    destruct (_ =? _); [|eexists; split; [reflexivity|lia]].
    rewrite (proj2 (Z.eqb_neq (Upload.length uc) 0)) by lia.
    destruct (negb _); eexists; (split; [reflexivity|lia]). }
  destruct Hdl as (len & Hdl & Hrange).
  unfold Upload.managedDownloadLogicalSegmentData. rewrite Hdl.
  destruct (newDownload_returns (Upload.repairDownloadParams uc len)
              (Upload.Snapshot (Upload.fileEntry uc))) as [r Hr];
    try (cbn; rewrite ?wrap_u64_small; unfold two64 in *; lia); [reflexivity|].
  rewrite Hr. destruct r as [[d segs]|e].
  - destruct (Upload.waitDownload sc _); eexists _, _, _; split; reflexivity.
  - eexists _, _, _; split; reflexivity.
Qed.

(** C7: when the size of a file is not a multiple of the segment size, the
    last segment queued by a download of the whole file has
    [fetchLength = FileSize mod SegmentSize]; and a repair download of the
    last segment of a file whose size is not a multiple of the segment's
    length asks for [FileSize mod length] bytes. *)
Theorem last_segment_fetchLength
    (f : Download.Snapshot) (p : Download.downloadParams)
    (sc : Upload.StorageClient) (uc : Upload.unfinishedUploadSegment) :
  Download.file p = Some f ->
  Download.offset p = 0 ->
  Download.length p = Download.FileSize f ->
  0 < Download.SegmentSize f ->
  0 <= Download.FileSize f < two64 ->
  Download.FileSize f mod Download.SegmentSize f <> 0 ->
  (forall i, exists s, Download.Sectors f i = Ok s) ->
  Upload.index uc = wrap_u64 (int_sub (Upload.NumSegments (Upload.fileEntry uc)) 1) ->
  0 < Upload.length uc ->
  Upload.FileSize (Upload.fileEntry uc) mod Upload.length uc <> 0 ->
  0 < Download.SegmentSize (Upload.Snapshot (Upload.fileEntry uc)) ->
  0 <= Upload.offset uc ->
  Upload.offset uc + Upload.length uc < two64 ->
  (exists d segs lastSegment,
     Download.newDownload p = Some (Ok (d, segs)) /\
     last segs = Some lastSegment /\
     Download.segmentIndex lastSegment = Download.FileSize f / Download.SegmentSize f /\
     Download.fetchLength lastSegment = Download.FileSize f mod Download.SegmentSize f) /\
  (exists r s request,
     Upload.managedDownloadLogicalSegmentData sc uc = Some (r, s, [Upload.NewDownload request]) /\
     Download.length request =
       Upload.FileSize (Upload.fileEntry uc) mod Upload.length uc).
Proof.
  intros Hf Ho Hl Hs Hsize Hrem Hsec Hidx Hlen Hrem' Hs' Hoff Hsum.
  split.
  - unfold Download.newDownload. rewrite Hf, Ho, Hl.
    unfold u64_add. rewrite Z.add_0_l, wrap_u64_small by lia.
    rewrite (proj2 (Z.ltb_ge _ _)) by lia.
    set (S := Download.SegmentSize f) in *.
    set (size := Download.FileSize f) in *.
    assert (Hnz : size <> 0) by (intros E; rewrite E, Z.mod_0_l in Hrem; lia).
    rewrite (proj2 (Z.eqb_neq _ _)) by lia.
    unfold Download.SegmentIndexByOffset. fold S.
    rewrite (proj2 (Z.eqb_neq S 0)) by lia.
    rewrite Z.div_0_l, Z.mod_0_l by lia.
    rewrite (proj2 (Z.eqb_neq (size mod S) 0)) by lia.
    rewrite andb_false_r.
    assert (Hq : 0 <= size / S) by (apply Z.div_pos; lia).
    rewrite (proj2 (Z.ltb_ge _ _)) by lia.
    destruct (buildSegmentMaps_ok f (Download.segmentRange 0 (size / S)) Hsec)
      as [maps [-> Hmaps]].
    rewrite segmentRange_snoc in * by lia.
    edestruct (queueSegments_last p f 0 0 (size / S) (size mod S) (size / S)
                 (Download.segmentRange 0 (size / S - 1)) maps 0 Hmaps)
      as [uds [Hlast [Hi Hfl]]].
    eexists _, _, uds. split; [reflexivity|]. split; [exact Hlast|]. split; [exact Hi|].
    rewrite Hfl. cbv zeta. rewrite Z.eqb_refl.
    rewrite (proj2 (Z.eqb_neq (size mod S) 0)) by lia. cbn [negb andb].
    assert (0 <= size mod S < S) by (apply Z.mod_pos_bound; lia).
    assert (size mod S <= size) by (apply Z.mod_le; lia).
    destruct (size / S =? 0); unfold u64_sub; rewrite Z.sub_0_r;
      apply wrap_u64_small; lia.
  - unfold Upload.managedDownloadLogicalSegmentData, Upload.downloadLength.
    rewrite Hidx, Z.eqb_refl.
    rewrite (proj2 (Z.eqb_neq (Upload.length uc) 0)) by lia.
    rewrite (proj2 (Z.eqb_neq (_ mod _) 0)) by exact Hrem'. cbn [negb].
    set (n := Upload.FileSize (Upload.fileEntry uc) mod Upload.length uc).
    assert (Hn : 0 <= n < Upload.length uc) by (apply Z.mod_pos_bound; lia).
    destruct (newDownload_returns (Upload.repairDownloadParams uc n)
                (Upload.Snapshot (Upload.fileEntry uc))) as [r Hr];
      try (cbn; rewrite ?wrap_u64_small; unfold two64 in *; lia); [reflexivity|].
    rewrite Hr. destruct r as [[d segs]|e].
    + destruct (Upload.waitDownload sc _); eexists _, _, _; split; reflexivity.
    + eexists _, _, _; split; reflexivity.
Qed.

Lemma last_segment_fetchLength_witness :
  (exists d segs lastSegment,
     Download.newDownload (wholeFile sampleSnapshot) = Some (Ok (d, segs)) /\
     last segs = Some lastSegment /\
     Download.segmentIndex lastSegment = 2 /\
     Download.fetchLength lastSegment = 2) /\
  (exists r s request,
     Upload.managedDownloadLogicalSegmentData sampleClient (sampleSegment "" 1 0)
       = Some (r, s, [Upload.NewDownload request]) /\
     Download.length request = 2).
Proof.
  apply (last_segment_fetchLength sampleSnapshot (wholeFile sampleSnapshot)
           sampleClient (sampleSegment "" 1 0));
    try reflexivity; try (cbn; unfold two64; lia); try (cbn; discriminate).
  intros i. eexists. reflexivity.
Defined.

(** ** binary64 arithmetic on small integers is exact *)

Lemma digits_small (m : Z) : Z.abs m < 2 ^ 53 -> (digits m <=? prec) = true.
Proof.
  intros H. unfold digits, prec. apply Z.leb_le.
  destruct (Z.eqb_spec m 0) as [_|Hm]; [lia|].
  assert (Z.log2 (Z.abs m) < 53) by (apply Z.log2_lt_pow2; lia). lia.
Qed.

Lemma round_exact (m e : Z) : Z.abs m < 2 ^ 53 -> round m e = mkF m e.
Proof. intros H. unfold round. now rewrite digits_small. Qed.

Lemma of_int_exact (n : Z) : Z.abs n < 2 ^ 53 -> of_int n = mkF n 0.
Proof. apply round_exact. Qed.

Section Threshold.

(** A threshold [t / 2^k] between 0 and 1: [t] is its significand and [-k]
    its exponent. *)
Variable thr : float64.
Hypothesis exponent_range : Fexp thr <= 0.
Hypothesis significand_range : 0 <= Fnum thr <= 2 ^ (- Fexp thr).

Lemma pow_k_pos : 0 < 2 ^ (- Fexp thr).
Proof. apply Z.pow_pos_nonneg; lia. Qed.

Lemma one_minus_threshold :
  2 ^ (- Fexp thr) < 2 ^ 53 ->
  fsub one thr = mkF (2 ^ (- Fexp thr) - Fnum thr) (Fexp thr).
Proof.
  intros Hk. pose proof pow_k_pos as Hp. unfold fsub, align, one. cbn [Fnum Fexp].
  rewrite Z.min_r by lia.
  replace (0 - Fexp thr) with (- Fexp thr) by lia.
  rewrite Z.sub_diag, Z.mul_1_l. change (2 ^ 0) with 1. rewrite Z.mul_1_r.
  apply round_exact. lia.
Qed.

(** The test for a successful repair is the exact comparison. *)
Lemma repair_test_exact (needed completed : Z) :
  2 ^ (- Fexp thr) * (1 + Z.abs needed) < 2 ^ 53 ->
  Z.abs completed < 2 ^ 53 ->
  fle (fmul (fsub one thr) (of_int needed)) (of_int completed) = true <->
  (2 ^ (- Fexp thr) - Fnum thr) * needed <= 2 ^ (- Fexp thr) * completed.
Proof.
  intros Hn Hc. pose proof pow_k_pos as Hp.
  set (k := - Fexp thr) in *. set (t := Fnum thr) in *.
  rewrite one_minus_threshold by (fold k; nia). fold k t.
  rewrite !of_int_exact by nia.
  unfold fmul. cbn [Fnum Fexp]. rewrite round_exact by nia.
  unfold fle, align. cbn [Fnum Fexp]. rewrite Z.add_0_r, Z.min_l by lia.
  rewrite Z.sub_diag. change (2 ^ 0) with 1. rewrite Z.mul_1_r.
  replace (0 - Fexp thr) with k by (unfold k; lia).
  rewrite Z.leb_le. lia.
Qed.

(** The same comparison, read over the rationals. *)
Lemma repair_test_rational (needed completed : Z) :
  (2 ^ (- Fexp thr) - Fnum thr) * needed <= 2 ^ (- Fexp thr) * completed <->
  ((1 - value thr) * inject_Z needed <= inject_Z completed)%Q.
Proof.
  pose proof pow_k_pos as Hp.
  unfold Qle, value, Qminus, Qplus, Qopp, Qmult, inject_Z. cbn [Qnum Qden].
  rewrite !Pos.mul_1_l, !Pos.mul_1_r, !Z.mul_1_l, !Z.mul_1_r.
  rewrite Z2Pos.id by lia. lia.
Qed.

(** The number of missing pieces that warrants a download. *)
Lemma missing_pieces_exact (parity : Z) :
  2 ^ (- Fexp thr) * (1 + Z.abs parity) < 2 ^ 53 ->
  to_int (fmul (of_int parity) thr) = Z.quot (parity * Fnum thr) (2 ^ (- Fexp thr)).
Proof.
  intros Hn. pose proof pow_k_pos as Hp.
  set (k := - Fexp thr) in *. set (t := Fnum thr) in *.
  rewrite of_int_exact by nia.
  unfold fmul. cbn [Fnum Fexp]. fold t.
  assert (Hb : Z.abs (parity * t) < 2 ^ 53) by nia.
  rewrite round_exact by exact Hb.
  unfold to_int. cbn [Fnum Fexp]. rewrite Z.add_0_l.
  assert (Hq : Z.abs (Z.quot (parity * t) (2 ^ k)) <= Z.abs (parity * t)).
  { rewrite <- (Z.abs_eq (2 ^ k)) at 1 by lia. rewrite <- Z.quot_abs by lia.
    apply Z.quot_le_upper_bound; try lia. nia. }
  destruct (Z.leb_spec 0 (Fexp thr)) as [H0|H0].
  - assert (E : Fexp thr = 0) by lia.
    unfold k. rewrite E. cbn. rewrite Z.mul_1_r, Z.quot_1_r.
    apply wrap_int_small. lia.
  - fold k. apply wrap_int_small. lia.
Qed.

End Threshold.

(** ** The stuck status after a repair *)

(** C2: when the client is online and not shutting down,
    [managedUpdateUploadSegmentStuckStatus] sets the stuck flag of the
    segment once, to false exactly when
    [piecesCompleted >= (1 - RemoteRepairDownloadThreshold) * piecesNeeded]
    and to true otherwise.  The threshold is a binary fraction between 0 and
    1 and the piece counts are small enough for their products to be exact
    in binary64. *)
Theorem stuck_flag_after_repair
    (sc : Upload.StorageClient) (uc : Upload.unfinishedUploadSegment) :
  let thr := Upload.RemoteRepairDownloadThreshold sc in
  Fexp thr <= 0 ->
  0 <= Fnum thr <= 2 ^ (- Fexp thr) ->
  2 ^ (- Fexp thr) * (1 + Z.abs (Upload.piecesNeeded uc)) < 2 ^ 53 ->
  Z.abs (Upload.piecesCompleted uc) < 2 ^ 53 ->
  Upload.stopped sc = false ->
  Upload.Online sc = true ->
  exists flag,
    Upload.stuckUpdates (Upload.managedUpdateUploadSegmentStuckStatus sc uc)
      = [(wrap_int (Upload.id_index (Upload.id uc)), flag)] /\
    (flag = false <->
     ((1 - value thr) * inject_Z (Upload.piecesNeeded uc)
      <= inject_Z (Upload.piecesCompleted uc))%Q) /\
    (flag = true <->
     ~ ((1 - value thr) * inject_Z (Upload.piecesNeeded uc)
        <= inject_Z (Upload.piecesCompleted uc))%Q).
Proof.
  intros thr Hk Ht Hn Hc Hstop Hon.
  exists (negb (Upload.successfulRepair sc uc)).
  assert (Htest : Upload.successfulRepair sc uc = true <->
                  ((1 - value thr) * inject_Z (Upload.piecesNeeded uc)
                   <= inject_Z (Upload.piecesCompleted uc))%Q).
  { unfold Upload.successfulRepair. fold thr.
    rewrite <- (repair_test_rational thr Hk).
    apply (repair_test_exact thr Hk Ht); assumption. }
  split.
  - unfold Upload.managedUpdateUploadSegmentStuckStatus.
    rewrite Hstop, Hon. cbn [negb]. rewrite andb_false_r.
    stuck_status_cases sc uc.
  - rewrite <- Htest. destruct (Upload.successfulRepair sc uc); cbn; intuition congruence.
Qed.

Lemma stuck_flag_after_repair_witness :
  exists flag,
    Upload.stuckUpdates
      (Upload.managedUpdateUploadSegmentStuckStatus sampleClient (sampleSegment "" 3 0))
      = [(2, flag)] /\
    (flag = false <->
     ((1 - value (mkF 1 (-2))) * inject_Z 4 <= inject_Z 3)%Q) /\
    (flag = true <->
     ~ ((1 - value (mkF 1 (-2))) * inject_Z 4 <= inject_Z 3)%Q).
Proof.
  apply (stuck_flag_after_repair sampleClient (sampleSegment "" 3 0));
    try reflexivity; cbn; lia.
Defined.

(** ** Fetching the logical data of a segment *)

(** The [download] flag is the exact comparison of the claim. *)
Lemma download_flag (sc : Upload.StorageClient) (uc : Upload.unfinishedUploadSegment) :
  let thr := Upload.RemoteRepairDownloadThreshold sc in
  let parity := Upload.piecesNeeded uc - Upload.minimumPieces uc in
  Fexp thr <= 0 ->
  0 <= Fnum thr <= 2 ^ (- Fexp thr) ->
  2 ^ (- Fexp thr) * (1 + Z.abs parity) < 2 ^ 53 ->
  - 2 ^ 62 <= Upload.piecesCompleted uc < 2 ^ 62 ->
  Upload.download sc uc = true <->
  Upload.piecesCompleted uc + Z.quot (parity * Fnum thr) (2 ^ (- Fexp thr))
    < Upload.piecesNeeded uc.
Proof.
  intros thr parity Hk Ht Hp Hc.
  assert (Hpos : 0 < 2 ^ (- Fexp thr)) by (apply Z.pow_pos_nonneg; lia).
  assert (Hpar : Z.abs parity < 2 ^ 53) by nia.
  unfold Upload.download. fold thr.
  unfold int_sub. rewrite wrap_int_small by (fold parity; lia). fold parity.
  rewrite (missing_pieces_exact thr Hk Ht parity Hp).
  assert (Hq : Z.abs (Z.quot (parity * Fnum thr) (2 ^ (- Fexp thr))) <= Z.abs parity).
  { transitivity (Z.abs (parity * Fnum thr) ÷ 2 ^ (- Fexp thr)).
    - rewrite <- (Z.abs_eq (2 ^ (- Fexp thr))) at 2 by lia.
      rewrite <- Z.quot_abs by lia. lia.
    - apply Z.quot_le_upper_bound; [lia|]. rewrite Z.abs_mul.
      rewrite (Z.abs_eq (Fnum thr)) by lia. nia. }
  unfold int_add. rewrite wrap_int_small by lia.
  apply Z.ltb_lt.
Qed.

(** Whatever [managedDownloadLogicalSegmentData] returns, it has called
    [newDownload] once and nothing else. *)
Lemma managedDownload_trace (sc : Upload.StorageClient)
    (uc s : Upload.unfinishedUploadSegment) (r : result unit) (tr : list Upload.event) :
  Upload.managedDownloadLogicalSegmentData sc uc = Some (r, s, tr) ->
  exists request, tr = [Upload.NewDownload request].
Proof.
  unfold Upload.managedDownloadLogicalSegmentData.
  destruct (Upload.downloadLength uc) as [len|]; [|discriminate].
  destruct (Download.newDownload _) as [[ok|e]|]; [| |discriminate].
  - destruct (Upload.waitDownload sc _); intros [= <- <- <-]; eauto.
  - intros [= <- <- <-]; eauto.
Qed.

(** C5, as stated, fails: the sample segment has a local path that cannot
    be opened and is missing enough pieces, and a repair download is
    issued. *)
Lemma download_with_local_path :
  Upload.LocalPath (Upload.fileEntry (sampleSegment "/tmp/f" 1 0)) <> "" /\
  exists r s request,
    Upload.managedFetchLogicalSegmentData sampleClient (sampleSegment "/tmp/f" 1 0)
      = Some (r, s, [Upload.NewDownload request]) /\
    Upload.downloadIssued [Upload.NewDownload request] = true.
Proof.
  split; [discriminate|].
  eexists _, _, _. split; [vm_compute; reflexivity|reflexivity].
Qed.

(** C5, amended: [managedFetchLogicalSegmentData] ends in a remote repair
    download exactly when
    [piecesCompleted + int(RemoteRepairDownloadThreshold * (piecesNeeded - minimumPieces)) < piecesNeeded]
    and the file has no local path, or cannot be opened, or cannot be read;
    whenever the function returns, its trace has a call of [newDownload]
    in exactly that case, and it does return for a segment of positive
    length within 64 bits; and when the file has no local path and the
    comparison fails, it returns an error and has not downloaded.  The
    threshold is a binary fraction between 0 and 1 and the piece counts are
    small enough for the product to be exact in binary64. *)
Theorem fetch_download_decision
    (sc : Upload.StorageClient) (uc : Upload.unfinishedUploadSegment) :
  let thr := Upload.RemoteRepairDownloadThreshold sc in
  let parity := Upload.piecesNeeded uc - Upload.minimumPieces uc in
  let path := Upload.LocalPath (Upload.fileEntry uc) in
  let missing :=
    Upload.piecesCompleted uc + Z.quot (parity * Fnum thr) (2 ^ (- Fexp thr))
      < Upload.piecesNeeded uc in
  Fexp thr <= 0 ->
  0 <= Fnum thr <= 2 ^ (- Fexp thr) ->
  2 ^ (- Fexp thr) * (1 + Z.abs parity) < 2 ^ 53 ->
  - 2 ^ 62 <= Upload.piecesCompleted uc < 2 ^ 62 ->
  (Upload.isDownload (Upload.fetchLogicalSegmentData_return sc uc) = true <->
   missing /\
   (path = "" \/ Upload.osOpen sc path = false \/
    snd (Upload.readFrom sc path (Upload.offset uc) (wrap_int (Upload.length uc)))
      = Upload.ReadFailed)) /\
  (forall r s tr,
     Upload.managedFetchLogicalSegmentData sc uc = Some (r, s, tr) ->
     Upload.downloadIssued tr
       = Upload.isDownload (Upload.fetchLogicalSegmentData_return sc uc)) /\
  (0 < Upload.length uc ->
   0 < Download.SegmentSize (Upload.Snapshot (Upload.fileEntry uc)) ->
   0 <= Upload.offset uc ->
   Upload.offset uc + Upload.length uc < two64 ->
   exists r s tr, Upload.managedFetchLogicalSegmentData sc uc = Some (r, s, tr)) /\
  (path = "" -> ~ missing ->
   Upload.managedFetchLogicalSegmentData sc uc
     = Some (Err "file not available locally", uc, [])).
Proof.
  intros thr parity path missing Hk Ht Hp Hc.
  pose proof (download_flag sc uc Hk Ht Hp Hc) as Hflag. fold thr parity in Hflag.
  fold missing in Hflag.
  split; [|split; [|split]].
  - unfold Upload.fetchLogicalSegmentData_return. fold path.
    destruct (String.eqb_spec path "") as [E|E].
    + destruct (Upload.download sc uc); cbn; intuition congruence.
    + cbn [andb]. destruct (Upload.osOpen sc path) eqn:Hopen; cbn [negb andb].
      * destruct (Upload.readFrom sc path _ _) as [buf err]. cbn [snd].
        destruct err; destruct (Upload.download sc uc); cbn;
          intuition congruence.
      * destruct (Upload.download sc uc); cbn; intuition congruence.
  - intros r s tr. unfold Upload.managedFetchLogicalSegmentData.
    destruct (Upload.fetchLogicalSegmentData_return sc uc) as [log|msg log|buf] eqn:Hret.
    + destruct (Upload.managedDownloadLogicalSegmentData sc uc)
        as [[[r' s'] tr']|] eqn:Hd; [|discriminate].
      destruct (managedDownload_trace _ _ _ _ _ Hd) as [request ->].
      intros [= <- <- <-]. unfold Upload.downloadIssued.
      rewrite existsb_app. cbn. apply orb_true_r.
    + intros [= <- <- <-]. revert Hret.
      fetch_return_cases; intros [= <- <-] || discriminate; reflexivity.
    + intros [= <- <- <-]. reflexivity.
  - intros Hlen Hseg Hoff Hsum. unfold Upload.managedFetchLogicalSegmentData.
    destruct (Upload.fetchLogicalSegmentData_return sc uc) as [log|m log|buf];
      [|eauto..].
    destruct (managedDownload_returns sc uc Hlen Hseg Hoff Hsum)
      as (r & s & len & _ & ->). eauto.
  - intros Hpath Hmiss. unfold Upload.managedFetchLogicalSegmentData,
      Upload.fetchLogicalSegmentData_return. fold path. rewrite Hpath. cbn [String.eqb andb].
    destruct (Upload.download sc uc); [tauto|reflexivity].
Qed.

Lemma fetch_download_decision_witness :
  let uc := sampleSegment "/tmp/f" 1 0 in
  (Upload.isDownload (Upload.fetchLogicalSegmentData_return sampleClient uc) = true <->
   1 + Z.quot ((4 - 2) * 1) (2 ^ 2) < 4 /\
   ("/tmp/f"%string = ""%string \/ Upload.osOpen sampleClient "/tmp/f" = false \/
    snd (Upload.readFrom sampleClient "/tmp/f" 8 (wrap_int 4)) = Upload.ReadFailed)) /\
  (forall r s tr,
     Upload.managedFetchLogicalSegmentData sampleClient uc = Some (r, s, tr) ->
     Upload.downloadIssued tr
       = Upload.isDownload (Upload.fetchLogicalSegmentData_return sampleClient uc)) /\
  (0 < 4 -> 0 < 4 -> 0 <= 8 -> 8 + 4 < two64 ->
   exists r s tr, Upload.managedFetchLogicalSegmentData sampleClient uc = Some (r, s, tr)) /\
  ("/tmp/f"%string = ""%string -> ~ 1 + Z.quot ((4 - 2) * 1) (2 ^ 2) < 4 ->
   Upload.managedFetchLogicalSegmentData sampleClient uc
     = Some (Err "file not available locally", uc, [])).
Proof.
  apply (fetch_download_decision sampleClient (sampleSegment "/tmp/f" 1 0)); cbn; lia.
Defined.

(** ** Cleaning up a segment *)

Lemma cleanLoop_app (ss W : Z) (l1 l2 : list nat) (s : Upload.cleanScan) :
  Upload.cleanLoop ss W (l1 ++ l2) s =
  match Upload.cleanLoop ss W l1 s with
  | None => None
  | Some s' => Upload.cleanLoop ss W l2 s'
  end.
Proof.
  revert s. induction l1 as [|i l1 IH]; intros s; cbn; [reflexivity|].
  destruct (Upload.cleanStep ss W i s); [apply IH|reflexivity].
Qed.

Lemma unusedBefore_S (usage : list bool) (k : nat) (b : bool) :
  usage !! k = Some b ->
  Upload.unusedBefore usage (S k) = Upload.unusedBefore usage k + (if b then 0 else 1).
Proof.
  intros Hk. unfold Upload.unusedBefore. rewrite (take_S_r _ _ _ Hk).
  rewrite List.filter_app, length_app. destruct b; cbn; lia.
Qed.

Lemma unusedBefore_bounds (usage : list bool) (k : nat) :
  0 <= Upload.unusedBefore usage k <= Z.of_nat k.
Proof.
  unfold Upload.unusedBefore.
  pose proof (filter_length_le negb (take k usage)) as H.
  rewrite length_take in H. lia.
Qed.

Lemma combine_snoc {A B : Type} (a : list A) (b : list B) (x : A) (y : B) :
  List.length a = List.length b ->
  combine (a ++ [x]) (b ++ [y]) = combine a b ++ [(x, y)].
Proof.
  revert b. induction a as [|a0 a IH]; intros [|b0 b] Hlen; cbn in *; try lia.
  - reflexivity.
  - rewrite IH by lia. reflexivity.
Qed.

Lemma slotsReleased_snoc (a b : list bool) (x y : bool) :
  List.length a = List.length b ->
  Upload.slotsReleased (a ++ [x]) (b ++ [y]) =
  Upload.slotsReleased a b + (if negb x && y then 1 else 0).
Proof.
  intros Hlen. unfold Upload.slotsReleased.
  rewrite combine_snoc by exact Hlen.
  rewrite List.filter_app, length_app. cbn. destruct (negb x && y); cbn; lia.
Qed.

Lemma slotsReleased_bounds (a b : list bool) :
  0 <= Upload.slotsReleased a b <= Z.of_nat (List.length a).
Proof.
  unfold Upload.slotsReleased.
  pose proof (filter_length_le (fun '(b0, a0) => negb b0 && a0) (combine a b)) as H.
  rewrite length_combine in H. lia.
Qed.

Section CleanScan.

Variables (ss W : Z) (usage0 : list bool) (data0 : list (option Upload.bytes)).
Hypothesis data_long : (List.length usage0 <= List.length data0)%nat.
Hypothesis ss_nonneg : 0 <= ss.
Hypothesis ss_bound : ss * Z.of_nat (List.length usage0) < two64.
Hypothesis len_bound : Z.of_nat (List.length usage0) < 2 ^ 63.

Lemma scanInvariant_start :
  Upload.scanInvariant ss W usage0 data0 0
    (Upload.mkScan usage0 data0 0 0).
Proof.
  unfold Upload.scanInvariant. cbn [Upload.scanUsage Upload.scanData
    Upload.piecesAvailable Upload.scanReleased].
  repeat split; try reflexivity; try lia.
  - unfold Upload.availableBefore, Upload.unusedBefore.
    change (take 0 usage0) with (@nil bool).
    cbn [List.filter List.length Z.of_nat]. lia.
  - unfold Upload.slotsReleased.
    change (take 0 usage0) with (@nil bool).
    cbn [combine List.filter List.length Z.of_nat]. lia.
Qed.

Lemma cleanStep_invariant (k : nat) (s : Upload.cleanScan) :
  (k < List.length usage0)%nat ->
  Upload.scanInvariant ss W usage0 data0 k s ->
  exists s', Upload.cleanStep ss W k s = Some s' /\
             Upload.scanInvariant ss W usage0 data0 (S k) s'.
Proof.
  intros Hk (Hlu & Hld & Hrest & Hdone & Hav & Hrel).
  destruct (lookup_lt_is_Some_2 usage0 k Hk) as [b Hb].
  assert (Hsk : Upload.scanUsage s !! k = Some b)
    by (rewrite (proj1 (Hrest k (le_n k))); exact Hb).
  assert (Htk : List.length (take k usage0) = List.length (take k (Upload.scanUsage s)))
    by (rewrite !length_take; lia).
  pose proof (unusedBefore_bounds usage0 k) as Hub.
  pose proof (unusedBefore_S usage0 k b Hb) as HuS.
  pose proof (slotsReleased_bounds (take k usage0) (take k (Upload.scanUsage s))) as Hsb.
  rewrite length_take in Hsb.
  unfold Upload.cleanStep. rewrite Hsk. destruct b.
  - (* the piece is in use *)
    exists s. split; [reflexivity|]. repeat split; try assumption.
    + apply Hrest; lia.
    + apply Hrest; lia.
    + intros j Hj. destruct (decide (j = k)) as [->|Hne]; [|apply Hdone; lia].
      unfold Upload.settled. rewrite Hb. split; [exact Hsk|apply Hrest; lia].
    + rewrite Hav. unfold Upload.availableBefore. lia.
    + rewrite Hrel, (take_S_r _ _ _ Hb), (take_S_r _ _ _ Hsk).
      rewrite slotsReleased_snoc by exact Htk. cbn. lia.
  - destruct (Z.leb_spec W (Upload.piecesAvailable s)) as [Hw|Hw].
    + (* enough pieces are available: the slot is released *)
      assert (Hkd : (k <? List.length (Upload.scanData s))%nat = true)
        by (apply Nat.ltb_lt; lia).
      rewrite Hkd. eexists. split; [reflexivity|].
      unfold Upload.scanInvariant. cbn [Upload.scanUsage Upload.scanData
        Upload.piecesAvailable Upload.scanReleased].
      rewrite !length_insert. repeat split; try assumption.
      * rewrite list_lookup_insert_ne by lia. apply Hrest; lia.
      * rewrite list_lookup_insert_ne by lia. apply Hrest; lia.
      * intros j Hj. unfold Upload.settled.
        destruct (decide (j = k)) as [->|Hne].
        -- rewrite Hb. rewrite <- Hav, (proj2 (Z.leb_le _ _)) by exact Hw.
           rewrite !list_lookup_insert_eq by lia. split; reflexivity.
        -- rewrite !list_lookup_insert_ne by lia. apply Hdone. lia.
      * rewrite Hav in *. unfold Upload.availableBefore in *. lia.
      * rewrite take_insert_lt by lia.
        assert (Hins : <[k:=true]> (take (S k) (Upload.scanUsage s))
                       = take k (Upload.scanUsage s) ++ [true]).
        { rewrite (take_S_r _ _ _ Hsk).
          replace k with (List.length (take k (Upload.scanUsage s)) + 0)%nat at 1
            by (rewrite length_take; lia).
          rewrite insert_app_r. reflexivity. }
        rewrite Hins, (take_S_r _ _ _ Hb).
        rewrite slotsReleased_snoc by exact Htk. cbn [negb andb].
        rewrite Hrel. unfold u64_add. rewrite wrap_u64_small; [lia|].
        split; [nia|]. nia.
    + (* the piece is left for a worker *)
      eexists. split; [reflexivity|].
      unfold Upload.scanInvariant. cbn [Upload.scanUsage Upload.scanData
        Upload.piecesAvailable Upload.scanReleased].
      repeat split; try assumption.
      * apply Hrest; lia.
      * apply Hrest; lia.
      * intros j Hj. destruct (decide (j = k)) as [->|Hne]; [|apply Hdone; lia].
        unfold Upload.settled. rewrite Hb, <- Hav.
        rewrite (proj2 (Z.leb_gt _ _)) by exact Hw.
        split; [exact Hsk|apply Hrest; lia].
      * unfold int_add. rewrite Hav in *. unfold Upload.availableBefore in *.
        rewrite wrap_int_small by lia. lia.
      * rewrite Hrel, (take_S_r _ _ _ Hb), (take_S_r _ _ _ Hsk).
        rewrite slotsReleased_snoc by exact Htk. cbn. lia.
Qed.

Lemma cleanLoop_invariant (k : nat) :
  (k <= List.length usage0)%nat ->
  exists s,
    Upload.cleanLoop ss W (seq 0 k) (Upload.mkScan usage0 data0 0 0) = Some s /\
    Upload.scanInvariant ss W usage0 data0 k s.
Proof.
  induction k as [|k IH]; intros Hk.
  - eexists. split; [reflexivity|]. apply scanInvariant_start.
  - destruct IH as [s [Hloop Hinv]]; [lia|].
    destruct (cleanStep_invariant k s) as [s' [Hstep Hinv']]; [lia|exact Hinv|].
    exists s'. split; [|exact Hinv'].
    rewrite seq_S, cleanLoop_app, Hloop. cbn. now rewrite Hstep.
Qed.

End CleanScan.

Lemma memoryReturned_app (tr1 tr2 : list Upload.event) :
  Upload.memoryReturned (tr1 ++ tr2) = Upload.memoryReturned tr1 + Upload.memoryReturned tr2.
Proof.
  unfold Upload.memoryReturned.
  induction tr1 as [|e tr1 IH]; cbn [fold_right app]; [reflexivity|].
  destruct e; rewrite ?IH; lia.
Qed.

Lemma memoryReturned_queue (workers : list nat) :
  Upload.memoryReturned (map Upload.QueueUploadSegment workers) = 0.
Proof. induction workers as [|w ws IH]; cbn; [reflexivity|exact IH]. Qed.

Lemma memoryReturned_stuck_status (sc : Upload.StorageClient)
    (uc : Upload.unfinishedUploadSegment) :
  Upload.memoryReturned (Upload.managedUpdateUploadSegmentStuckStatus sc uc) = 0.
Proof.
  unfold Upload.managedUpdateUploadSegmentStuckStatus.
  destruct (_ && _); [reflexivity|].
  stuck_status_cases sc uc.
Qed.

(** What [managedCleanUpUploadSegment] makes of the outcome of its scan. *)
Lemma cleanup_after_scan (sc : Upload.StorageClient) (repairing : gset (Z * Z))
    (uc : Upload.unfinishedUploadSegment) (s : Upload.cleanScan) :
  Upload.cleanLoop (Upload.storageSectorSize sc) (Upload.workersRemaining uc)
    (seq 0 (List.length (Upload.pieceUsage uc)))
    (Upload.mkScan (Upload.pieceUsage uc) (Upload.physicalSegmentData uc) 0 0) = Some s ->
  exists repairing' uc' tr,
    Upload.managedCleanUpUploadSegment sc repairing uc = Some (repairing', uc', tr) /\
    Upload.pieceUsage uc' = Upload.scanUsage s /\
    Upload.physicalSegmentData uc' = Upload.scanData s /\
    Upload.memoryReleased uc' = u64_add (Upload.memoryReleased uc) (Upload.scanReleased s) /\
    Upload.workersStandby uc' =
      (if 0 <? Upload.piecesAvailable s then [] else Upload.workersStandby uc) /\
    Upload.memoryReturned tr =
      (if 0 <? Upload.scanReleased s then Upload.scanReleased s else 0).
Proof.
  intros Hloop. unfold Upload.managedCleanUpUploadSegment. rewrite Hloop.
  set (uc1 := Upload.set_physicalSegmentData _ _).
  destruct (0 <? Upload.piecesAvailable s);
    destruct (Upload.SegmentComplete uc1 && negb (Upload.released uc1));
    cbn [Upload.managedNotifyStandbyWorkers];
    (eexists _, _, _; split; [reflexivity|]);
    (repeat split; try reflexivity);
    rewrite !memoryReturned_app, ?memoryReturned_queue, ?memoryReturned_stuck_status;
    destruct (0 <? Upload.scanReleased s); cbn;
    repeat match goal with
           | |- context [if ?a then _ else _] => destruct a
           end; cbn; lia.
Qed.

(** C3: [managedCleanUpUploadSegment] scans the pieces in increasing order.
    A piece in use is left as it is.  For a piece [i] not in use: if the
    number of available pieces counted so far is at least
    [workersRemaining], [physicalSegmentData[i]] becomes nil and
    [pieceUsage[i]] true; otherwise the piece stays as it is and is counted
    as available.  The memory given back to the memory manager, which is
    also added to [memoryReleased], is the sector size times the number of
    slots released in this pass.  The slice of physical data is at least as
    long as [pieceUsage], and the sector size times the number of pieces
    fits in 64 bits. *)
Theorem cleanup_releases_slots
    (sc : Upload.StorageClient) (repairing : gset (Z * Z))
    (uc : Upload.unfinishedUploadSegment) :
  let usage := Upload.pieceUsage uc in
  let data := Upload.physicalSegmentData uc in
  let W := Upload.workersRemaining uc in
  let ss := Upload.storageSectorSize sc in
  (List.length usage <= List.length data)%nat ->
  0 <= ss ->
  ss * Z.of_nat (List.length usage) < two64 ->
  Z.of_nat (List.length usage) < 2 ^ 63 ->
  exists repairing' uc' tr,
    Upload.managedCleanUpUploadSegment sc repairing uc = Some (repairing', uc', tr) /\
    List.length (Upload.pieceUsage uc') = List.length usage /\
    (forall i, usage !! i = Some true ->
       Upload.pieceUsage uc' !! i = Some true /\
       Upload.physicalSegmentData uc' !! i = data !! i) /\
    (forall i, usage !! i = Some false ->
       W <= Upload.availableBefore W usage i ->
       Upload.pieceUsage uc' !! i = Some true /\
       Upload.physicalSegmentData uc' !! i = Some None /\
       Upload.availableBefore W usage (S i) = Upload.availableBefore W usage i) /\
    (forall i, usage !! i = Some false ->
       Upload.availableBefore W usage i < W ->
       Upload.pieceUsage uc' !! i = Some false /\
       Upload.physicalSegmentData uc' !! i = data !! i /\
       Upload.availableBefore W usage (S i) = Upload.availableBefore W usage i + 1) /\
    Upload.workersStandby uc' =
      (if 0 <? Upload.availableBefore W usage (List.length usage)
       then [] else Upload.workersStandby uc) /\
    Upload.memoryReturned tr = ss * Upload.slotsReleased usage (Upload.pieceUsage uc') /\
    Upload.memoryReleased uc' =
      wrap_u64 (Upload.memoryReleased uc
                + ss * Upload.slotsReleased usage (Upload.pieceUsage uc')).
Proof.
  intros usage data W ss Hlen Hss Hbound Hlenb.
  destruct (cleanLoop_invariant ss W usage data Hlen Hss Hbound Hlenb
              (List.length usage) (le_n _))
    as [s [Hloop (Hlu & Hld & _ & Hdone & Hav & Hrel)]].
  rewrite (take_ge usage), (take_ge (Upload.scanUsage s)) in Hrel by lia.
  pose proof (slotsReleased_bounds usage (Upload.scanUsage s)) as Hsb.
  destruct (cleanup_after_scan sc repairing uc s Hloop)
    as (repairing' & uc' & tr & Hrun & Hu & Hd & Hm & Hs & Hret).
  assert (Hsettled : forall i, Upload.settled W usage data (Upload.scanUsage s)
                                 (Upload.scanData s) i).
  { intros i. destruct (le_lt_dec (List.length usage) i) as [Hi|Hi].
    - unfold Upload.settled. now rewrite (lookup_ge_None_2 usage i Hi).
    - apply Hdone. exact Hi. }
  exists repairing', uc', tr. rewrite Hu, Hd, Hm, Hs, Hret.
  split; [exact Hrun|]. split; [exact Hlu|].
  split; [|split; [|split; [|split; [|split]]]].
  - intros i Hi. specialize (Hsettled i). unfold Upload.settled in Hsettled.
    now rewrite Hi in Hsettled.
  - intros i Hi Hw. specialize (Hsettled i). unfold Upload.settled in Hsettled.
    rewrite Hi, (proj2 (Z.leb_le _ _)) in Hsettled by exact Hw.
    destruct Hsettled as [H1 H2]. repeat split; try assumption.
    unfold Upload.availableBefore in *. rewrite (unusedBefore_S usage i false Hi).
    pose proof (unusedBefore_bounds usage i). lia.
  - intros i Hi Hw. specialize (Hsettled i). unfold Upload.settled in Hsettled.
    rewrite Hi, (proj2 (Z.leb_gt _ _)) in Hsettled by exact Hw.
    destruct Hsettled as [H1 H2]. repeat split; try assumption.
    unfold Upload.availableBefore in *. rewrite (unusedBefore_S usage i false Hi).
    pose proof (unusedBefore_bounds usage i). lia.
  - now rewrite Hav.
  - rewrite Hrel. destruct (Z.ltb_spec 0 (ss * Upload.slotsReleased usage (Upload.scanUsage s))); nia.
  - unfold u64_add. now rewrite Hrel.
Qed.

Lemma cleanup_releases_slots_witness :
  let uc := sampleSegment "" 1 1 in
  let usage := [true; false; false; false] in
  let data := Upload.physicalSegmentData uc in
  exists repairing' uc' tr,
    Upload.managedCleanUpUploadSegment sampleClient ∅ uc = Some (repairing', uc', tr) /\
    List.length (Upload.pieceUsage uc') = 4%nat /\
    (forall i, usage !! i = Some true ->
       Upload.pieceUsage uc' !! i = Some true /\
       Upload.physicalSegmentData uc' !! i = data !! i) /\
    (forall i, usage !! i = Some false ->
       1 <= Upload.availableBefore 1 usage i ->
       Upload.pieceUsage uc' !! i = Some true /\
       Upload.physicalSegmentData uc' !! i = Some None /\
       Upload.availableBefore 1 usage (S i) = Upload.availableBefore 1 usage i) /\
    (forall i, usage !! i = Some false ->
       Upload.availableBefore 1 usage i < 1 ->
       Upload.pieceUsage uc' !! i = Some false /\
       Upload.physicalSegmentData uc' !! i = data !! i /\
       Upload.availableBefore 1 usage (S i) = Upload.availableBefore 1 usage i + 1) /\
    Upload.workersStandby uc' =
      (if 0 <? Upload.availableBefore 1 usage 4 then [] else Upload.workersStandby uc) /\
    Upload.memoryReturned tr = 2 * Upload.slotsReleased usage (Upload.pieceUsage uc') /\
    Upload.memoryReleased uc' =
      wrap_u64 (Upload.memoryReleased uc
                + 2 * Upload.slotsReleased usage (Upload.pieceUsage uc')).
Proof.
  apply (cleanup_releases_slots sampleClient ∅ (sampleSegment "" 1 1));
    cbn; unfold two64; lia.
Defined.

(** On the sample segment with one worker remaining, the first unused piece
    is kept for the worker and the two after it are released. *)
Example cleanup_sample :
  exists repairing' uc',
    Upload.managedCleanUpUploadSegment sampleClient ∅ (sampleSegment "" 1 1)
      = Some (repairing', uc', [Upload.MemoryReturn 4]) /\
    Upload.pieceUsage uc' = [true; false; true; true] /\
    Upload.memoryReleased uc' = 4.
Proof. eexists _, _. split; [vm_compute; reflexivity|]. split; reflexivity. Qed.

(** ** Failure to fetch the logical data *)

Lemma pieceCompletedMemory_fold (ss : Z) (usage : list bool) :
  0 <= ss ->
  forall acc, 0 <= acc ->
    acc + ss * Z.of_nat (List.length usage) < two64 ->
    fold_left (fun acc (used : bool) => if used then u64_add acc ss else acc) usage acc
    = acc + ss * Upload.usedPieces usage.
Proof.
  intros Hss. unfold Upload.usedPieces.
  induction usage as [|b usage IH]; intros acc Hacc Hbound.
  - cbn. lia.
  - cbn [List.length] in Hbound.
    pose proof (filter_length_le (fun b : bool => b) usage) as Hle.
    destruct b; cbn [fold_left List.filter].
    + unfold u64_add at 2. rewrite wrap_u64_small by nia.
      rewrite IH by nia. cbn [List.length]. lia.
    + rewrite IH by nia. lia.
Qed.

Lemma pieceCompletedMemory_exact (sc : Upload.StorageClient)
    (uc : Upload.unfinishedUploadSegment) :
  0 <= Upload.storageSectorSize sc ->
  Upload.storageSectorSize sc * Z.of_nat (List.length (Upload.pieceUsage uc)) < two64 ->
  Upload.pieceCompletedMemory sc uc
  = Upload.storageSectorSize sc * Upload.usedPieces (Upload.pieceUsage uc).
Proof.
  intros Hss Hbound. unfold Upload.pieceCompletedMemory.
  rewrite pieceCompletedMemory_fold by lia. lia.
Qed.

(** A failed fetch leaves the segment as it was. *)
Lemma fetch_error_keeps_segment (sc : Upload.StorageClient)
    (uc s : Upload.unfinishedUploadSegment) (msg : string) (tr : list Upload.event) :
  Upload.managedFetchLogicalSegmentData sc uc = Some (Err msg, s, tr) -> s = uc.
Proof.
  unfold Upload.managedFetchLogicalSegmentData, Upload.managedDownloadLogicalSegmentData.
  destruct (Upload.fetchLogicalSegmentData_return sc uc) as [log|m log|buf].
  - destruct (Upload.downloadLength uc) as [len|]; [|discriminate].
    destruct (Download.newDownload _) as [[ok|e]|]; [| |discriminate].
    + destruct (Upload.waitDownload sc _); intros [= _ <- _]; reflexivity.
    + intros [= _ <- _]; reflexivity.
  - intros [= _ <- _]; reflexivity.
  - discriminate.
Qed.

Lemma fetch_returns_no_memory (sc : Upload.StorageClient)
    (uc s : Upload.unfinishedUploadSegment) (r : result unit) (tr : list Upload.event) :
  Upload.managedFetchLogicalSegmentData sc uc = Some (r, s, tr) ->
  Upload.memoryReturned tr = 0.
Proof.
  unfold Upload.managedFetchLogicalSegmentData.
  destruct (Upload.fetchLogicalSegmentData_return sc uc) as [log|m log|buf] eqn:Hret.
  - destruct (Upload.managedDownloadLogicalSegmentData sc uc)
      as [[[r' s'] tr']|] eqn:Hd; [|discriminate].
    destruct (managedDownload_trace _ _ _ _ _ Hd) as [request ->].
    intros [= <- <- <-]. rewrite memoryReturned_app. revert Hret.
    fetch_return_cases; intros [= <-] || discriminate; reflexivity.
  - intros [= <- <- <-]. revert Hret.
    fetch_return_cases; intros [= <- <-] || discriminate; reflexivity.
  - intros [= <- <- <-]. reflexivity.
Qed.

(** C4: when fetching the logical data fails,
    [threadedFetchAndRepairSegment] sets [workersRemaining] to 0, drops
    [logicalSegmentData], and gives back to the memory manager, and adds to
    [memoryReleased], exactly the erasure-coding memory (the sector size of
    the file times [MinSectors]) plus the memory of the completed pieces
    ([storage.SectorSize] for each true entry of [pieceUsage]); this is the
    state in which the function returns and its deferred clean-up starts.
    The sizes are non-negative and their sum fits in 64 bits. *)
Theorem fetch_failure_releases_memory
    (sc : Upload.StorageClient) (repairing : gset (Z * Z))
    (uc s : Upload.unfinishedUploadSegment) (msg : string) (tr : list Upload.event) :
  let fe := Upload.fileEntry uc in
  let ss := Upload.storageSectorSize sc in
  let amount :=
    Upload.SectorSize fe * Upload.MinSectors fe
    + ss * Upload.usedPieces (Upload.pieceUsage uc) in
  let failed :=
    tr ++ [Upload.MemoryReturn amount;
           Upload.LogDebug "Fetching logical data of a Segment failed:"] in
  Upload.managedFetchLogicalSegmentData sc uc = Some (Err msg, s, tr) ->
  0 <= Upload.SectorSize fe ->
  0 <= Upload.MinSectors fe ->
  0 <= ss ->
  Upload.SectorSize fe * Upload.MinSectors fe
    + ss * Z.of_nat (List.length (Upload.pieceUsage uc)) < two64 ->
  exists uc',
    Upload.fetchAndRepairSegment_body sc repairing uc = Some (repairing, uc', failed) /\
    Upload.workersRemaining uc' = 0 /\
    Upload.logicalSegmentData uc' = None /\
    Upload.memoryReleased uc' = wrap_u64 (Upload.memoryReleased uc + amount) /\
    Upload.memoryReturned failed = amount /\
    (Upload.tmAddFails sc = false ->
     Upload.threadedFetchAndRepairSegment sc repairing uc =
       match Upload.managedCleanUpUploadSegment sc repairing uc' with
       | None => None
       | Some (repairing2, uc2, tr2) => Some (repairing2, uc2, failed ++ tr2)
       end).
Proof.
  intros fe ss amount failed Hfetch Hfs Hmin Hss Hbound.
  pose proof (fetch_error_keeps_segment _ _ _ _ _ Hfetch) as ->.
  pose proof (fetch_returns_no_memory _ _ _ _ _ Hfetch) as Htr.
  assert (Hused : 0 <= Upload.usedPieces (Upload.pieceUsage uc)
                  <= Z.of_nat (List.length (Upload.pieceUsage uc))).
  { unfold Upload.usedPieces.
    pose proof (filter_length_le (fun b : bool => b) (Upload.pieceUsage uc)). lia. }
  assert (Hmul : 0 <= Upload.SectorSize fe * Upload.MinSectors fe) by nia.
  assert (Hamount : u64_add (Upload.erasureCodingMemory uc) (Upload.pieceCompletedMemory sc uc)
                    = amount).
  { rewrite pieceCompletedMemory_exact by (fold ss; nia).
    unfold Upload.erasureCodingMemory, u64_mul, u64_add. fold fe ss.
    assert (Hmin64 : Upload.MinSectors fe < two64 \/ Upload.SectorSize fe = 0) by nia.
    destruct Hmin64 as [Hm|Hz].
    - rewrite (wrap_u64_small (Upload.MinSectors fe)) by lia.
      rewrite (wrap_u64_small (_ * _)) by nia.
      apply wrap_u64_small. unfold amount. nia.
    - rewrite Hz, !Z.mul_0_l. unfold wrap_u64 at 2. rewrite Z.mod_0_l by (unfold two64; lia).
      rewrite Z.add_0_l. unfold amount. rewrite Hz, Z.mul_0_l, Z.add_0_l.
      apply wrap_u64_small. nia. }
  assert (Hbody : Upload.fetchAndRepairSegment_body sc repairing uc =
                  Some (repairing,
                        Upload.set_memoryReleased
                          (u64_add (Upload.memoryReleased uc) amount)
                          (Upload.set_workersRemaining 0
                             (Upload.set_logicalSegmentData None uc)),
                        failed)).
  { unfold Upload.fetchAndRepairSegment_body. rewrite Hfetch, Hamount. reflexivity. }
  eexists. split; [exact Hbody|]. repeat split.
  - unfold failed. rewrite memoryReturned_app, Htr. cbn. lia.
  - intros Hadd. unfold Upload.threadedFetchAndRepairSegment. rewrite Hadd, Hbody.
    reflexivity.
Qed.

Lemma fetch_failure_releases_memory_witness :
  let uc := sampleSegment "" 4 0 in
  let failed :=
    [Upload.MemoryReturn (2 * 2 + 2 * 1);
     Upload.LogDebug "Fetching logical data of a Segment failed:"] in
  exists uc',
    Upload.fetchAndRepairSegment_body sampleClient ∅ uc = Some (∅, uc', failed) /\
    Upload.workersRemaining uc' = 0 /\
    Upload.logicalSegmentData uc' = None /\
    Upload.memoryReleased uc' = wrap_u64 (0 + (2 * 2 + 2 * 1)) /\
    Upload.memoryReturned failed = 2 * 2 + 2 * 1 /\
    (Upload.tmAddFails sampleClient = false ->
     Upload.threadedFetchAndRepairSegment sampleClient ∅ uc =
       match Upload.managedCleanUpUploadSegment sampleClient ∅ uc' with
       | None => None
       | Some (repairing2, uc2, tr2) => Some (repairing2, uc2, failed ++ tr2)
       end).
Proof.
  apply (fetch_failure_releases_memory sampleClient ∅ (sampleSegment "" 4 0)
           (sampleSegment "" 4 0) "file not available locally" []);
    try reflexivity; cbn; unfold two64; lia.
Defined.

(** ** Currency: parsing what was formatted *)

Lemma chars_app (a b : string) :
  Unit.chars (a ++ b) = Unit.chars a ++ Unit.chars b.
Proof.
  unfold Unit.chars. induction a as [|c a IH]; [reflexivity|].
  change (String c a ++ b)%string with (String c (a ++ b)).
  cbn [list_ascii_of_string app]. f_equal. exact IH.
Qed.

Lemma append_empty (a : string) : (a ++ "")%string = a.
Proof.
  induction a as [|c a IH]; [reflexivity|].
  change (String c a ++ "")%string with (String c (a ++ "")). now rewrite IH.
Qed.

Lemma digit_cases (c : ascii) :
  Unit.isDigit c = true ->
  In c ["0"; "1"; "2"; "3"; "4"; "5"; "6"; "7"; "8"; "9"]%char.
Proof.
  destruct c as [[] [] [] [] [] [] [] []]; vm_compute; intros H;
    try discriminate H; tauto.
Qed.

Lemma uint_digits (d : Decimal.uint) :
  Forall (fun c => Unit.isDigit c = true) (Unit.chars (NilEmpty.string_of_uint d)).
Proof. induction d; cbn; constructor; (reflexivity || assumption). Qed.

Lemma uint_nonempty (d : Decimal.uint) :
  d <> Decimal.Nil -> Unit.chars (NilEmpty.string_of_uint d) <> [].
Proof. destruct d; cbn; congruence. Qed.

(** Digits are neither white space nor upper case. *)
Lemma digits_unformatted (ds : list ascii) :
  Forall (fun c => Unit.isDigit c = true) ds ->
  map Unit.toLower (List.filter (fun c => negb (Unit.isSpace c)) ds) = ds.
Proof.
  induction 1 as [|c ds Hc _ IH]; [reflexivity|].
  assert (Hc' : Unit.isSpace c = false /\ Unit.toLower c = c).
  { apply digit_cases in Hc. cbn in Hc.
    repeat destruct Hc as [<-|Hc]; try contradiction; split; reflexivity. }
  destruct Hc' as [Hspace Hlower].
  cbn [List.filter]. rewrite Hspace. cbn [negb map]. now rewrite Hlower, IH.
Qed.

Lemma formatString_digits (d : Decimal.uint) (U : string) :
  Unit.formatString (NilEmpty.string_of_uint d ++ U)
  = (NilEmpty.string_of_uint d ++ Unit.formatString U)%string.
Proof.
  unfold Unit.formatString. rewrite chars_app, List.filter_app, map_app.
  rewrite digits_unformatted by apply uint_digits.
  unfold Unit.str, Unit.chars.
  rewrite <- (string_of_list_ascii_of_string (NilEmpty.string_of_uint d)) at 2.
  generalize (list_ascii_of_string (NilEmpty.string_of_uint d)) as l.
  induction l as [|c l IH]; cbn; [reflexivity|]. now rewrite IH.
Qed.

(** The numeral of a non-negative integer. *)
Lemma BigInt_String_nonneg (n : Z) :
  0 <= n ->
  exists d, d <> Decimal.Nil /\
            Unit.BigInt_String n = NilEmpty.string_of_uint d /\
            Z.of_uint d = n.
Proof.
  intros Hn. destruct n as [|p|p]; [| |lia].
  - exists (Decimal.D0 Decimal.Nil). repeat split; congruence.
  - exists (Pos.to_uint p). pose proof (DecimalPos.Unsigned.to_uint_nonnil p) as Hnil.
    split; [exact Hnil|]. split.
    + unfold Unit.BigInt_String, Z.to_int, NilZero.string_of_int,
        NilZero.string_of_uint.
      destruct (Pos.to_uint p); [contradiction|reflexivity..].
    + unfold Z.of_uint. now rewrite DecimalPos.Unsigned.of_to.
Qed.

Lemma hasPrefix_app (p l : list ascii) : Unit.hasPrefix p (p ++ l) = true.
Proof.
  induction p as [|c p IH]; [reflexivity|]. cbn. now rewrite Ascii.eqb_refl, IH.
Qed.

Lemma HasSuffix_app (a b x : string) :
  Unit.HasSuffix (a ++ b) x
  = Unit.hasPrefix (rev (Unit.chars x)) (rev (Unit.chars b) ++ rev (Unit.chars a)).
Proof. unfold Unit.HasSuffix. now rewrite chars_app, rev_app_distr. Qed.

Lemma TrimSuffix_app (a b : string) : Unit.TrimSuffix (a ++ b) b = a.
Proof.
  unfold Unit.TrimSuffix. rewrite HasSuffix_app, hasPrefix_app.
  rewrite chars_app, length_app.
  replace (_ + _ - _)%nat with (List.length (Unit.chars a)) by lia.
  rewrite take_app_length. apply string_of_list_ascii_of_string.
Qed.

Lemma index_nonneg (u : string) : 0 <= Unit.index u.
Proof.
  unfold Unit.index.
  destruct (find _ Unit.CurrencyIndexMap) as [kv|] eqn:Hfind; [|lia].
  apply find_some in Hfind. destruct Hfind as [Hin _]. cbn in Hin.
  repeat destruct Hin as [<-|Hin]; try contradiction; cbn; lia.
Qed.

(** What the visit of the map finds does not depend on its order when at
    most one key passes the test. *)
Lemma find_visit_unique (P : string -> bool) (order : list string) (u : string) :
  Unit.visits order ->
  In u (map fst Unit.CurrencyIndexMap) ->
  P u = true ->
  (forall x, In x (map fst Unit.CurrencyIndexMap) -> P x = true -> x = u) ->
  find P order = Some u.
Proof.
  intros Hperm Hu HPu Huniq.
  destruct (find P order) as [x|] eqn:Hfind.
  - apply find_some in Hfind. destruct Hfind as [Hin HPx].
    f_equal. apply Huniq; [|exact HPx].
    eapply Permutation_in; [exact Hperm|exact Hin].
  - exfalso. pose proof (find_none _ _ Hfind u) as Hnone.
    rewrite Hnone in HPu; [discriminate|].
    eapply Permutation_in; [symmetry; exact Hperm|exact Hu].
Qed.

Lemma find_visit_none (P : string -> bool) (order : list string) :
  Unit.visits order ->
  (forall x, In x (map fst Unit.CurrencyIndexMap) -> P x = false) ->
  find P order = None.
Proof.
  intros Hperm Hnone.
  destruct (find P order) as [x|] eqn:Hfind; [|reflexivity].
  apply find_some in Hfind. destruct Hfind as [Hin HPx].
  rewrite Hnone in HPx; [discriminate|].
  eapply Permutation_in; [exact Hperm|exact Hin].
Qed.

Lemma stringToBigInt_numeral (d : Decimal.uint) (u : string) :
  d <> Decimal.Nil ->
  Unit.stringToBigInt u (NilEmpty.string_of_uint d ++ u)
  = Ok (Z.of_uint d * Unit.index u).
Proof.
  intros Hd. unfold Unit.stringToBigInt. rewrite TrimSuffix_app.
  replace (NilEmpty.string_of_uint d) with (NilZero.string_of_uint d)
    by (destruct d; [contradiction|reflexivity..]).
  now rewrite NilZero.usu.
Qed.

(** The last character of a numeral is a digit. *)
Lemma numeral_ends_in_digit (d : Decimal.uint) :
  d <> Decimal.Nil ->
  exists c rest,
    rev (Unit.chars (NilEmpty.string_of_uint d)) = c :: rest /\
    In c ["0"; "1"; "2"; "3"; "4"; "5"; "6"; "7"; "8"; "9"]%char.
Proof.
  intros Hd. pose proof (uint_digits d) as Hall. apply Forall_rev in Hall.
  destruct (rev (Unit.chars (NilEmpty.string_of_uint d))) as [|c rest] eqn:E.
  - exfalso. apply (uint_nonempty d Hd).
    rewrite <- (rev_involutive (Unit.chars _)), E. reflexivity.
  - exists c, rest. split; [reflexivity|].
    apply digit_cases. now inversion Hall.
Qed.

(** A numeral followed by a unit parses as that many units, whatever the
    order in which the units are tried. *)
Lemma ParseCurrency_numeral (order : list string) (d : Decimal.uint) (u s : string) :
  Unit.visits order ->
  d <> Decimal.Nil ->
  In u (map fst Unit.CurrencyIndexMap) ->
  Unit.formatString s = (NilEmpty.string_of_uint d ++ u)%string ->
  Unit.ParseCurrency order s = Ok (Z.of_uint d * Unit.index u).
Proof.
  intros Hperm Hd Hu Hfmt. unfold Unit.ParseCurrency. rewrite Hfmt.
  destruct (numeral_ends_in_digit d Hd) as (c & rest & Hrev & Hc).
  assert (F : forall x,
             Unit.HasSuffix (NilEmpty.string_of_uint d ++ u) x
             = Unit.hasPrefix (rev (Unit.chars x)) (rev (Unit.chars u) ++ c :: rest))
    by (intros x; now rewrite HasSuffix_app, Hrev).
  pose proof (stringToBigInt_numeral d u Hd) as Hparse.
  set (S := (NilEmpty.string_of_uint d ++ u)%string) in *.
  set (P := fun unit : string =>
              negb (String.eqb unit "wei" || String.eqb unit "ether")
              && Unit.HasSuffix S unit).
  assert (Hfind :
            (find P order = Some u) \/
            (find P order = None /\
             ((u = "wei"%string /\ Unit.HasSuffix S "wei" = true) \/
              (u = "ether"%string /\ Unit.HasSuffix S "wei" = false /\
               Unit.HasSuffix S "ether" = true)))).
  { cbn in Hu, Hc.
    repeat destruct Hu as [<-|Hu]; try contradiction;
      repeat destruct Hc as [<-|Hc]; try contradiction;
      first
        [ left; apply (find_visit_unique P order _ Hperm);
          [ cbn; tauto
          | unfold P; rewrite F; reflexivity
          | intros x Hx; cbn in Hx;
            repeat destruct Hx as [<-|Hx]; try contradiction;
            unfold P; rewrite F; intros HP;
            first [reflexivity | discriminate HP] ]
        | right; split;
          [ apply (find_visit_none P order Hperm);
            intros x Hx; cbn in Hx;
            repeat destruct Hx as [<-|Hx]; try contradiction;
            unfold P; rewrite F; reflexivity
          | rewrite !F; first [left; split; reflexivity
                              | right; split; [|split]; reflexivity] ] ]. }
  destruct Hfind as [-> | [-> [[-> Hw] | [-> [Hw He]]]]].
  - exact Hparse.
  - rewrite Hw. exact Hparse.
  - rewrite Hw, He. exact Hparse.
Qed.

Lemma parse_amount_with_unit (order : list string) (n v : Z) (U u : string) :
  Unit.visits order ->
  0 <= n ->
  Unit.formatString (U ++ "") = u ->
  In u (map fst Unit.CurrencyIndexMap) ->
  n * Unit.index u = v ->
  Unit.ParseCurrency order (Unit.BigInt_String n ++ U ++ "") = Ok v.
Proof.
  intros Hperm Hn HU Hu Hv.
  destruct (BigInt_String_nonneg n Hn) as (d & Hd & Hs & Hval).
  rewrite Hs, <- Hv, <- Hval.
  apply ParseCurrency_numeral; try assumption.
  now rewrite formatString_digits, HU.
Qed.

Lemma exact_division (v m : Z) :
  0 <= v -> 0 < m -> Unit.DivNoRemaining v m = true ->
  0 <= Unit.DivUint64 v m /\ Unit.DivUint64 v m * m = v.
Proof.
  unfold Unit.DivNoRemaining, Unit.DivUint64. intros Hv Hm Hdiv.
  apply Z.eqb_eq in Hdiv. split; [apply Z.div_pos; lia|].
  pose proof (Z.div_mod v m) as H. lia.
Qed.

(** A non-negative amount, once formatted, parses back to itself. *)
Lemma format_then_parse (order : list string) (v : Z) :
  Unit.visits order -> 0 <= v ->
  Unit.ParseCurrency order (Unit.FormatCurrency v []) = Ok v.
Proof.
  intros Hperm Hv. unfold Unit.FormatCurrency.
  change (String.concat "" []) with ""%string.
  destruct (Unit.IsEqual v 0) eqn:H0.
  { apply parse_amount_with_unit with (u := "wei"%string);
      try assumption; try reflexivity; [cbn; tauto|].
    change (Unit.index "wei") with 1. lia. }
  repeat match goal with
         | |- context [if Unit.DivNoRemaining v ?m then _ else _] =>
             let H := fresh "Hdiv" in
             destruct (Unit.DivNoRemaining v m) eqn:H;
             [ destruct (exact_division v m Hv ltac:(vm_compute; reflexivity) H)
                 as [Hq Hmul];
               eapply parse_amount_with_unit;
               [exact Hperm | exact Hq | reflexivity | cbn; tauto | exact Hmul]
             | ]
         end.
  apply parse_amount_with_unit with (u := "wei"%string);
    try assumption; try reflexivity; [cbn; tauto|].
  change (Unit.index "wei") with 1. lia.
Qed.

Lemma stringToBigInt_nonneg (u s : string) (v : Z) :
  Unit.stringToBigInt u s = Ok v -> 0 <= v.
Proof.
  unfold Unit.stringToBigInt, Unit.MultUint64.
  destruct (NilZero.uint_of_string _) as [d|]; [|discriminate].
  intros [= <-]. pose proof (index_nonneg u).
  assert (0 <= Z.of_uint d) by (unfold Z.of_uint; lia). nia.
Qed.

Lemma ParseCurrency_nonneg (order : list string) (s : string) (v : Z) :
  Unit.ParseCurrency order s = Ok v -> 0 <= v.
Proof.
  unfold Unit.ParseCurrency.
  destruct (find _ order) as [u|].
  - apply stringToBigInt_nonneg.
  - destruct (Unit.HasSuffix _ "wei"); [apply stringToBigInt_nonneg|].
    destruct (Unit.HasSuffix _ "ether"); [apply stringToBigInt_nonneg|discriminate].
Qed.

(** C9: for every string [s] that [ParseCurrency] accepts,
    [FormatCurrency (ParseCurrency s)] is accepted again and parses back to
    the same value, in every unit, and in whatever order the units of the
    map are visited by either call. *)
Theorem currency_round_trip (order1 order2 : list string) (s : string) (v : Z) :
  Unit.visits order1 ->
  Unit.visits order2 ->
  Unit.ParseCurrency order1 s = Ok v ->
  Unit.ParseCurrency order2 (Unit.FormatCurrency v []) = Ok v.
Proof.
  intros _ H2 Hparse. apply format_then_parse; [exact H2|].
  exact (ParseCurrency_nonneg order1 s v Hparse).
Qed.

Lemma currency_round_trip_witness :
  Unit.ParseCurrency (rev Unit.CurrencyUnit)
    (Unit.FormatCurrency 12000000000 []) = Ok 12000000000.
Proof.
  apply (currency_round_trip Unit.CurrencyUnit (rev Unit.CurrencyUnit) " 12 Gwei").
  - exact (Permutation_refl Unit.CurrencyUnit).
  - exact (Permutation_sym (Permutation_rev Unit.CurrencyUnit)).
  - vm_compute. reflexivity.
Defined.

(** Each unit is met by the round trip. *)
Example currency_units :
  map (fun v => Unit.FormatCurrency v [])
    [0; 7; 7 * 10 ^ 3; 7 * 10 ^ 6; 7 * 10 ^ 9; 7 * 10 ^ 12; 7 * 10 ^ 15; 7 * 10 ^ 18]
  = ["0 wei"; "7 wei"; "7 Kwei"; "7 Mwei"; "7 Gwei"; "7 microether"; "7 milliether";
     "7 ether"]%string.
Proof. vm_compute. reflexivity. Qed.

(** * Further properties of the embedded code *)

(** ** Cleaning up a segment, continued *)

(** Everything that [managedCleanUpUploadSegment] does once its scan has
    ended in the state [s]. *)
Lemma cleanup_outcome (sc : Upload.StorageClient) (repairing : gset (Z * Z))
    (uc : Upload.unfinishedUploadSegment) (s : Upload.cleanScan) :
  Upload.cleanLoop (Upload.storageSectorSize sc) (Upload.workersRemaining uc)
    (seq 0 (List.length (Upload.pieceUsage uc)))
    (Upload.mkScan (Upload.pieceUsage uc) (Upload.physicalSegmentData uc) 0 0) = Some s ->
  let fresh := Upload.SegmentComplete uc && negb (Upload.released uc) in
  exists uc',
    Upload.managedCleanUpUploadSegment sc repairing uc =
      Some (if fresh
            then repairing ∖ {[ (Upload.fid (Upload.id uc), Upload.id_index (Upload.id uc)) ]}
            else repairing,
            uc',
            map Upload.QueueUploadSegment
              (if 0 <? Upload.piecesAvailable s then Upload.workersStandby uc else [])
            ++ (if 0 <? Upload.scanReleased s
                then [Upload.MemoryReturn (Upload.scanReleased s)] else [])
            ++ (if fresh
                then Upload.managedUpdateUploadSegmentStuckStatus sc uc
                     ++ Upload.FileClose ::
                        (if Upload.FileCloseErr sc
                         then [Upload.LogDebug "file not closed after segment upload complete"]
                         else [])
                else [])
            ++ (if Upload.SegmentComplete uc
                   && negb (u64_add (Upload.memoryReleased uc) (Upload.scanReleased s)
                            =? Upload.memoryNeeded uc)
                then [Upload.LogDebug "No workers remaining, but not all memory released:"]
                else [])) /\
    Upload.pieceUsage uc' = Upload.scanUsage s /\
    Upload.physicalSegmentData uc' = Upload.scanData s /\
    Upload.memoryReleased uc' = u64_add (Upload.memoryReleased uc) (Upload.scanReleased s) /\
    Upload.workersStandby uc' =
      (if 0 <? Upload.piecesAvailable s then [] else Upload.workersStandby uc) /\
    Upload.released uc' = (Upload.released uc || Upload.SegmentComplete uc) /\
    Upload.workersRemaining uc' = Upload.workersRemaining uc /\
    Upload.piecesCompleted uc' = Upload.piecesCompleted uc /\
    Upload.piecesRegistered uc' = Upload.piecesRegistered uc /\
    Upload.piecesNeeded uc' = Upload.piecesNeeded uc /\
    Upload.memoryNeeded uc' = Upload.memoryNeeded uc /\
    Upload.id uc' = Upload.id uc.
Proof.
  intros Hloop fresh. unfold Upload.managedCleanUpUploadSegment. rewrite Hloop.
  set (uc1 := Upload.set_physicalSegmentData _ _).
  change (Upload.SegmentComplete uc1) with (Upload.SegmentComplete uc).
  change (Upload.released uc1) with (Upload.released uc). fold fresh.
  destruct (0 <? Upload.piecesAvailable s);
    destruct (Upload.SegmentComplete uc) eqn:Hc;
    destruct (Upload.released uc) eqn:Hr; subst fresh;
    cbn [negb andb orb Upload.managedNotifyStandbyWorkers];
    (eexists; split; [reflexivity|]);
    cbn; rewrite ?Hr; repeat split; reflexivity.
Qed.

(** The scan ends, and its result is settled at every index. *)
Lemma cleanLoop_settled (ss W : Z) (usage : list bool) (data : list (option Upload.bytes)) :
  (List.length usage <= List.length data)%nat ->
  0 <= ss ->
  ss * Z.of_nat (List.length usage) < two64 ->
  Z.of_nat (List.length usage) < 2 ^ 63 ->
  exists s,
    Upload.cleanLoop ss W (seq 0 (List.length usage)) (Upload.mkScan usage data 0 0) = Some s /\
    List.length (Upload.scanUsage s) = List.length usage /\
    List.length (Upload.scanData s) = List.length data /\
    (forall i, Upload.settled W usage data (Upload.scanUsage s) (Upload.scanData s) i) /\
    (forall i, (List.length usage <= i)%nat -> Upload.scanData s !! i = data !! i) /\
    Upload.piecesAvailable s = Upload.availableBefore W usage (List.length usage) /\
    Upload.scanReleased s = ss * Upload.slotsReleased usage (Upload.scanUsage s).
Proof.
  intros Hlen Hss Hbound Hlenb.
  destruct (cleanLoop_invariant ss W usage data Hlen Hss Hbound Hlenb
              (List.length usage) (le_n _))
    as [s [Hloop (Hlu & Hld & Hrest & Hdone & Hav & Hrel)]].
  rewrite (take_ge usage), (take_ge (Upload.scanUsage s)) in Hrel by lia.
  exists s. repeat split; try assumption.
  - intros i. destruct (le_lt_dec (List.length usage) i) as [Hi|Hi].
    + unfold Upload.settled. now rewrite (lookup_ge_None_2 usage i Hi).
    + apply Hdone. exact Hi.
  - intros i Hi. apply Hrest. exact Hi.
Qed.

Lemma unusedBefore_ge (usage : list bool) (i : nat) :
  (List.length usage <= i)%nat ->
  Upload.unusedBefore usage i = Upload.unusedBefore usage (List.length usage).
Proof.
  intros Hi. unfold Upload.unusedBefore. now rewrite !take_ge by lia.
Qed.

(** Marking pieces as used can only lower the count of unused pieces. *)
Lemma unusedBefore_mono (u0 u1 : list bool) :
  List.length u1 = List.length u0 ->
  (forall j, u1 !! j = Some false -> u0 !! j = Some false) ->
  forall i, Upload.unusedBefore u1 i <= Upload.unusedBefore u0 i.
Proof.
  intros Hlen Hsub. induction i as [|i IH].
  - unfold Upload.unusedBefore. change (take 0 u1) with (@nil bool).
    change (take 0 u0) with (@nil bool). lia.
  - destruct (u1 !! i) as [b1|] eqn:H1.
    + assert (Hi : (i < List.length u0)%nat)
        by (rewrite <- Hlen; apply lookup_lt_is_Some; eauto).
      destruct (lookup_lt_is_Some_2 u0 i Hi) as [b0 H0].
      rewrite (unusedBefore_S u1 i b1 H1), (unusedBefore_S u0 i b0 H0).
      destruct b1; [destruct b0; lia|].
      rewrite (Hsub i H1) in H0. injection H0 as <-. lia.
    + apply lookup_ge_None_1 in H1.
      rewrite (unusedBefore_ge u1 (S i)), (unusedBefore_ge u0 (S i)) by lia.
      rewrite (unusedBefore_ge u1 i), (unusedBefore_ge u0 i) in IH by lia.
      exact IH.
Qed.

Lemma slotsReleased_same (usage : list bool) : Upload.slotsReleased usage usage = 0.
Proof.
  unfold Upload.slotsReleased.
  induction usage as [|b usage IH]; [reflexivity|].
  cbn [combine List.filter]. destruct b; cbn [negb andb]; exact IH.
Qed.

(** X1: a second clean-up of a segment, with nothing changed in between,
    releases no slot and gives no memory back: a slot is never released
    twice. *)
Theorem cleanup_twice_releases_once
    (sc : Upload.StorageClient) (repairing repairing1 : gset (Z * Z))
    (uc uc1 : Upload.unfinishedUploadSegment) (tr1 : list Upload.event) :
  (List.length (Upload.pieceUsage uc) <= List.length (Upload.physicalSegmentData uc))%nat ->
  0 <= Upload.storageSectorSize sc ->
  Upload.storageSectorSize sc * Z.of_nat (List.length (Upload.pieceUsage uc)) < two64 ->
  Z.of_nat (List.length (Upload.pieceUsage uc)) < 2 ^ 63 ->
  Upload.managedCleanUpUploadSegment sc repairing uc = Some (repairing1, uc1, tr1) ->
  exists repairing2 uc2 tr2,
    Upload.managedCleanUpUploadSegment sc repairing1 uc1 = Some (repairing2, uc2, tr2) /\
    Upload.memoryReturned tr2 = 0 /\
    Upload.pieceUsage uc2 = Upload.pieceUsage uc1 /\
    Upload.physicalSegmentData uc2 = Upload.physicalSegmentData uc1 /\
    Upload.memoryReleased uc2 = Upload.memoryReleased uc1.
Proof.
  intros Hlen Hss Hbound Hlenb Hrun.
  set (W := Upload.workersRemaining uc).
  destruct (cleanLoop_settled (Upload.storageSectorSize sc) W _ _ Hlen Hss Hbound Hlenb)
    as (s1 & Hloop1 & Hlu1 & Hld1 & Hset1 & _ & _ & _).
  destruct (cleanup_outcome sc repairing uc s1 Hloop1)
    as (uc1' & Hrun1 & Hu1 & Hd1 & Hm1 & _ & _ & Hw1 & _).
  rewrite Hrun in Hrun1. injection Hrun1 as _ <- _.
  assert (Hlen1 : (List.length (Upload.pieceUsage uc1)
                   <= List.length (Upload.physicalSegmentData uc1))%nat)
    by (rewrite Hu1, Hd1; lia).
  destruct (cleanLoop_settled (Upload.storageSectorSize sc) (Upload.workersRemaining uc1)
              (Upload.pieceUsage uc1) (Upload.physicalSegmentData uc1) Hlen1 Hss)
    as (s2 & Hloop2 & Hlu2 & Hld2 & Hset2 & Hrest2 & _ & Hrel2);
    try (rewrite Hu1, Hlu1; assumption).
  destruct (cleanup_after_scan sc repairing1 uc1 s2 Hloop2)
    as (repairing2 & uc2 & tr2 & Hrun2 & Hu2 & Hd2 & Hm2 & _ & Hret2).
  rewrite Hw1 in Hset2. fold W in Hset2.
  assert (Hsub : forall j, Upload.pieceUsage uc1 !! j = Some false ->
                           Upload.pieceUsage uc !! j = Some false /\
                           Upload.availableBefore W (Upload.pieceUsage uc) j < W).
  { intros j Hj. specialize (Hset1 j). unfold Upload.settled in Hset1.
    rewrite <- Hu1 in Hset1.
    destruct (Upload.pieceUsage uc !! j) as [[]|] eqn:H0.
    - destruct Hset1 as [Hc _]. congruence.
    - split; [reflexivity|].
      destruct (Z.leb_spec W (Upload.availableBefore W (Upload.pieceUsage uc) j));
        [destruct Hset1 as [Hc _]; congruence|assumption].
    - apply lookup_ge_None_1 in H0. apply lookup_lt_Some in Hj.
      rewrite Hu1, Hlu1 in Hj. lia. }
  assert (Hkeep : Upload.scanUsage s2 = Upload.pieceUsage uc1 /\
                  Upload.scanData s2 = Upload.physicalSegmentData uc1).
  { split; apply list_eq; intros i; specialize (Hset2 i); unfold Upload.settled in Hset2;
      destruct (Upload.pieceUsage uc1 !! i) as [[]|] eqn:Hi.
    1,4: now destruct Hset2.
    1,3: destruct (Hsub i Hi) as [H0 Hav];
         pose proof (unusedBefore_mono (Upload.pieceUsage uc) (Upload.pieceUsage uc1)
                       ltac:(rewrite Hu1; exact Hlu1)
                       (fun j Hj => proj1 (Hsub j Hj)) i) as Hmono;
         unfold Upload.availableBefore in *;
         rewrite (proj2 (Z.leb_gt _ _)) in Hset2 by lia;
         now destruct Hset2.
    - apply lookup_ge_None_1 in Hi. apply lookup_ge_None_2. lia.
    - apply lookup_ge_None_1 in Hi. apply Hrest2. exact Hi. }
  destruct Hkeep as [Hk1 Hk2].
  rewrite Hk1, slotsReleased_same, Z.mul_0_r in Hrel2.
  exists repairing2, uc2, tr2. split; [exact Hrun2|].
  rewrite Hret2, Hu2, Hd2, Hm2, Hrel2, Hk1, Hk2. repeat split.
  rewrite Hm1. unfold u64_add, wrap_u64. rewrite Z.add_0_r. apply Z.mod_mod.
  unfold two64. lia.
Qed.

Lemma cleanup_twice_releases_once_witness :
  exists repairing1 uc1 tr1,
    Upload.managedCleanUpUploadSegment sampleClient ∅ (sampleSegment "" 1 1)
      = Some (repairing1, uc1, tr1) /\
    exists repairing2 uc2 tr2,
      Upload.managedCleanUpUploadSegment sampleClient repairing1 uc1
        = Some (repairing2, uc2, tr2) /\
      Upload.memoryReturned tr2 = 0 /\
      Upload.pieceUsage uc2 = Upload.pieceUsage uc1 /\
      Upload.physicalSegmentData uc2 = Upload.physicalSegmentData uc1 /\
      Upload.memoryReleased uc2 = Upload.memoryReleased uc1.
Proof.
  eexists _, _, _. split; [reflexivity|].
  eapply (cleanup_twice_releases_once sampleClient ∅ _ (sampleSegment "" 1 1));
    [cbn; lia | cbn; lia | cbn; unfold two64; lia | cbn; lia | reflexivity].
Defined.

(** ** The stuck status, continued *)

(** X2: when the client is shutting down or offline, a segment is never
    marked stuck: after an unsuccessful repair the function only logs, with
    no stuck update, no bubble and no signal; after a successful one the
    only stuck update clears the flag. *)
Theorem no_stuck_mark_on_renter_error
    (sc : Upload.StorageClient) (uc : Upload.unfinishedUploadSegment) :
  Upload.stopped sc = true \/ Upload.Online sc = false ->
  let tr := Upload.managedUpdateUploadSegmentStuckStatus sc uc in
  (Upload.successfulRepair sc uc = false ->
   Upload.stuckUpdates tr = [] /\ bubbled tr = [] /\ stuckSignals tr = []) /\
  (Upload.successfulRepair sc uc = true ->
   Upload.stuckUpdates tr = [(wrap_int (Upload.id_index (Upload.id uc)), false)]).
Proof.
  intros Herr tr.
  assert (Hrenter : (if Upload.stopped sc then true else negb (Upload.Online sc)) = true)
    by (destruct Herr as [-> | ->]; [reflexivity|destruct (Upload.stopped sc); reflexivity]).
  subst tr. unfold Upload.managedUpdateUploadSegmentStuckStatus. rewrite Hrenter.
  split; intros ->; cbn [negb andb]; [repeat split|].
  destruct (Upload.SetStuckByIndexErr sc _ _), (Upload.NewDxPath sc _) as [dxPath|];
    try reflexivity;
    destruct (Upload.Dir sc dxPath); try reflexivity;
    destruct (Upload.stuck uc), (Upload.stuckRepair uc),
      (Upload.stoppedBeforeSignal sc); reflexivity.
Qed.

Lemma no_stuck_mark_on_renter_error_witness :
  let sc :=
    Upload.mkClient 2 (mkF 1 (-2)) false false false false [] (fun _ => false)
      (fun _ _ _ => ([], Upload.ReadOk)) (fun _ => Upload.Interrupted)
      (fun _ => ([], None)) (fun piece => Ok piece) (fun _ _ => false)
      (fun s => Ok s) (fun _ => Ok "dir"%string) false in
  let tr := Upload.managedUpdateUploadSegmentStuckStatus sc (sampleSegment "" 1 0) in
  (Upload.successfulRepair sc (sampleSegment "" 1 0) = false ->
   Upload.stuckUpdates tr = [] /\ bubbled tr = [] /\ stuckSignals tr = []) /\
  (Upload.successfulRepair sc (sampleSegment "" 1 0) = true ->
   Upload.stuckUpdates tr = [(wrap_int 2, false)]).
Proof.
  intros sc.
  apply (no_stuck_mark_on_renter_error sc (sampleSegment "" 1 0)).
  right. reflexivity.
Defined.

(** X3: the stuck loop is signalled at most once, and only for a segment
    that was stuck, was taken up by the stuck loop and whose repair
    succeeded, when the last [select] takes the send and not the stop
    channel; the path sent is that of its file, and the flag of the segment
    has been cleared by then.  Conversely, for such a segment whose
    directory is found the path is sent whenever that [select] takes the
    send, whether or not the client is stopping or online. *)
Theorem stuck_signal_only_after_stuck_repair
    (sc : Upload.StorageClient) (uc : Upload.unfinishedUploadSegment) :
  let tr := Upload.managedUpdateUploadSegmentStuckStatus sc uc in
  (List.length (stuckSignals tr) <= 1)%nat /\
  (forall dxPath, In dxPath (stuckSignals tr) ->
     Upload.stuck uc = true /\
     Upload.stuckRepair uc = true /\
     Upload.successfulRepair sc uc = true /\
     Upload.stoppedBeforeSignal sc = false /\
     Upload.NewDxPath sc (Upload.DxPath (Upload.fileEntry uc)) = Ok dxPath /\
     Upload.stuckUpdates tr = [(wrap_int (Upload.id_index (Upload.id uc)), false)]) /\
  (forall dxPath dirDxPath,
     Upload.stuck uc = true ->
     Upload.stuckRepair uc = true ->
     Upload.successfulRepair sc uc = true ->
     Upload.NewDxPath sc (Upload.DxPath (Upload.fileEntry uc)) = Ok dxPath ->
     Upload.Dir sc dxPath = Ok dirDxPath ->
     Upload.stoppedBeforeSignal sc = false ->
     stuckSignals tr = [dxPath]).
Proof.
  cbv zeta. split; [|split].
  - unfold Upload.managedUpdateUploadSegmentStuckStatus.
    destruct (negb (Upload.successfulRepair sc uc) && _); [cbn; lia|].
    destruct (Upload.successfulRepair sc uc), (Upload.SetStuckByIndexErr sc _ _),
      (Upload.NewDxPath sc _) as [path|]; try (cbn; lia);
      destruct (Upload.Dir sc path); try (cbn; lia);
      destruct (Upload.stuck uc), (Upload.stuckRepair uc),
        (Upload.stoppedBeforeSignal sc); cbn; lia.
  - unfold Upload.managedUpdateUploadSegmentStuckStatus.
    destruct (negb (Upload.successfulRepair sc uc) && _) eqn:Hret.
    { intros dxPath []. }
    destruct (Upload.successfulRepair sc uc) eqn:Hs;
      destruct (Upload.SetStuckByIndexErr sc _ _);
      destruct (Upload.NewDxPath sc _) as [path|] eqn:Hp;
      try (intros dxPath []);
      destruct (Upload.Dir sc path);
      try (intros dxPath []);
      destruct (Upload.stuck uc), (Upload.stuckRepair uc),
        (Upload.stoppedBeforeSignal sc);
      intros dxPath Hin; cbn in Hin;
      try contradiction; destruct Hin as [<-|[]]; repeat split; reflexivity.
  - intros dxPath dirDxPath Hstuck Hrepair Hs Hp Hdir Hsend.
    unfold Upload.managedUpdateUploadSegmentStuckStatus.
    rewrite Hs, Hp, Hdir, Hstuck, Hrepair, Hsend. cbn [negb andb].
    destruct (Upload.SetStuckByIndexErr sc _ _); reflexivity.
Qed.

(** ** Fetching and repairing a segment, continued *)

(** A successful fetch only sets the logical data. *)
Lemma fetch_ok_sets_logical (sc : Upload.StorageClient)
    (uc s : Upload.unfinishedUploadSegment) (tr : list Upload.event) :
  Upload.managedFetchLogicalSegmentData sc uc = Some (Ok tt, s, tr) ->
  exists buf, s = Upload.set_logicalSegmentData (Some buf) uc.
Proof.
  unfold Upload.managedFetchLogicalSegmentData, Upload.managedDownloadLogicalSegmentData.
  destruct (Upload.fetchLogicalSegmentData_return sc uc) as [log|m log|buf].
  - destruct (Upload.downloadLength uc) as [len|]; [|discriminate].
    destruct (Download.newDownload _) as [[ok|e]|]; [| |discriminate].
    + destruct (Upload.waitDownload sc _); intros [= <- _]; eauto.
    + discriminate.
  - discriminate.
  - intros [= <- _]. eauto.
Qed.

Lemma usedPieces_bounds (usage : list bool) :
  0 <= Upload.usedPieces usage <= Z.of_nat (List.length usage).
Proof.
  unfold Upload.usedPieces.
  pose proof (filter_length_le (fun b : bool => b) usage). lia.
Qed.

(** The two amounts that [threadedFetchAndRepairSegment] computes on entry,
    when nothing wraps around. *)
Lemma repair_memory_exact (sc : Upload.StorageClient) (uc : Upload.unfinishedUploadSegment) :
  let fe := Upload.fileEntry uc in
  let ss := Upload.storageSectorSize sc in
  0 <= Upload.SectorSize fe ->
  0 <= Upload.MinSectors fe ->
  0 <= ss ->
  Upload.SectorSize fe * Upload.MinSectors fe
    + ss * Z.of_nat (List.length (Upload.pieceUsage uc)) < two64 ->
  Upload.erasureCodingMemory uc = Upload.SectorSize fe * Upload.MinSectors fe /\
  Upload.pieceCompletedMemory sc uc = ss * Upload.usedPieces (Upload.pieceUsage uc).
Proof.
  intros fe ss Hfs Hmin Hss Hbound.
  pose proof (usedPieces_bounds (Upload.pieceUsage uc)) as Hused.
  assert (Hmul : 0 <= Upload.SectorSize fe * Upload.MinSectors fe) by nia.
  split.
  - unfold Upload.erasureCodingMemory, u64_mul. fold fe.
    assert (Hmin64 : Upload.MinSectors fe < two64 \/ Upload.SectorSize fe = 0) by nia.
    destruct Hmin64 as [Hm|Hz].
    + rewrite (wrap_u64_small (Upload.MinSectors fe)) by lia.
      apply wrap_u64_small. nia.
    + rewrite Hz, !Z.mul_0_l. apply wrap_u64_small. unfold two64. lia.
  - apply pieceCompletedMemory_exact; fold ss; nia.
Qed.

(** With no worker remaining, a segment is complete as soon as no upload is
    in flight. *)
Lemma SegmentComplete_no_workers (uc : Upload.unfinishedUploadSegment) :
  Upload.workersRemaining uc = 0 ->
  Upload.SegmentComplete uc = (Upload.piecesRegistered uc =? 0).
Proof.
  intros Hw. unfold Upload.SegmentComplete. rewrite Hw.
  destruct (_ =? Upload.piecesNeeded uc), (Upload.piecesRegistered uc =? 0); reflexivity.
Qed.

(** When every piece ends up in use, the slots released are those that were
    not in use. *)
Lemma slotsReleased_all_used (before : list bool) :
  forall after,
    List.length after = List.length before ->
    (forall i b, after !! i = Some b -> b = true) ->
    Upload.slotsReleased before after
    = Z.of_nat (List.length before) - Upload.usedPieces before.
Proof.
  unfold Upload.slotsReleased, Upload.usedPieces.
  induction before as [|b before IH]; intros [|a after] Hlen Hall; cbn in Hlen; try lia.
  - reflexivity.
  - assert (Ha : a = true) by (apply (Hall 0%nat); reflexivity). subst a.
    specialize (IH after ltac:(lia) (fun i b0 H => Hall (S i) b0 H)).
    cbn [combine List.filter List.length]. destruct b; cbn [negb andb List.length]; lia.
Qed.

Lemma queuedWorkers_app (tr1 tr2 : list Upload.event) :
  queuedWorkers (tr1 ++ tr2) = queuedWorkers tr1 ++ queuedWorkers tr2.
Proof. unfold queuedWorkers. apply flat_map_app. Qed.

Lemma queuedWorkers_stuck_status (sc : Upload.StorageClient)
    (uc : Upload.unfinishedUploadSegment) :
  queuedWorkers (Upload.managedUpdateUploadSegmentStuckStatus sc uc) = [].
Proof.
  unfold Upload.managedUpdateUploadSegmentStuckStatus.
  destruct (_ && _); [reflexivity|].
  stuck_status_cases sc uc.
Qed.

(** Fetching queues the segment on no worker. *)
Lemma fetch_queues_nothing (sc : Upload.StorageClient)
    (uc s : Upload.unfinishedUploadSegment) (r : result unit) (tr : list Upload.event) :
  Upload.managedFetchLogicalSegmentData sc uc = Some (r, s, tr) ->
  queuedWorkers tr = [].
Proof.
  unfold Upload.managedFetchLogicalSegmentData.
  destruct (Upload.fetchLogicalSegmentData_return sc uc) as [log|m log|buf] eqn:Hret.
  - destruct (Upload.managedDownloadLogicalSegmentData sc uc)
      as [[[r' s'] tr']|] eqn:Hd; [|discriminate].
    destruct (managedDownload_trace _ _ _ _ _ Hd) as [request ->].
    intros [= <- <- <-]. rewrite queuedWorkers_app. revert Hret.
    fetch_return_cases; intros [= <-] || discriminate; reflexivity.
  - intros [= <- <- <-]. revert Hret.
    fetch_return_cases; intros [= <- <-] || discriminate; reflexivity.
  - intros [= <- <- <-]. reflexivity.
Qed.

(** X4: when fetching the logical data fails, the whole of
    [threadedFetchAndRepairSegment], deferred clean-up included, gives back
    the erasure-coding memory and one sector for every piece of the segment,
    in use or not; every piece ends up marked in use, the slots that were
    not in use are emptied, no worker remains, and the segment is released
    unless an upload is still registered. *)
Theorem fetch_failure_releases_everything
    (sc : Upload.StorageClient) (repairing : gset (Z * Z))
    (uc s : Upload.unfinishedUploadSegment) (msg : string) (tr : list Upload.event) :
  let fe := Upload.fileEntry uc in
  let ss := Upload.storageSectorSize sc in
  let usage := Upload.pieceUsage uc in
  let total :=
    Upload.SectorSize fe * Upload.MinSectors fe + ss * Z.of_nat (List.length usage) in
  Upload.tmAddFails sc = false ->
  Upload.managedFetchLogicalSegmentData sc uc = Some (Err msg, s, tr) ->
  (List.length usage <= List.length (Upload.physicalSegmentData uc))%nat ->
  0 <= Upload.SectorSize fe ->
  0 <= Upload.MinSectors fe ->
  0 <= ss ->
  total < two64 ->
  Z.of_nat (List.length usage) < 2 ^ 63 ->
  exists repairing' uc' tr',
    Upload.threadedFetchAndRepairSegment sc repairing uc = Some (repairing', uc', tr') /\
    Upload.memoryReturned tr' = total /\
    Upload.memoryReleased uc' = wrap_u64 (Upload.memoryReleased uc + total) /\
    List.length (Upload.pieceUsage uc') = List.length usage /\
    (forall i b, Upload.pieceUsage uc' !! i = Some b -> b = true) /\
    (forall i, usage !! i = Some false ->
       Upload.physicalSegmentData uc' !! i = Some None) /\
    (forall i, usage !! i = Some true ->
       Upload.physicalSegmentData uc' !! i = Upload.physicalSegmentData uc !! i) /\
    Upload.workersRemaining uc' = 0 /\
    Upload.released uc' = (Upload.released uc || (Upload.piecesRegistered uc =? 0)) /\
    queuedWorkers tr' = [].
Proof.
  intros fe ss usage total Hadd Hfetch Hlen Hfs Hmin Hss Hbound Hlenb.
  pose proof (fetch_error_keeps_segment _ _ _ _ _ Hfetch) as ->.
  pose proof (fetch_returns_no_memory _ _ _ _ _ Hfetch) as Htr.
  pose proof (usedPieces_bounds usage) as Hused.
  destruct (repair_memory_exact sc uc Hfs Hmin Hss Hbound) as [Hecm Hpcm].
  fold fe ss usage in Hecm, Hpcm.
  set (amount := Upload.SectorSize fe * Upload.MinSectors fe + ss * Upload.usedPieces usage).
  assert (Hmul : 0 <= Upload.SectorSize fe * Upload.MinSectors fe) by nia.
  assert (Hamount : u64_add (Upload.erasureCodingMemory uc) (Upload.pieceCompletedMemory sc uc)
                    = amount).
  { rewrite Hecm, Hpcm. apply wrap_u64_small. unfold amount, total in *. nia. }
  set (uc1 := Upload.set_memoryReleased (u64_add (Upload.memoryReleased uc) amount)
                (Upload.set_workersRemaining 0 (Upload.set_logicalSegmentData None uc))).
  assert (Hbody : Upload.fetchAndRepairSegment_body sc repairing uc =
                  Some (repairing, uc1,
                        tr ++ [Upload.MemoryReturn amount;
                               Upload.LogDebug "Fetching logical data of a Segment failed:"])).
  { unfold Upload.fetchAndRepairSegment_body. rewrite Hfetch, Hamount. reflexivity. }
  destruct (cleanLoop_settled ss 0 usage (Upload.physicalSegmentData uc) Hlen Hss)
    as (sn & Hloop & Hlu & Hld & Hset & _ & Hpa & Hrel);
    [unfold total in Hbound; lia|exact Hlenb|].
  destruct (cleanup_outcome sc repairing uc1 sn Hloop)
    as (uc' & Hrun & Hu & Hd & Hm & _ & Hr & Hw & _ & _).
  assert (Hall : forall i b, Upload.scanUsage sn !! i = Some b -> b = true).
  { intros i b Hi. specialize (Hset i). unfold Upload.settled in Hset.
    destruct (usage !! i) as [[]|] eqn:H0.
    - destruct Hset as [Hs _]. congruence.
    - assert (Hav : (0 <=? Upload.availableBefore 0 usage i) = true).
      { apply Z.leb_le. unfold Upload.availableBefore.
        pose proof (unusedBefore_bounds usage i). lia. }
      rewrite Hav in Hset. destruct Hset as [Hs _]. congruence.
    - apply lookup_ge_None_1 in H0. apply lookup_lt_Some in Hi. lia. }
  rewrite (slotsReleased_all_used usage _ Hlu Hall) in Hrel.
  exists (if Upload.SegmentComplete uc1 && negb (Upload.released uc1)
          then repairing ∖ {[ (Upload.fid (Upload.id uc1), Upload.id_index (Upload.id uc1)) ]}
          else repairing), uc'.
  eexists. split.
  { unfold Upload.threadedFetchAndRepairSegment. rewrite Hadd, Hbody, Hrun. reflexivity. }
  rewrite Hu, Hd, Hm, Hr, Hw.
  rewrite (SegmentComplete_no_workers uc1 eq_refl).
  change (Upload.piecesRegistered uc1) with (Upload.piecesRegistered uc).
  change (Upload.released uc1) with (Upload.released uc).
  change (Upload.memoryReleased uc1) with (u64_add (Upload.memoryReleased uc) amount).
  change (Upload.workersStandby uc1) with (Upload.workersStandby uc).
  split; [|split; [|split; [exact Hlu|split; [exact Hall|split; [|split; [|split; [reflexivity|split; [reflexivity|]]]]]]]].
  - rewrite !memoryReturned_app, Htr, memoryReturned_queue, ?memoryReturned_stuck_status.
    assert (Hsr : Upload.scanReleased sn = total - amount)
      by (rewrite Hrel; unfold total, amount; lia).
    rewrite Hsr.
    assert (Hnn : 0 <= total - amount) by (unfold total, amount; nia).
    destruct (Z.ltb_spec 0 (total - amount));
      repeat match goal with
             | |- context [if ?c then _ else _] => destruct c
             end; rewrite ?memoryReturned_app, ?memoryReturned_stuck_status;
      unfold Upload.memoryReturned; cbn [fold_right]; lia.
  - unfold u64_add, wrap_u64. rewrite Zplus_mod_idemp_l. f_equal.
    rewrite Hrel. unfold total, amount. lia.
  - intros i Hi. specialize (Hset i). unfold Upload.settled in Hset. rewrite Hi in Hset.
    assert (Hav : (0 <=? Upload.availableBefore 0 usage i) = true).
    { apply Z.leb_le. unfold Upload.availableBefore.
      pose proof (unusedBefore_bounds usage i). lia. }
    rewrite Hav in Hset. apply Hset.
  - intros i Hi. specialize (Hset i). unfold Upload.settled in Hset. rewrite Hi in Hset.
    apply Hset.
  - assert (Hnone : (0 <? Upload.piecesAvailable sn) = false).
    { rewrite Hpa. apply Z.ltb_ge. unfold Upload.availableBefore. lia. }
    rewrite Hnone. rewrite !queuedWorkers_app, (fetch_queues_nothing _ _ _ _ _ Hfetch).
    repeat match goal with
           | |- context [if ?c then _ else _] => destruct c
           end; rewrite ?queuedWorkers_app, ?queuedWorkers_stuck_status; reflexivity.
Qed.

Lemma fetch_failure_releases_everything_witness :
  let uc := sampleSegment "" 4 0 in
  exists repairing' uc' tr',
    Upload.threadedFetchAndRepairSegment sampleClient ∅ uc = Some (repairing', uc', tr') /\
    Upload.memoryReturned tr' = 2 * 2 + 2 * Z.of_nat 4 /\
    Upload.memoryReleased uc' = wrap_u64 (0 + (2 * 2 + 2 * Z.of_nat 4)) /\
    List.length (Upload.pieceUsage uc') = 4%nat /\
    (forall i b, Upload.pieceUsage uc' !! i = Some b -> b = true) /\
    (forall i, Upload.pieceUsage uc !! i = Some false ->
       Upload.physicalSegmentData uc' !! i = Some None) /\
    (forall i, Upload.pieceUsage uc !! i = Some true ->
       Upload.physicalSegmentData uc' !! i = Upload.physicalSegmentData uc !! i) /\
    Upload.workersRemaining uc' = 0 /\
    Upload.released uc' = (false || (0 =? 0)) /\
    queuedWorkers tr' = [].
Proof.
  apply (fetch_failure_releases_everything sampleClient ∅ (sampleSegment "" 4 0)
           (sampleSegment "" 4 0) "file not available locally" []);
    try reflexivity; cbn; unfold two64; lia.
Defined.

(** The encryption loop, from index [a] on: it changes the slots of the
    indices it visits and no other, and logs without giving memory back. *)
Lemma encrypt_fold (sc : Upload.StorageClient) (us : list bool) :
  forall (a : nat) (data : list (option Upload.bytes)) (log : list Upload.event),
    exists data' log',
      fold_left
        (fun '(data, log) '(i, used) =>
           if used : bool then (<[i := None]> data, log)
           else
             match data !! i with
             | None => (data, log)
             | Some piece =>
                 match Upload.Encrypt sc piece with
                 | Err _ => (data, log ++ [Upload.LogDebug "encrypt segment failed"])
                 | Ok cipherData => (<[i := cipherData]> data, log)
                 end
             end)
        (combine (seq a (List.length us)) us) (data, log) = (data', log') /\
      List.length data' = List.length data /\
      (forall i, (i < a)%nat \/ (a + List.length us <= i)%nat -> data' !! i = data !! i) /\
      (forall j, us !! j = Some true ->
         data' !! (a + j)%nat = (fun _ => None) <$> data !! (a + j)%nat) /\
      (forall j piece, us !! j = Some false -> data !! (a + j)%nat = Some piece ->
         data' !! (a + j)%nat
         = Some (match Upload.Encrypt sc piece with Ok c => c | Err _ => piece end)) /\
      Upload.memoryReturned log' = Upload.memoryReturned log /\
      queuedWorkers log' = queuedWorkers log.
Proof.
  induction us as [|u us IH]; intros a data log.
  - exists data, log. cbn. repeat split; try reflexivity; intros; discriminate.
  - cbn [List.length seq combine fold_left].
    set (st := (if u then _ else _) : list (option Upload.bytes) * list Upload.event).
    assert (Hst : exists d1 l1,
               st = (d1, l1) /\ List.length d1 = List.length data /\
               (forall i, i <> a -> d1 !! i = data !! i) /\
               (u = true -> d1 !! a = (fun _ => None) <$> data !! a) /\
               (forall piece, u = false -> data !! a = Some piece ->
                  d1 !! a = Some (match Upload.Encrypt sc piece with
                                  | Ok c => c | Err _ => piece end)) /\
               Upload.memoryReturned l1 = Upload.memoryReturned log /\
               queuedWorkers l1 = queuedWorkers log).
    { subst st. destruct u.
      - eexists _, _. split; [reflexivity|]. rewrite length_insert.
        repeat split; try discriminate.
        + intros i Hi. now rewrite list_lookup_insert_ne.
        + intros _. destruct (data !! a) eqn:Ha.
          * apply list_lookup_insert_eq. apply lookup_lt_is_Some. eauto.
          * cbn. apply lookup_ge_None. rewrite length_insert. now apply lookup_ge_None.
      - destruct (data !! a) as [piece|] eqn:Ha.
        + destruct (Upload.Encrypt sc piece) as [c|e] eqn:He.
          * eexists _, _. split; [reflexivity|]. rewrite length_insert.
            repeat split; try discriminate.
            -- intros i Hi. now rewrite list_lookup_insert_ne.
            -- intros p _ [= <-]. rewrite He.
               apply list_lookup_insert_eq. apply lookup_lt_is_Some. eauto.
          * eexists _, _. split; [reflexivity|].
            repeat split; try discriminate.
            -- intros p _ [= <-]. now rewrite He.
            -- rewrite memoryReturned_app. cbn. lia.
            -- rewrite queuedWorkers_app. cbn. now rewrite app_nil_r.
        + eexists _, _. split; [reflexivity|].
          repeat split; discriminate. }
    destruct Hst as (d1 & l1 & -> & Hl1 & Hne & Htrue & Hfalse & Hm1 & Hq1).
    destruct (IH (S a) d1 l1) as (data' & log' & Hfold & Hlen & Hout & Hused & Hfree & Hm & Hq).
    exists data', log'. split; [exact Hfold|]. split; [lia|].
    split; [|split; [|split; [|split; [congruence|congruence]]]].
    + intros i Hi. rewrite Hout by lia. apply Hne. cbn in Hi. lia.
    + intros [|j] Hj.
      * cbn in Hj. injection Hj as ->. rewrite Nat.add_0_r, Hout by lia. now apply Htrue.
      * cbn in Hj. replace (a + S j)%nat with (S a + j)%nat by lia.
        rewrite (Hused j Hj), Hne by lia. reflexivity.
    + intros [|j] piece Hj Hp.
      * cbn in Hj. injection Hj as ->. rewrite Nat.add_0_r in *. rewrite Hout by lia.
        now apply Hfalse.
      * cbn in Hj. replace (a + S j)%nat with (S a + j)%nat in * by lia.
        apply (Hfree j piece Hj). rewrite Hne by lia. exact Hp.
Qed.

(** What the encryption loop of [threadedFetchAndRepairSegment] leaves: the
    pieces in use are dropped, the others are replaced by their cipher text,
    or kept as they are when encryption fails. *)
Lemma encryptPieces_result (sc : Upload.StorageClient) (usage : list bool)
    (data : list (option Upload.bytes)) :
  exists data' log,
    Upload.encryptPieces sc usage data = (data', log) /\
    List.length data' = List.length data /\
    (forall i, (List.length usage <= i)%nat -> data' !! i = data !! i) /\
    (forall i, usage !! i = Some true -> data' !! i = (fun _ => None) <$> data !! i) /\
    (forall i piece, usage !! i = Some false -> data !! i = Some piece ->
       data' !! i = Some (match Upload.Encrypt sc piece with Ok c => c | Err _ => piece end)) /\
    Upload.memoryReturned log = 0 /\
    queuedWorkers log = [].
Proof.
  destruct (encrypt_fold sc usage 0 data [])
    as (data' & log & Hfold & Hlen & Hout & Hused & Hfree & Hm & Hq).
  exists data', log. unfold Upload.encryptPieces.
  split; [exact Hfold|]. split; [exact Hlen|].
  split; [intros i Hi; apply Hout; lia|].
  split; [exact Hused|]. split; [exact Hfree|]. split; assumption.
Qed.

(** X5: when the logical data is fetched but erasure coding fails, the body
    of [threadedFetchAndRepairSegment] gives back, in two steps, the
    erasure-coding memory and one sector for every piece in use, adds the
    same to [memoryReleased], sets [workersRemaining] to 0, drops the logical
    data, empties every physical slot that [Encode] returned, and neither
    queues the segment on a worker nor adds it to the repairing set. *)
Theorem encode_failure_releases_memory
    (sc : Upload.StorageClient) (repairing : gset (Z * Z))
    (uc s : Upload.unfinishedUploadSegment) (tr : list Upload.event)
    (physical : list (option Upload.bytes)) (e : string) :
  let fe := Upload.fileEntry uc in
  let ss := Upload.storageSectorSize sc in
  let usage := Upload.pieceUsage uc in
  let amount :=
    Upload.SectorSize fe * Upload.MinSectors fe + ss * Upload.usedPieces usage in
  Upload.managedFetchLogicalSegmentData sc uc = Some (Ok tt, s, tr) ->
  Upload.Encode sc (Upload.logicalSegmentData s) = (physical, Some e) ->
  0 <= Upload.SectorSize fe ->
  0 <= Upload.MinSectors fe ->
  0 <= ss ->
  Upload.SectorSize fe * Upload.MinSectors fe + ss * Z.of_nat (List.length usage) < two64 ->
  exists uc' tr',
    Upload.fetchAndRepairSegment_body sc repairing uc = Some (repairing, uc', tr') /\
    Upload.memoryReturned tr' = amount /\
    Upload.memoryReleased uc' = wrap_u64 (Upload.memoryReleased uc + amount) /\
    Upload.workersRemaining uc' = 0 /\
    Upload.logicalSegmentData uc' = None /\
    List.length (Upload.physicalSegmentData uc') = List.length physical /\
    (forall i piece, Upload.physicalSegmentData uc' !! i = Some piece -> piece = None) /\
    Upload.pieceUsage uc' = usage /\
    queuedWorkers tr' = [].
Proof.
  intros fe ss usage amount Hfetch Henc Hfs Hmin Hss Hbound.
  destruct (fetch_ok_sets_logical _ _ _ _ Hfetch) as [buf ->].
  pose proof (fetch_returns_no_memory _ _ _ _ _ Hfetch) as Htr.
  pose proof (fetch_queues_nothing _ _ _ _ _ Hfetch) as Hq.
  pose proof (usedPieces_bounds usage) as Hused.
  destruct (repair_memory_exact sc uc Hfs Hmin Hss Hbound) as [Hecm Hpcm].
  fold fe ss usage in Hecm, Hpcm.
  unfold Upload.fetchAndRepairSegment_body. rewrite Hfetch, Henc.
  eexists _, _. split; [reflexivity|].
  cbn [Upload.memoryReleased Upload.workersRemaining Upload.logicalSegmentData
       Upload.physicalSegmentData Upload.pieceUsage Upload.set_logicalSegmentData
       Upload.set_physicalSegmentData Upload.set_memoryReleased
       Upload.set_workersRemaining].
  rewrite Hecm, Hpcm.
  split; [|split; [|split; [reflexivity|split; [reflexivity|split;
    [apply length_map|split; [|split; [reflexivity|]]]]]]].
  - rewrite !memoryReturned_app, Htr. unfold Upload.memoryReturned. cbn [fold_right].
    unfold amount. lia.
  - unfold u64_add, wrap_u64. rewrite Zplus_mod_idemp_l. f_equal. unfold amount. lia.
  - intros i piece Hi. rewrite list_lookup_fmap in Hi.
    destruct (physical !! i); cbn in Hi; congruence.
  - rewrite !queuedWorkers_app, Hq. reflexivity.
Qed.

Lemma encode_failure_releases_memory_witness :
  exists uc' tr',
    Upload.fetchAndRepairSegment_body (localClient (Some "encode failed")) ∅
      (sampleSegment "/tmp/f" 1 0) = Some (∅, uc', tr') /\
    Upload.memoryReturned tr' = 2 * 2 + 2 * 1 /\
    Upload.memoryReleased uc' = wrap_u64 (0 + (2 * 2 + 2 * 1)) /\
    Upload.workersRemaining uc' = 0 /\
    Upload.logicalSegmentData uc' = None /\
    List.length (Upload.physicalSegmentData uc') = 4%nat /\
    (forall i piece, Upload.physicalSegmentData uc' !! i = Some piece -> piece = None) /\
    Upload.pieceUsage uc' = [true; false; false; false] /\
    queuedWorkers tr' = [].
Proof.
  eapply (encode_failure_releases_memory (localClient (Some "encode failed")) ∅
            (sampleSegment "/tmp/f" 1 0) _ _
            (fst (Upload.Encode (localClient None) None)) "encode failed");
    try reflexivity; cbn; unfold two64; lia.
Defined.

Lemma queuedWorkers_queue (workers : list nat) :
  queuedWorkers (map Upload.QueueUploadSegment workers) = workers.
Proof.
  unfold queuedWorkers. induction workers as [|w ws IH]; [reflexivity|].
  cbn. now rewrite IH.
Qed.

(** X6: when the logical data is fetched and erasure coding gives at least
    as many pieces as the file has, the body of
    [threadedFetchAndRepairSegment] drops the pieces in use, replaces every
    other piece by its cipher text (or keeps it as it is when encryption
    fails), leaves pieces beyond [pieceUsage] alone, gives back the
    erasure-coding memory and one sector for every piece in use, adds the
    segment to the repairing set, adds the size of the worker pool to
    [workersRemaining], and queues the segment on every worker of the pool,
    once and in order. *)
Theorem repair_distributes_segment
    (sc : Upload.StorageClient) (repairing : gset (Z * Z))
    (uc s : Upload.unfinishedUploadSegment) (tr : list Upload.event)
    (physical : list (option Upload.bytes)) :
  let fe := Upload.fileEntry uc in
  let ss := Upload.storageSectorSize sc in
  let usage := Upload.pieceUsage uc in
  let amount :=
    Upload.SectorSize fe * Upload.MinSectors fe + ss * Upload.usedPieces usage in
  Upload.managedFetchLogicalSegmentData sc uc = Some (Ok tt, s, tr) ->
  Upload.Encode sc (Upload.logicalSegmentData s) = (physical, None) ->
  (List.length usage <= List.length physical)%nat ->
  0 <= Upload.SectorSize fe ->
  0 <= Upload.MinSectors fe ->
  0 <= ss ->
  Upload.SectorSize fe * Upload.MinSectors fe + ss * Z.of_nat (List.length usage) < two64 ->
  exists uc' tr',
    Upload.fetchAndRepairSegment_body sc repairing uc
    = Some ({[ (Upload.fid (Upload.id uc), Upload.id_index (Upload.id uc)) ]} ∪ repairing,
            uc', tr') /\
    Upload.memoryReturned tr' = amount /\
    Upload.memoryReleased uc' = wrap_u64 (Upload.memoryReleased uc + amount) /\
    Upload.workersRemaining uc'
    = int_add (Upload.workersRemaining uc) (Z.of_nat (List.length (Upload.workerPool sc))) /\
    queuedWorkers tr' = Upload.workerPool sc /\
    Upload.logicalSegmentData uc' = None /\
    Upload.pieceUsage uc' = usage /\
    List.length (Upload.physicalSegmentData uc') = List.length physical /\
    (forall i, usage !! i = Some true -> Upload.physicalSegmentData uc' !! i = Some None) /\
    (forall i piece, usage !! i = Some false -> physical !! i = Some piece ->
       Upload.physicalSegmentData uc' !! i
       = Some (match Upload.Encrypt sc piece with Ok c => c | Err _ => piece end)) /\
    (forall i, (List.length usage <= i)%nat ->
       Upload.physicalSegmentData uc' !! i = physical !! i).
Proof.
  intros fe ss usage amount Hfetch Henc Hlen Hfs Hmin Hss Hbound.
  destruct (fetch_ok_sets_logical _ _ _ _ Hfetch) as [buf ->].
  pose proof (fetch_returns_no_memory _ _ _ _ _ Hfetch) as Htr.
  pose proof (fetch_queues_nothing _ _ _ _ _ Hfetch) as Hq.
  pose proof (usedPieces_bounds usage) as Hused.
  destruct (repair_memory_exact sc uc Hfs Hmin Hss Hbound) as [Hecm Hpcm].
  fold fe ss usage in Hecm, Hpcm.
  destruct (encryptPieces_result sc usage physical)
    as (data' & log & Hep & Hdl & Hout & Hin & Hfree & Hlm & Hlq).
  unfold Upload.fetchAndRepairSegment_body. rewrite Hfetch, Henc.
  cbn [Upload.memoryReleased Upload.workersRemaining Upload.logicalSegmentData
       Upload.physicalSegmentData Upload.pieceUsage Upload.set_logicalSegmentData
       Upload.set_physicalSegmentData Upload.set_memoryReleased
       Upload.set_workersRemaining].
  fold usage.
  assert (Hlt : (List.length physical <? List.length usage)%nat = false)
    by (apply Nat.ltb_ge; exact Hlen).
  rewrite Hlt, Hep, Hecm, Hpcm.
  assert (Hused_true : forall i, usage !! i = Some true -> data' !! i = Some None).
  { intros i Hi. rewrite (Hin i Hi).
    apply lookup_lt_Some in Hi.
    destruct (lookup_lt_is_Some_2 physical i ltac:(lia)) as [piece ->]. reflexivity. }
  unfold Upload.managedDistributeSegmentToWorkers.
  destruct (Z.ltb_spec 0 (ss * Upload.usedPieces usage)) as [Hpos|Hzero];
    eexists _, _; (split; [reflexivity|]);
    cbn [Upload.memoryReleased Upload.workersRemaining Upload.logicalSegmentData
         Upload.physicalSegmentData Upload.pieceUsage Upload.set_logicalSegmentData
         Upload.set_physicalSegmentData Upload.set_memoryReleased
         Upload.set_workersRemaining Upload.id];
    (split; [|split; [|split; [reflexivity|split; [|split; [reflexivity|split;
       [reflexivity|split; [exact Hdl|split; [exact Hused_true|split;
         [exact Hfree|exact Hout]]]]]]]]]).
  - rewrite !memoryReturned_app, Htr, Hlm, memoryReturned_queue.
    unfold Upload.memoryReturned. cbn [fold_right]. unfold amount. lia.
  - unfold u64_add, wrap_u64. rewrite Zplus_mod_idemp_l. f_equal. unfold amount. lia.
  - rewrite !queuedWorkers_app, Hq, Hlq, queuedWorkers_queue. reflexivity.
  - rewrite !memoryReturned_app, Htr, Hlm, memoryReturned_queue.
    unfold Upload.memoryReturned. cbn [fold_right]. unfold amount. nia.
  - unfold u64_add, wrap_u64. f_equal. unfold amount. nia.
  - rewrite !queuedWorkers_app, Hq, Hlq, queuedWorkers_queue. reflexivity.
Qed.

Lemma repair_distributes_segment_witness :
  let sc := localClient None in
  let uc := sampleSegment "/tmp/f" 1 0 in
  exists uc' tr',
    Upload.fetchAndRepairSegment_body sc ∅ uc = Some ({[ (7, 2) ]} ∪ ∅, uc', tr') /\
    Upload.memoryReturned tr' = 2 * 2 + 2 * 1 /\
    Upload.memoryReleased uc' = wrap_u64 (0 + (2 * 2 + 2 * 1)) /\
    Upload.workersRemaining uc' = int_add 0 2 /\
    queuedWorkers tr' = [1%nat; 2%nat] /\
    Upload.logicalSegmentData uc' = None /\
    Upload.pieceUsage uc' = [true; false; false; false] /\
    List.length (Upload.physicalSegmentData uc') = 4%nat /\
    (forall i, Upload.pieceUsage uc !! i = Some true ->
       Upload.physicalSegmentData uc' !! i = Some None) /\
    (forall i piece, Upload.pieceUsage uc !! i = Some false ->
       fst (Upload.Encode sc None) !! i = Some piece ->
       Upload.physicalSegmentData uc' !! i
       = Some (match Upload.Encrypt sc piece with Ok c => c | Err _ => piece end)) /\
    (forall i, (4 <= i)%nat ->
       Upload.physicalSegmentData uc' !! i = fst (Upload.Encode sc None) !! i).
Proof.
  eapply (repair_distributes_segment (localClient None) ∅
            (sampleSegment "/tmp/f" 1 0) _ _
            (fst (Upload.Encode (localClient None) None)));
    try reflexivity; cbn; unfold two64; lia.
Defined.

(** ** Releasing a segment *)

Lemma fileCloses_app (tr1 tr2 : list Upload.event) :
  fileCloses (tr1 ++ tr2) = (fileCloses tr1 + fileCloses tr2)%nat.
Proof. unfold fileCloses. now rewrite List.filter_app, length_app. Qed.

Lemma fileCloses_queue (workers : list nat) :
  fileCloses (map Upload.QueueUploadSegment workers) = 0%nat.
Proof. induction workers as [|w ws IH]; [reflexivity|exact IH]. Qed.

Lemma fileCloses_stuck_status (sc : Upload.StorageClient)
    (uc : Upload.unfinishedUploadSegment) :
  fileCloses (Upload.managedUpdateUploadSegmentStuckStatus sc uc) = 0%nat.
Proof.
  unfold Upload.managedUpdateUploadSegmentStuckStatus.
  destruct (_ && _); [reflexivity|].
  stuck_status_cases sc uc.
Qed.

Lemma stuckUpdates_app (tr1 tr2 : list Upload.event) :
  Upload.stuckUpdates (tr1 ++ tr2) = Upload.stuckUpdates tr1 ++ Upload.stuckUpdates tr2.
Proof. unfold Upload.stuckUpdates. apply flat_map_app. Qed.

Lemma stuckUpdates_queue (workers : list nat) :
  Upload.stuckUpdates (map Upload.QueueUploadSegment workers) = [].
Proof. induction workers as [|w ws IH]; [reflexivity|exact IH]. Qed.

(** X7: [managedCleanUpUploadSegment] releases a segment once.  It closes
    the file entry, and takes the segment out of the repairing set, exactly
    when the segment is complete and not released yet; otherwise it leaves
    the set alone and updates no stuck status.  [released] is then set, so
    that a second clean-up closes nothing, updates nothing and leaves the
    set as it is. *)
Theorem cleanup_releases_segment_once
    (sc : Upload.StorageClient) (repairing repairing1 : gset (Z * Z))
    (uc uc1 : Upload.unfinishedUploadSegment) (tr1 : list Upload.event) :
  (List.length (Upload.pieceUsage uc) <= List.length (Upload.physicalSegmentData uc))%nat ->
  0 <= Upload.storageSectorSize sc ->
  Upload.storageSectorSize sc * Z.of_nat (List.length (Upload.pieceUsage uc)) < two64 ->
  Z.of_nat (List.length (Upload.pieceUsage uc)) < 2 ^ 63 ->
  Upload.managedCleanUpUploadSegment sc repairing uc = Some (repairing1, uc1, tr1) ->
  let fresh := Upload.SegmentComplete uc && negb (Upload.released uc) in
  fileCloses tr1 = (if fresh then 1 else 0)%nat /\
  repairing1
  = (if fresh
     then repairing ∖ {[ (Upload.fid (Upload.id uc), Upload.id_index (Upload.id uc)) ]}
     else repairing) /\
  (fresh = false -> Upload.stuckUpdates tr1 = []) /\
  Upload.released uc1 = (Upload.released uc || Upload.SegmentComplete uc) /\
  exists uc2 tr2,
    Upload.managedCleanUpUploadSegment sc repairing1 uc1 = Some (repairing1, uc2, tr2) /\
    fileCloses tr2 = 0%nat /\
    Upload.stuckUpdates tr2 = [] /\
    Upload.released uc2 = Upload.released uc1.
Proof.
  intros Hlen Hss Hbound Hlenb Hrun fresh.
  destruct (cleanLoop_settled (Upload.storageSectorSize sc) (Upload.workersRemaining uc)
              _ _ Hlen Hss Hbound Hlenb)
    as (s1 & Hloop1 & Hlu1 & Hld1 & _).
  destruct (cleanup_outcome sc repairing uc s1 Hloop1)
    as (uc1' & Hrun1 & Hu1 & Hd1 & _ & _ & Hr1 & Hw1 & Hpc1 & Hpr1 & Hpn1 & _ & _).
  fold fresh in Hrun1. rewrite Hrun in Hrun1. injection Hrun1 as -> <- ->.
  assert (Hlen1 : (List.length (Upload.pieceUsage uc1)
                   <= List.length (Upload.physicalSegmentData uc1))%nat)
    by (rewrite Hu1, Hd1; lia).
  destruct (cleanLoop_settled (Upload.storageSectorSize sc) (Upload.workersRemaining uc1)
              (Upload.pieceUsage uc1) (Upload.physicalSegmentData uc1) Hlen1 Hss)
    as (s2 & Hloop2 & _); try (rewrite Hu1, Hlu1; assumption).
  destruct (cleanup_outcome sc
              (if fresh
               then repairing ∖ {[ (Upload.fid (Upload.id uc), Upload.id_index (Upload.id uc)) ]}
               else repairing) uc1 s2 Hloop2)
    as (uc2 & Hrun2 & _ & _ & _ & _ & Hr2 & _).
  assert (Hc1 : Upload.SegmentComplete uc1 = Upload.SegmentComplete uc)
    by (unfold Upload.SegmentComplete; now rewrite Hw1, Hpc1, Hpr1, Hpn1).
  assert (Hfresh2 : Upload.SegmentComplete uc1 && negb (Upload.released uc1) = false)
    by (rewrite Hc1, Hr1; destruct (Upload.SegmentComplete uc), (Upload.released uc);
        reflexivity).
  rewrite Hfresh2 in Hrun2.
  split; [|split; [reflexivity|split; [|split; [exact Hr1|]]]].
  - rewrite !fileCloses_app, fileCloses_queue.
    destruct fresh; rewrite ?fileCloses_app, ?fileCloses_stuck_status;
      repeat match goal with
             | |- context [if ?c then _ else _] => destruct c
             end; reflexivity.
  - intros ->. rewrite !stuckUpdates_app, stuckUpdates_queue.
    repeat match goal with
           | |- context [if ?c then _ else _] => destruct c
           end; reflexivity.
  - eexists _, _. split; [exact Hrun2|].
    split; [|split].
    + rewrite !fileCloses_app, fileCloses_queue.
      repeat match goal with
             | |- context [if ?c then _ else _] => destruct c
             end; reflexivity.
    + rewrite !stuckUpdates_app, stuckUpdates_queue.
      repeat match goal with
             | |- context [if ?c then _ else _] => destruct c
             end; reflexivity.
    + rewrite Hr2, Hc1, Hr1.
      destruct (Upload.SegmentComplete uc), (Upload.released uc); reflexivity.
Qed.

Lemma cleanup_releases_segment_once_witness :
  exists repairing1 uc1 tr1,
    Upload.managedCleanUpUploadSegment sampleClient {[ (7, 2) ]} (sampleSegment "" 4 0)
    = Some (repairing1, uc1, tr1) /\
    fileCloses tr1 = 1%nat /\
    repairing1 = {[ (7, 2) ]} ∖ {[ (7, 2) ]} /\
    (true = false -> Upload.stuckUpdates tr1 = []) /\
    Upload.released uc1 = (false || true) /\
    exists uc2 tr2,
      Upload.managedCleanUpUploadSegment sampleClient repairing1 uc1
      = Some (repairing1, uc2, tr2) /\
      fileCloses tr2 = 0%nat /\
      Upload.stuckUpdates tr2 = [] /\
      Upload.released uc2 = Upload.released uc1.
Proof.
  eexists _, _, _. split; [reflexivity|].
  eapply (cleanup_releases_segment_once sampleClient {[ (7, 2) ]} _ (sampleSegment "" 4 0));
    [cbn; lia | cbn; lia | cbn; unfold two64; lia | cbn; lia | reflexivity].
Defined.

(** ** The segments of a download *)

Lemma range_cons (a : Z) (n : nat) :
  map (fun k => a + Z.of_nat k) (seq 0 (S n))
  = a :: map (fun k => a + 1 + Z.of_nat k) (seq 0 n).
Proof.
  cbn [seq map]. f_equal; [lia|].
  rewrite <- seq_shift, map_map. apply map_ext. intros k. lia.
Qed.

(** Between the first and the last segment, the parts fetched follow one
    another: each starts at or after the offset of the request, is not
    empty, lies within its segment, and ends where the next one starts. *)
Lemma fetch_bounds (S si so ei eo a : Z) :
  0 < S -> 0 <= so < S -> 0 <= eo < S ->
  si <= a <= ei ->
  si * S + so < fetchStop S ei eo ei ->
  si * S + so <= fetchStart S si so a /\
  fetchStart S si so a < fetchStop S ei eo a /\
  fetchStop S ei eo a <= fetchStop S ei eo ei /\
  fetchStop S ei eo a <= (a + 1) * S /\
  (a < ei -> fetchStop S ei eo a = fetchStart S si so (a + 1)).
Proof.
  unfold fetchStart, fetchStop. intros HS Hso Heo Ha.
  rewrite (Z.eqb_refl ei).
  destruct (Z.eqb_spec a si) as [Has|Has];
    destruct (Z.eqb_spec a ei) as [Hae|Hae];
    destruct (Z.eqb_spec (a + 1) si); destruct (Z.eqb_spec eo 0);
    cbn [andb negb]; intros He; try subst a; try subst si;
    (split; [|split; [|split; [|split; [|intros Hlt]]]]); nia.
Qed.

(** The second loop of [newDownload], from segment [a] on. *)
Lemma queueSegments_tiles (p : Download.downloadParams) (f : Download.Snapshot)
    (si so ei eo : Z) :
  let S := Download.SegmentSize f in
  0 < S -> 0 <= so < S -> 0 <= eo < S -> 0 <= si ->
  si * S + so < fetchStop S ei eo ei ->
  fetchStop S ei eo ei < 2 ^ 63 ->
  forall (n : nat) (a : Z) (maps : list (gmap string Download.downloadSectorInfo)) (w : Z),
    List.length maps = n ->
    si <= a ->
    a + Z.of_nat n = ei + 1 ->
    ((0 < n)%nat -> w = fetchStart S si so a - (si * S + so)) ->
    let segs :=
      Download.queueSegments p f si so ei eo
        (map (fun k => a + Z.of_nat k) (seq 0 n)) maps w in
    List.length segs = n /\
    (forall k u, segs !! k = Some u ->
       Download.segmentIndex u = a + Z.of_nat k /\
       Download.fetchOffset u = (if a + Z.of_nat k =? si then so else 0) /\
       Download.fetchLength u
       = fetchStop S ei eo (a + Z.of_nat k) - fetchStart S si so (a + Z.of_nat k) /\
       Download.writeOffset u = fetchStart S si so (a + Z.of_nat k) - (si * S + so)) /\
    bytesFetched segs
    = (if n is O then 0 else fetchStop S ei eo ei - fetchStart S si so a).
Proof.
  intros S HS Hso Heo Hsi He Hmax.
  induction n as [|n IH]; intros a maps w Hlen Ha Hn Hw segs.
  - subst segs. cbn. split; [reflexivity|split; [|reflexivity]].
    intros k u Hk. rewrite lookup_nil in Hk. discriminate.
  - destruct maps as [|m maps]; [discriminate|].
    injection Hlen as Hlen.
    specialize (Hw ltac:(lia)).
    destruct (fetch_bounds S si so ei eo a HS Hso Heo ltac:(lia) He)
      as (Hlo & Hpos & Hhi & Hseg & Hnext).
    set (fo := if a =? si then so else 0).
    assert (Hfl : (if (a =? ei) && negb (eo =? 0)
                   then u64_sub eo fo else u64_sub S fo)
                  = fetchStop S ei eo a - fetchStart S si so a).
    { unfold fetchStop, fetchStart in *. fold fo in Hpos, Hlo, Hw |- *.
      destruct ((a =? ei) && negb (eo =? 0)); unfold u64_sub;
        rewrite wrap_u64_small; unfold two64; lia. }
    subst segs. rewrite range_cons.
    cbn [Download.queueSegments]. fold S fo. rewrite Hfl.
    set (fl := fetchStop S ei eo a - fetchStart S si so a) in *.
    assert (Hw' : wrap_int (w + wrap_int fl) = fetchStop S ei eo a - (si * S + so)).
    { rewrite (wrap_int_small fl) by (unfold fl; lia).
      rewrite wrap_int_small by (unfold fl; lia). unfold fl. lia. }
    rewrite Hw'.
    destruct (IH (a + 1) maps (fetchStop S ei eo a - (si * S + so)) Hlen
                ltac:(lia) ltac:(lia)) as (IHlen & IHk & IHsum).
    { intros Hn0. rewrite Hnext by lia. reflexivity. }
    split; [cbn [List.length]; now rewrite IHlen|]. split.
    + intros [|k] u Hk.
      * cbn in Hk. injection Hk as <-.
        cbn [Download.segmentIndex Download.fetchOffset Download.fetchLength
             Download.writeOffset].
        rewrite Z.add_0_r. fold fo.
        split; [reflexivity|split; [reflexivity|split; [reflexivity|exact Hw]]].
      * cbn in Hk. destruct (IHk k u Hk) as (H1 & H2 & H3 & H4).
        replace (a + Z.of_nat (Datatypes.S k)) with (a + 1 + Z.of_nat k) by lia.
        repeat split; assumption.
    + unfold bytesFetched in *. cbn [fold_right Download.fetchLength].
      rewrite IHsum. destruct n as [|n].
      * assert (a = ei) by lia. subst a. unfold fl. lia.
      * rewrite <- Hnext by lia. unfold fl. lia.
Qed.

(** X8: the segments that [newDownload] queues tile the request.  For a
    request of positive length that lies within a file of less than 2^63
    bytes, with segments of positive size and readable sectors, the download
    is returned not complete, [segmentsRemaining] is the number of segments
    queued, the segments are consecutive from the one that holds the offset,
    each fetches a non-empty part that lies within the segment, the part
    starts in the file where the bytes written before it end, only the first
    part may start inside a segment and only the last may end inside one,
    and the parts add up to the length asked for. *)
Theorem newDownload_tiles_request (p : Download.downloadParams) (f : Download.Snapshot) :
  let S := Download.SegmentSize f in
  Download.file p = Some f ->
  0 < S ->
  0 <= Download.offset p ->
  0 < Download.length p ->
  Download.offset p + Download.length p <= Download.FileSize f ->
  Download.FileSize f < 2 ^ 63 ->
  (forall i, exists s, Download.Sectors f i = Ok s) ->
  exists d segs,
    Download.newDownload p = Some (Ok (d, segs)) /\
    Download.d_complete d = false /\
    Download.d_segmentsRemaining d = Z.of_nat (List.length segs) /\
    (forall k u, segs !! k = Some u ->
       Download.segmentIndex u = Download.offset p / S + Z.of_nat k /\
       0 <= Download.fetchOffset u /\
       0 < Download.fetchLength u /\
       Download.fetchOffset u + Download.fetchLength u <= S /\
       Download.segmentIndex u * S + Download.fetchOffset u
       = Download.offset p + Download.writeOffset u /\
       ((0 < k)%nat -> Download.fetchOffset u = 0) /\
       ((k + 1 < List.length segs)%nat ->
        Download.fetchOffset u + Download.fetchLength u = S)) /\
    bytesFetched segs = Download.length p.
Proof.
  intros S Hf HS Ho Hl Hin Hsize Hsec.
  set (o := Download.offset p) in *. set (l := Download.length p) in *.
  unfold Download.newDownload. rewrite Hf. fold o l.
  unfold u64_add. rewrite wrap_u64_small by (unfold two64; lia).
  rewrite (proj2 (Z.ltb_ge _ _)) by lia.
  rewrite (proj2 (Z.eqb_neq l 0)) by lia.
  unfold Download.SegmentIndexByOffset. fold S.
  rewrite (proj2 (Z.eqb_neq S 0)) by lia.
  set (si := o / S). set (so := o mod S).
  set (ei0 := (o + l) / S). set (eo := (o + l) mod S).
  pose proof (Z.div_mod o S ltac:(lia)) as Hdo. fold si so in Hdo.
  pose proof (Z.div_mod (o + l) S ltac:(lia)) as Hde. fold ei0 eo in Hde.
  pose proof (Z.mod_pos_bound o S HS) as Hso. fold so in Hso.
  pose proof (Z.mod_pos_bound (o + l) S HS) as Heo. fold eo in Heo.
  assert (Hsi : 0 <= si) by (apply Z.div_pos; lia).
  assert (Hdiv : si <= ei0) by (apply Z.div_le_mono; lia).
  set (ei := if (0 <? ei0) && (eo =? 0) then ei0 - 1 else ei0).
  assert (Hstop : fetchStop S ei eo ei = o + l).
  { unfold fetchStop, ei. rewrite Z.eqb_refl.
    destruct (Z.eqb_spec eo 0) as [E|E]; cbn [andb negb].
    - assert (0 < ei0) by nia. rewrite (proj2 (Z.ltb_lt 0 ei0)) by lia.
      cbn [andb]. lia.
    - rewrite andb_false_r. lia. }
  assert (Hei : si <= ei).
  { unfold ei. destruct (Z.ltb_spec 0 ei0), (Z.eqb_spec eo 0); cbn [andb]; try lia.
    nia. }
  rewrite (proj2 (Z.ltb_ge _ _)) by lia.
  destruct (buildSegmentMaps_ok f (Download.segmentRange si ei) Hsec) as [maps [-> Hlen]].
  unfold Download.segmentRange in *. rewrite length_map, length_seq in Hlen.
  set (n := Z.to_nat (ei - si + 1)) in *.
  destruct (queueSegments_tiles p f si so ei eo HS Hso Heo Hsi
              ltac:(fold S; lia) ltac:(fold S; lia) n si maps 0 Hlen
              ltac:(lia) ltac:(lia)) as (Hn & Hk & Hsum).
  { intros _. unfold fetchStart. rewrite Z.eqb_refl. lia. }
  fold S in Hn, Hk, Hsum.
  eexists _, _. split; [reflexivity|]. split; [reflexivity|].
  split; [|split].
  - cbn [Download.d_segmentsRemaining]. rewrite Hn.
    assert (Hei0 : ei0 <= o + l) by nia.
    assert (Hle : ei <= ei0) by (unfold ei; destruct (_ && _); lia).
    unfold u64_sub, u64_add.
    rewrite (wrap_u64_small (ei - si)) by (unfold two64; lia).
    rewrite wrap_u64_small by (unfold two64; lia). lia.
  - intros k u Hu. rewrite Hn.
    assert (Hkn : (k < n)%nat) by (rewrite <- Hn; apply lookup_lt_Some in Hu; exact Hu).
    destruct (Hk k u Hu) as (H1 & H2 & H3 & H4).
    destruct (fetch_bounds S si so ei eo (si + Z.of_nat k) HS Hso Heo ltac:(lia)
                ltac:(lia)) as (Hlo & Hpos & Hhi & Hseg & Hnext).
    rewrite H1, H2, H3, H4. unfold fetchStart in *.
    destruct (Z.eqb_spec (si + Z.of_nat k) si) as [E|E];
      (split; [lia|split; [lia|split; [lia|split; [lia|split; [lia|split; [lia|]]]]]]);
      intros Hlt; specialize (Hnext ltac:(lia));
      destruct (si + Z.of_nat k + 1 =? si); lia.
  - rewrite Hsum. destruct n as [|n'] eqn:En; [lia|].
    unfold fetchStart. rewrite Z.eqb_refl. lia.
Qed.

Lemma newDownload_tiles_request_witness :
  let p := Download.mkParams (Some sampleSnapshot) 0 6 false 3 0 0 in
  exists d segs,
    Download.newDownload p = Some (Ok (d, segs)) /\
    Download.d_complete d = false /\
    Download.d_segmentsRemaining d = Z.of_nat (List.length segs) /\
    (forall k u, segs !! k = Some u ->
       Download.segmentIndex u = 3 / 4 + Z.of_nat k /\
       0 <= Download.fetchOffset u /\
       0 < Download.fetchLength u /\
       Download.fetchOffset u + Download.fetchLength u <= 4 /\
       Download.segmentIndex u * 4 + Download.fetchOffset u
       = 3 + Download.writeOffset u /\
       ((0 < k)%nat -> Download.fetchOffset u = 0) /\
       ((k + 1 < List.length segs)%nat ->
        Download.fetchOffset u + Download.fetchLength u = 4)) /\
    bytesFetched segs = 6.
Proof.
  apply (newDownload_tiles_request
           (Download.mkParams (Some sampleSnapshot) 0 6 false 3 0 0) sampleSnapshot);
    try reflexivity; cbn; try lia.
  intros i. eexists. reflexivity.
Defined.

(** ** Fetching the logical data, continued *)

(** X9: what [managedFetchLogicalSegmentData] leaves in the segment.  On an
    error the segment is as it was.  On success only the logical data has
    changed: when no download was made it is what was read from the local
    file, which is not empty-named, was opened, and was read without an
    error other than an end of file; when a download was made, it was the
    last call, for the length that [managedDownloadLogicalSegmentData]
    computes, and the logical data is the buffer of that download. *)
Theorem fetch_result_data
    (sc : Upload.StorageClient) (uc s : Upload.unfinishedUploadSegment)
    (r : result unit) (tr : list Upload.event) :
  Upload.managedFetchLogicalSegmentData sc uc = Some (r, s, tr) ->
  let path := Upload.LocalPath (Upload.fileEntry uc) in
  let read := Upload.readFrom sc path (Upload.offset uc) (wrap_int (Upload.length uc)) in
  match r with
  | Err _ => s = uc
  | Ok _ =>
      exists buf,
        s = Upload.set_logicalSegmentData (Some buf) uc /\
        if Upload.downloadIssued tr
        then exists len log,
               Upload.downloadLength uc = Some len /\
               tr = log ++ [Upload.NewDownload (Upload.repairDownloadParams uc len)] /\
               Upload.downloadIssued log = false /\
               Upload.waitDownload sc (Upload.repairDownloadParams uc len)
               = Upload.Downloaded buf
        else tr = [] /\ path <> "" /\ Upload.osOpen sc path = true /\
             snd read <> Upload.ReadFailed /\ buf = fst read
  end.
Proof.
  intros Hfetch path read. destruct r as [[]|msg].
  2: exact (fetch_error_keeps_segment _ _ _ _ _ Hfetch).
  revert Hfetch.
  unfold Upload.managedFetchLogicalSegmentData.
  destruct (Upload.fetchLogicalSegmentData_return sc uc) as [log|m log|buf] eqn:Hret.
  - unfold Upload.managedDownloadLogicalSegmentData.
    destruct (Upload.downloadLength uc) as [len|]; [|discriminate].
    destruct (Download.newDownload _) as [[ok|e]|]; [| |discriminate]; [|discriminate].
    destruct (Upload.waitDownload sc _) as [|m|buf] eqn:Hwait; try discriminate.
    intros [= <- <-]. exists buf. split; [reflexivity|].
    assert (Hlog : Upload.downloadIssued log = false).
    { revert Hret. fetch_return_cases; intros [= <-] || discriminate; reflexivity. }
    unfold Upload.downloadIssued in *. rewrite existsb_app, Hlog. cbn [existsb orb].
    exists len, log. repeat split; assumption.
  - discriminate.
  - intros [= <- <-]. exists buf. split; [reflexivity|].
    cbn [Upload.downloadIssued existsb]. split; [reflexivity|].
    revert Hret. unfold Upload.fetchLogicalSegmentData_return. fold path read.
    destruct (String.eqb_spec path "") as [E|E]; cbn [andb].
    + destruct (Upload.download sc uc); discriminate.
    + destruct (Upload.osOpen sc path); cbn [negb andb].
      * destruct read as [b err] eqn:Hread. cbn [fst snd].
        destruct err; try (intros [= <-]; repeat split; (assumption || discriminate)).
        destruct (Upload.download sc uc); discriminate.
      * destruct (Upload.download sc uc); discriminate.
Qed.

Lemma fetch_result_data_witness :
  let sc := localClient None in
  let uc := sampleSegment "/tmp/f" 1 0 in
  let path := Upload.LocalPath (Upload.fileEntry uc) in
  let read := Upload.readFrom sc path (Upload.offset uc) (wrap_int (Upload.length uc)) in
  exists buf,
    Upload.set_logicalSegmentData (Some [[Byte.x01; Byte.x02]]) uc
    = Upload.set_logicalSegmentData (Some buf) uc /\
    (@nil Upload.event = [] /\ path <> "" /\ Upload.osOpen sc path = true /\
     snd read <> Upload.ReadFailed /\ buf = fst read).
Proof.
  exact (fetch_result_data (localClient None) (sampleSegment "/tmp/f" 1 0) _ (Ok tt) []
           eq_refl).
Defined.

(** X10: the length of a repair download.  For a segment of positive
    length, [managedDownloadLogicalSegmentData] asks for between 1 and
    [length] bytes: [length] for a segment that is not the last of its file,
    and for the last one the amount that leaves a multiple of [length]
    before it.  For the last segment of a file, a segment of length zero
    makes the function panic on the remainder. *)
Theorem repair_download_length (sc : Upload.StorageClient)
    (uc : Upload.unfinishedUploadSegment) :
  let fe := Upload.fileEntry uc in
  let isLast := Upload.index uc =? wrap_u64 (int_sub (Upload.NumSegments fe) 1) in
  (0 < Upload.length uc ->
   exists len,
     Upload.downloadLength uc = Some len /\
     0 < len <= Upload.length uc /\
     (isLast = false -> len = Upload.length uc) /\
     (isLast = true -> (Upload.FileSize fe - len) mod Upload.length uc = 0)) /\
  (Upload.length uc = 0 -> isLast = true ->
   Upload.managedDownloadLogicalSegmentData sc uc = None).
Proof.
  intros fe isLast. split.
  - intros Hlen. unfold Upload.downloadLength. fold fe isLast.
    pose proof (Z.mod_pos_bound (Upload.FileSize fe) (Upload.length uc) Hlen) as Hmod.
    destruct isLast.
    + rewrite (proj2 (Z.eqb_neq (Upload.length uc) 0)) by lia.
      destruct (Z.eqb_spec (Upload.FileSize fe mod Upload.length uc) 0) as [E|E];
        cbn [negb]; eexists; (split; [reflexivity|]);
        (split; [lia|split; [discriminate|intros _]]).
      * rewrite Zminus_mod, E, Z_mod_same_full. reflexivity.
      * rewrite Zminus_mod, Z.mod_mod, Z.sub_diag by lia. reflexivity.
    + eexists. split; [reflexivity|]. split; [lia|]. split; [reflexivity|discriminate].
  - intros Hzero Hlast.
    unfold Upload.managedDownloadLogicalSegmentData, Upload.downloadLength.
    fold fe isLast. rewrite Hlast, Hzero. reflexivity.
Qed.

(** ** Parsing a currency, continued *)

(** Two prefixes of one list: one is a prefix of the other. *)
Lemma hasPrefix_chain (l : list ascii) :
  forall p q,
    Unit.hasPrefix p l = true -> Unit.hasPrefix q l = true ->
    Unit.hasPrefix p q || Unit.hasPrefix q p = true.
Proof.
  induction l as [|c l IH]; intros [|a p] [|b q] Hp Hq; try reflexivity;
    try discriminate.
  cbn in Hp, Hq |- *.
  apply andb_true_iff in Hp. destruct Hp as [Ha Hp].
  apply andb_true_iff in Hq. destruct Hq as [Hb Hq].
  apply Ascii.eqb_eq in Ha. apply Ascii.eqb_eq in Hb. subst a b.
  rewrite Ascii.eqb_refl. cbn [andb]. now apply IH.
Qed.

Lemma hasPrefix_trans (p q l : list ascii) :
  Unit.hasPrefix p q = true -> Unit.hasPrefix q l = true -> Unit.hasPrefix p l = true.
Proof.
  revert q l. induction p as [|a p IH]; intros [|b q] [|c l] Hpq Hql; try reflexivity;
    try discriminate.
  cbn in Hpq, Hql |- *.
  apply andb_true_iff in Hpq. destruct Hpq as [Hab Hpq].
  apply andb_true_iff in Hql. destruct Hql as [Hbc Hql].
  apply Ascii.eqb_eq in Hab. apply Ascii.eqb_eq in Hbc. subst b c.
  rewrite Ascii.eqb_refl. cbn [andb]. now apply (IH q l).
Qed.

(** At most one of the units that the loop of [ParseCurrency] tests is a
    suffix of a given string. *)
Lemma loop_unit_unique (s : string) (x y : string) :
  let P := fun unit =>
    negb (String.eqb unit "wei" || String.eqb unit "ether") && Unit.HasSuffix s unit in
  In x (map fst Unit.CurrencyIndexMap) ->
  In y (map fst Unit.CurrencyIndexMap) ->
  P x = true -> P y = true -> x = y.
Proof.
  intros P Hx Hy HPx HPy. subst P. cbn beta in HPx, HPy.
  apply andb_true_iff in HPx. destruct HPx as [Hnx Hsx].
  apply andb_true_iff in HPy. destruct HPy as [Hny Hsy].
  pose proof (hasPrefix_chain _ _ _ Hsx Hsy) as Hchain.
  cbn in Hx, Hy.
  repeat (destruct Hx as [<-|Hx]); try contradiction;
    repeat (destruct Hy as [<-|Hy]); try contradiction;
    try reflexivity; try discriminate Hnx; try discriminate Hny;
    vm_compute in Hchain; discriminate Hchain.
Qed.

(** X11: the result of [ParseCurrency] does not depend on the order in
    which the keys of [CurrencyIndexMap] are visited. *)
Theorem ParseCurrency_any_order (order1 order2 : list string) (s : string) :
  Unit.visits order1 ->
  Unit.visits order2 ->
  Unit.ParseCurrency order1 s = Unit.ParseCurrency order2 s.
Proof.
  intros H1 H2. unfold Unit.ParseCurrency.
  set (fs := Unit.formatString s).
  set (P := fun unit : string =>
              negb (String.eqb unit "wei" || String.eqb unit "ether")
              && Unit.HasSuffix fs unit).
  destruct (find P (map fst Unit.CurrencyIndexMap)) as [u|] eqn:Hfind.
  - apply find_some in Hfind. destruct Hfind as [Hin HPu].
    assert (Huniq : forall x, In x (map fst Unit.CurrencyIndexMap) -> P x = true -> x = u)
      by (intros x Hx HPx; exact (loop_unit_unique fs x u Hx Hin HPx HPu)).
    rewrite (find_visit_unique P order1 u H1 Hin HPu Huniq).
    rewrite (find_visit_unique P order2 u H2 Hin HPu Huniq). reflexivity.
  - pose proof (find_none _ _ Hfind) as Hnone.
    rewrite (find_visit_none P order1 H1 Hnone).
    rewrite (find_visit_none P order2 H2 Hnone). reflexivity.
Qed.

Lemma ParseCurrency_any_order_witness :
  Unit.ParseCurrency Unit.CurrencyUnit "3 Kwei"
  = Unit.ParseCurrency (rev Unit.CurrencyUnit) "3 Kwei".
Proof.
  apply (ParseCurrency_any_order Unit.CurrencyUnit (rev Unit.CurrencyUnit) "3 Kwei").
  - exact (Permutation_refl Unit.CurrencyUnit).
  - exact (Permutation_sym (Permutation_rev Unit.CurrencyUnit)).
Defined.

(** X12: [ParseCurrency] accepts no amount without a unit: every unit of the
    map ends in wei or in ether, so that a string which, without its white
    space and in lower case, ends in neither is refused with the error on
    the unit, whatever the order of the visit; and a string that is parsed
    ends in one of the two. *)
Theorem ParseCurrency_needs_unit (order : list string) (s : string) :
  Unit.visits order ->
  let fs := Unit.formatString s in
  (Unit.HasSuffix fs "wei" = false -> Unit.HasSuffix fs "ether" = false ->
   Unit.ParseCurrency order s = Err "the provided currency unit is invalid") /\
  (forall v, Unit.ParseCurrency order s = Ok v ->
     Unit.HasSuffix fs "wei" = true \/ Unit.HasSuffix fs "ether" = true).
Proof.
  intros Hvis fs.
  set (P := fun unit : string =>
              negb (String.eqb unit "wei" || String.eqb unit "ether")
              && Unit.HasSuffix fs unit).
  assert (Hfind : Unit.HasSuffix fs "wei" = false -> Unit.HasSuffix fs "ether" = false ->
                  find P order = None).
  { intros Hw He. apply find_visit_none; [exact Hvis|].
    intros x Hx. subst P. cbn beta.
    destruct (Unit.HasSuffix fs x) eqn:Hsx; [|apply andb_false_r].
    assert (Hends : Unit.HasSuffix x "wei" || Unit.HasSuffix x "ether" = true)
      by (cbn in Hx; repeat (destruct Hx as [<-|Hx]); try contradiction; reflexivity).
    unfold Unit.HasSuffix in *.
    apply orb_true_iff in Hends. destruct Hends as [Hends|Hends].
    - rewrite (hasPrefix_trans _ _ _ Hends Hsx) in Hw. discriminate.
    - rewrite (hasPrefix_trans _ _ _ Hends Hsx) in He. discriminate. }
  split.
  - intros Hw He. unfold Unit.ParseCurrency. fold fs P.
    rewrite (Hfind Hw He), Hw, He. reflexivity.
  - intros v Hv.
    destruct (Unit.HasSuffix fs "wei") eqn:Hw; [now left|].
    destruct (Unit.HasSuffix fs "ether") eqn:He; [now right|].
    unfold Unit.ParseCurrency in Hv. fold fs P in Hv.
    rewrite (Hfind eq_refl eq_refl), Hw, He in Hv. discriminate.
Qed.

Lemma ParseCurrency_needs_unit_witness :
  let fs := Unit.formatString "12 eth" in
  (Unit.HasSuffix fs "wei" = false -> Unit.HasSuffix fs "ether" = false ->
   Unit.ParseCurrency (rev Unit.CurrencyUnit) "12 eth"
   = Err "the provided currency unit is invalid") /\
  (forall v, Unit.ParseCurrency (rev Unit.CurrencyUnit) "12 eth" = Ok v ->
     Unit.HasSuffix fs "wei" = true \/ Unit.HasSuffix fs "ether" = true).
Proof.
  apply (ParseCurrency_needs_unit (rev Unit.CurrencyUnit) "12 eth").
  exact (Permutation_sym (Permutation_rev Unit.CurrencyUnit)).
Defined.

(** ** Big integers *)

(** X13: [Div] never divides by zero: a denominator of zero is taken as
    one, so that the quotient is the numerator; for any other denominator,
    negative ones included, the quotient leaves a remainder that is not
    negative and is smaller than the denominator in absolute value. *)
Theorem BigInt_Div_euclidean (x y : Z) :
  BigInt.Div x 0 = x /\
  (y <> 0 ->
   exists r, x = y * BigInt.Div x y + r /\ 0 <= r < Z.abs y).
Proof.
  split.
  - unfold BigInt.Div, BigInt.bigDiv. cbn. rewrite Z.div_1_r. destruct x; reflexivity.
  - intros Hy. exists (x mod Z.abs y).
    assert (Hcmp : (BigInt.Cmp y 0 =? 0) = false)
      by (unfold BigInt.Cmp; destruct y; [contradiction|reflexivity..]).
    unfold BigInt.Div, BigInt.bigDiv. rewrite Hcmp.
    pose proof (Z.div_mod x (Z.abs y) ltac:(lia)) as Hdm.
    pose proof (Z.mod_pos_bound x (Z.abs y) ltac:(lia)) as Hmod.
    split; [|exact Hmod].
    assert (Hsgn : y * Z.sgn y = Z.abs y) by (destruct y; cbn; lia).
    rewrite Z.mul_assoc, Hsgn. exact Hdm.
Qed.

Lemma SetString10_numeral (d : Decimal.uint) :
  d <> Decimal.Nil ->
  BigInt.SetString10 (NilEmpty.string_of_uint d) = Some (Z.of_uint d) /\
  BigInt.SetString10 (String "-" (NilEmpty.string_of_uint d)) = Some (- Z.of_uint d) /\
  String.eqb (NilEmpty.string_of_uint d) "null" = false.
Proof.
  intros Hd. pose proof (NilZero.usu d Hd) as Hu.
  replace (NilZero.string_of_uint d) with (NilEmpty.string_of_uint d) in Hu
    by (destruct d; [contradiction|reflexivity..]).
  split; [|split].
  - destruct d; [contradiction|..]; cbn [NilEmpty.string_of_uint] in *;
      unfold BigInt.SetString10; cbv iota beta; rewrite Hu; reflexivity.
  - unfold BigInt.SetString10. cbv iota beta. rewrite Hu. reflexivity.
  - destruct d; [contradiction|reflexivity..].
Qed.

(** X14: a big integer written by [MarshalJSON] is read back by
    [UnmarshalJSON] as the same integer, whatever its sign and whatever the
    receiver held; [null] leaves the receiver as it is and is no error; and
    so does any input that is refused. *)
Theorem BigInt_JSON_round_trip (x0 x : Z) (val : string) :
  BigInt.UnmarshalJSON x0 (BigInt.MarshalJSON x) = (x, Ok tt) /\
  BigInt.UnmarshalJSON x0 "null" = (x0, Ok tt) /\
  (snd (BigInt.UnmarshalJSON x0 val) <> Ok tt -> fst (BigInt.UnmarshalJSON x0 val) = x0).
Proof.
  split; [|split].
  - unfold BigInt.UnmarshalJSON, BigInt.MarshalJSON, Unit.BigInt_String.
    destruct x as [|p|p].
    + reflexivity.
    + pose proof (DecimalPos.Unsigned.to_uint_nonnil p) as Hnil.
      destruct (SetString10_numeral (Pos.to_uint p) Hnil) as (Hpos & _ & Hnull).
      unfold Z.to_int, NilZero.string_of_int, NilZero.string_of_uint.
      replace (match Pos.to_uint p with
               | Decimal.Nil => "0"%string
               | _ => NilEmpty.string_of_uint (Pos.to_uint p)
               end) with (NilEmpty.string_of_uint (Pos.to_uint p))
        by (destruct (Pos.to_uint p); [contradiction|reflexivity..]).
      rewrite Hnull, Hpos. unfold Z.of_uint.
      now rewrite DecimalPos.Unsigned.of_to.
    + pose proof (DecimalPos.Unsigned.to_uint_nonnil p) as Hnil.
      destruct (SetString10_numeral (Pos.to_uint p) Hnil) as (_ & Hneg & _).
      unfold Z.to_int, NilZero.string_of_int, NilZero.string_of_uint.
      replace (match Pos.to_uint p with
               | Decimal.Nil => "0"%string
               | _ => NilEmpty.string_of_uint (Pos.to_uint p)
               end) with (NilEmpty.string_of_uint (Pos.to_uint p))
        by (destruct (Pos.to_uint p); [contradiction|reflexivity..]).
      change (String.eqb (String "-" ?s) "null") with false.
      cbv iota. rewrite Hneg. unfold Z.of_uint.
      now rewrite DecimalPos.Unsigned.of_to.
  - reflexivity.
  - unfold BigInt.UnmarshalJSON.
    destruct (String.eqb val "null"); [reflexivity|].
    destruct (BigInt.SetString10 val); [|reflexivity].
    cbn. congruence.
Qed.

(** ** The directory set *)

Lemma consistent_NewDirSet (root : string) :
  DirEntries.consistent (DirEntries.NewDirSet root).
Proof. intros path ptr H. cbn in H. rewrite lookup_empty in H. discriminate. Qed.

(** X15: opening and closing keep the directory set consistent: every
    directory of the map is held by at least one thread and is filed under
    its own path, after any [open] that loads a directory saved under the
    path it is opened with, and after any [closeEntry]. *)
Theorem dirset_stays_consistent
    (load : string -> result DxDir.DxDir) (tid : Z)
    (ds : DirEntries.DirSet) (path : string) (entry : DirEntries.DirSetEntryWithId) :
  DirEntries.consistent ds ->
  (forall d, load (DirEntries.dirPath ds path) = Ok d ->
             DxDir.DxPath (DxDir.metadata d) = path) ->
  DirEntries.consistent (snd (DirEntries.open load tid ds path)) /\
  (forall ds', DirEntries.closeEntry ds entry = Some ds' -> DirEntries.consistent ds').
Proof.
  intros Hcons Hload. split.
  - unfold DirEntries.open.
    destruct (DirEntries.dirMap ds !! path) as [ptr|] eqn:Hmap.
    + intros path' a Ha. cbn in Ha |- *.
      destruct (Hcons path' a Ha) as (e & He & Hne & Hp).
      destruct (decide (a = ptr)) as [->|Hneq].
      * exists (DirEntries.addThread tid e).
        rewrite list_lookup_alter_eq, He. split; [reflexivity|]. split; [|exact Hp].
        cbn. set_solver.
      * exists e. rewrite list_lookup_alter_ne by congruence. auto.
    + destruct (load (DirEntries.dirPath ds path)) as [d|err] eqn:Hl; [|exact Hcons].
      intros path' a Ha. cbn in Ha |- *.
      destruct (decide (path' = path)) as [->|Hneq].
      * rewrite lookup_insert_eq in Ha. injection Ha as <-.
        eexists. rewrite list_lookup_middle by reflexivity.
        split; [reflexivity|]. split; [cbn; set_solver|]. cbn. now apply Hload.
      * rewrite lookup_insert_ne in Ha by congruence.
        destruct (Hcons path' a Ha) as (e & He & Hne & Hp).
        exists e. rewrite lookup_app_l by (apply lookup_lt_Some in He; exact He). auto.
  - intros ds'. unfold DirEntries.closeEntry.
    destruct entry as [ptr t]. cbn [DirEntries.entryPtr DirEntries.threadID].
    destruct (DirEntries.entries ds !! ptr) as [e|] eqn:He; [|discriminate].
    set (key := DxDir.DxPath (DxDir.metadata (DirEntries.dxDir e))).
    set (e' := DirEntries.mkEntry _ _).
    assert (Hother : forall path' a,
               DirEntries.dirMap ds !! path' = Some a -> a <> ptr ->
               exists e0,
                 <[ptr := e']> (DirEntries.entries ds) !! a = Some e0 /\
                 DirEntries.threadMap e0 <> ∅ /\
                 DxDir.DxPath (DxDir.metadata (DirEntries.dxDir e0)) = path').
    { intros path' a Ha Hneq. destruct (Hcons path' a Ha) as (e0 & He0 & Hne & Hp).
      exists e0. rewrite list_lookup_insert_ne by congruence. auto. }
    assert (Hself : forall path', DirEntries.dirMap ds !! path' = Some ptr -> path' = key).
    { intros path' Ha. destruct (Hcons path' ptr Ha) as (e0 & He0 & _ & Hp).
      rewrite He in He0. injection He0 as <-. now rewrite <- Hp. }
    assert (Hlt : (ptr < List.length (DirEntries.entries ds))%nat)
      by (apply lookup_lt_Some in He; exact He).
    destruct (DirEntries.dirMap ds !! key) as [cur|] eqn:Hkey.
    + destruct (Nat.eqb_spec cur ptr) as [->|Hcur]; cbn [negb].
      * destruct (Nat.eqb_spec (size (DirEntries.threadMap e')) 0) as [Hz|Hnz];
          intros [= <-]; intros path' a Ha; cbn in Ha |- *.
        -- apply lookup_delete_Some in Ha. destruct Ha as [Hneq Ha].
           apply (Hother path' a Ha). intros ->. apply Hneq. symmetry. now apply Hself.
        -- destruct (decide (a = ptr)) as [->|Hneq]; [|now apply (Hother path' a Ha)].
           exists e'. rewrite list_lookup_insert_eq by exact Hlt.
           split; [reflexivity|]. split.
           ++ intros Hempty. apply Hnz. rewrite Hempty. apply size_empty.
           ++ cbn. fold key. symmetry. now apply Hself.
      * intros [= <-]. intros path' a Ha. cbn in Ha |- *.
        apply (Hother path' a Ha). intros ->.
        rewrite (Hself path' Ha) in Ha. congruence.
    + intros [= <-]. intros path' a Ha. cbn in Ha |- *.
      apply (Hother path' a Ha). intros ->.
      rewrite (Hself path' Ha) in Ha. congruence.
Qed.

Lemma dirset_stays_consistent_witness :
  let ds := snd (DirEntries.open (sampleLoad "a") 7 (DirEntries.NewDirSet "/data") "a") in
  DirEntries.consistent (snd (DirEntries.open (sampleLoad "b") 8 ds "b")) /\
  (forall ds', DirEntries.closeEntry ds (DirEntries.mkHandle 0 7) = Some ds' ->
               DirEntries.consistent ds').
Proof.
  assert (Hload : forall (p : string) (ds : DirEntries.DirSet) (d : DxDir.DxDir),
             DirEntries.rootDir ds = "/data" ->
             sampleLoad p (DirEntries.dirPath ds p) = Ok d ->
             DxDir.DxPath (DxDir.metadata d) = p).
  { intros p ds d Hroot. unfold sampleLoad, DirEntries.dirPath. rewrite Hroot.
    rewrite String.eqb_refl. intros [= <-]. reflexivity. }
  intros ds.
  apply (dirset_stays_consistent (sampleLoad "b") 8 ds "b" (DirEntries.mkHandle 0 7)).
  - exact (proj1 (dirset_stays_consistent (sampleLoad "a") 7 (DirEntries.NewDirSet "/data")
                    "a" (DirEntries.mkHandle 0 7)
                    (consistent_NewDirSet "/data")
                    (fun d => Hload "a" (DirEntries.NewDirSet "/data") d eq_refl))).
  - intros d. apply Hload. reflexivity.
Defined.

Lemma two_threads (t1 t2 ta tb : Z) :
  t1 <> t2 ->
  (ta = t1 /\ tb = t2) \/ (ta = t2 /\ tb = t1) ->
  ({[ t2 ]} ∪ ({[ t1 ]} ∪ ∅) : gset Z) = {[ t1; t2 ]} /\
  (({[ t2 ]} ∪ ({[ t1 ]} ∪ ∅)) ∖ {[ ta ]} : gset Z) = {[ tb ]} /\
  (({[ tb ]} : gset Z) ∖ {[ tb ]}) = ∅.
Proof.
  intros Hneq Horder.
  repeat split; apply set_eq; intros x;
    rewrite ?elem_of_difference, ?elem_of_union, ?elem_of_singleton, ?elem_of_empty;
    destruct Horder as [[-> ->]|[-> ->]]; intuition congruence.
Qed.

(** X16: a directory opened twice is loaded once and shared, and leaves the
    set with its last holder.  When a directory that is not in the map is
    opened by two threads with different ids, the second [open] loads
    nothing and returns the entry of the first; closing one of the two, in
    either order, keeps the directory in the map, and closing the other
    takes it out, which leaves the map as it was before. *)
Theorem open_shares_close_evicts
    (load load2 : string -> result DxDir.DxDir) (t1 t2 ta tb : Z)
    (ds : DirEntries.DirSet) (path : string) (d : DxDir.DxDir) :
  DirEntries.dirMap ds !! path = None ->
  load (DirEntries.dirPath ds path) = Ok d ->
  DxDir.DxPath (DxDir.metadata d) = path ->
  t1 <> t2 ->
  (ta = t1 /\ tb = t2) \/ (ta = t2 /\ tb = t1) ->
  exists ptr ds1 ds2 ds3 ds4 e2,
    DirEntries.open load t1 ds path = (Ok (DirEntries.mkHandle ptr t1), ds1) /\
    DirEntries.open load2 t2 ds1 path = (Ok (DirEntries.mkHandle ptr t2), ds2) /\
    DirEntries.entries ds2 !! ptr = Some e2 /\
    DirEntries.dxDir e2 = d /\
    DirEntries.threadMap e2 = {[ t1; t2 ]} /\
    DirEntries.closeEntry ds2 (DirEntries.mkHandle ptr ta) = Some ds3 /\
    DirEntries.dirMap ds3 !! path = Some ptr /\
    DirEntries.closeEntry ds3 (DirEntries.mkHandle ptr tb) = Some ds4 /\
    DirEntries.dirMap ds4 = DirEntries.dirMap ds.
Proof.
  intros Hmap Hload Hpath Hneq Horder.
  destruct (two_threads t1 t2 ta tb Hneq Horder) as (H12 & H3 & H4).
  pose (ptr := List.length (DirEntries.entries ds)).
  pose (e1 := DirEntries.addThread t1 (DirEntries.newDirSetEntry d)).
  pose (e2 := DirEntries.addThread t2 e1).
  pose (e3 := DirEntries.mkEntry d {[ tb ]}).
  pose (e4 := DirEntries.mkEntry d ∅).
  pose (m1 := <[path := ptr]> (DirEntries.dirMap ds)).
  pose (l2 := alter (DirEntries.addThread t2) ptr (DirEntries.entries ds ++ [e1])).
  assert (Hl2 : l2 !! ptr = Some e2).
  { unfold l2. rewrite list_lookup_alter_eq, list_lookup_middle by reflexivity.
    reflexivity. }
  assert (Hlt2 : (ptr < List.length l2)%nat) by (apply lookup_lt_Some in Hl2; exact Hl2).
  assert (Hl3 : <[ptr := e3]> l2 !! ptr = Some e3)
    by (apply list_lookup_insert_eq; exact Hlt2).
  exists ptr,
    (DirEntries.mkSet (DirEntries.rootDir ds) m1 (DirEntries.entries ds ++ [e1])),
    (DirEntries.mkSet (DirEntries.rootDir ds) m1 l2),
    (DirEntries.mkSet (DirEntries.rootDir ds) m1 (<[ptr := e3]> l2)),
    (DirEntries.mkSet (DirEntries.rootDir ds) (delete path m1)
       (<[ptr := e4]> (<[ptr := e3]> l2))),
    e2.
  split.
  { unfold DirEntries.open. rewrite Hmap, Hload. reflexivity. }
  split.
  { unfold DirEntries.open. cbn [DirEntries.dirMap]. unfold m1 at 1.
    rewrite lookup_insert_eq. reflexivity. }
  split; [exact Hl2|]. split; [reflexivity|]. split; [exact H12|].
  split.
  { unfold DirEntries.closeEntry.
    cbn [DirEntries.entries DirEntries.entryPtr DirEntries.threadID DirEntries.dirMap
         DirEntries.rootDir].
    rewrite Hl2.
    change (DirEntries.dxDir e2) with d.
    change (DirEntries.threadMap e2) with ({[ t2 ]} ∪ ({[ t1 ]} ∪ ∅) : gset Z).
    rewrite Hpath, H3. unfold m1 at 1. rewrite lookup_insert_eq, Nat.eqb_refl.
    cbn [negb DirEntries.threadMap]. rewrite size_singleton. reflexivity. }
  split.
  { cbn [DirEntries.dirMap]. apply lookup_insert_eq. }
  split.
  { unfold DirEntries.closeEntry.
    cbn [DirEntries.entries DirEntries.entryPtr DirEntries.threadID DirEntries.dirMap
         DirEntries.rootDir].
    rewrite Hl3.
    change (DirEntries.dxDir e3) with d.
    change (DirEntries.threadMap e3) with ({[ tb ]} : gset Z).
    rewrite Hpath, H4. unfold m1 at 1. rewrite lookup_insert_eq, Nat.eqb_refl.
    cbn [negb DirEntries.threadMap]. rewrite size_empty. reflexivity. }
  cbn [DirEntries.dirMap]. unfold m1. rewrite delete_insert_eq. apply delete_id. exact Hmap.
Qed.

Lemma open_shares_close_evicts_witness :
  let ds := DirEntries.NewDirSet "/data" in
  exists ptr ds1 ds2 ds3 ds4 e2,
    DirEntries.open (sampleLoad "a") 7 ds "a" = (Ok (DirEntries.mkHandle ptr 7), ds1) /\
    DirEntries.open (fun _ => Err "unreadable") 8 ds1 "a"
    = (Ok (DirEntries.mkHandle ptr 8), ds2) /\
    DirEntries.entries ds2 !! ptr = Some e2 /\
    DirEntries.dxDir e2 = sampleDir "a" /\
    DirEntries.threadMap e2 = {[ 7; 8 ]} /\
    DirEntries.closeEntry ds2 (DirEntries.mkHandle ptr 8) = Some ds3 /\
    DirEntries.dirMap ds3 !! "a" = Some ptr /\
    DirEntries.closeEntry ds3 (DirEntries.mkHandle ptr 7) = Some ds4 /\
    DirEntries.dirMap ds4 = DirEntries.dirMap ds.
Proof.
  apply (open_shares_close_evicts (sampleLoad "a") (fun _ => Err "unreadable") 7 8 8 7
           (DirEntries.NewDirSet "/data") "a" (sampleDir "a")).
  - reflexivity.
  - reflexivity.
  - reflexivity.
  - discriminate.
  - right. split; reflexivity.
Defined.

(** ** The times of a file *)

(** A signed 64-bit number survives being kept in 64 unsigned bits. *)
Lemma wrap_int_u64 (t : Z) : - 2 ^ 63 <= t < 2 ^ 63 -> wrap_int (wrap_u64 t) = t.
Proof.
  intros Ht. unfold wrap_int, wrap_u64, two64.
  rewrite Zplus_mod_idemp_l. rewrite Z.mod_small; lia.
Qed.

(** X17: the access time and the time of the last repair are read back as
    they were set when they are at or after the epoch; a time before the
    epoch is read back as the zero time, with an overflow logged.  The field
    is written whether or not saving succeeds, the setter returns the
    result of saving, and setting one of the two does not change what the
    other reads. *)
Theorem time_set_then_get (saveErr : option string) (t : Z) (df : DxFile.DxFile) :
  - 2 ^ 63 <= t < 2 ^ 63 ->
  let read (overflow : string) :=
    if t <? 0 then (DxFile.zeroTime, Some overflow) else (t, None) in
  DxFile.TimeAccess_ (fst (DxFile.SetTimeAccess saveErr t df))
  = read "TimeAccess uint64 overflow" /\
  DxFile.LastTimeRecentRepair (fst (DxFile.SetTimeRecentRepair saveErr t df))
  = read "TimeRecentRepair uint64 overflow" /\
  snd (DxFile.SetTimeAccess saveErr t df) = saveErr /\
  snd (DxFile.SetTimeRecentRepair saveErr t df) = saveErr /\
  DxFile.LastTimeRecentRepair (fst (DxFile.SetTimeAccess saveErr t df))
  = DxFile.LastTimeRecentRepair df /\
  DxFile.TimeAccess_ (fst (DxFile.SetTimeRecentRepair saveErr t df))
  = DxFile.TimeAccess_ df.
Proof.
  intros Ht read. subst read.
  unfold DxFile.TimeAccess_, DxFile.LastTimeRecentRepair, DxFile.timeOf. cbn.
  rewrite (wrap_int_u64 t Ht). repeat split; destruct (t <? 0); reflexivity.
Qed.

Lemma time_set_then_get_witness :
  let df := DxFile.mkDxFile (DxFile.mkMetadata 10 2 "" "f" 0 0 0 0 0 0 420) "/data/f" in
  DxFile.TimeAccess_ (fst (DxFile.SetTimeAccess None (-5) df))
  = (DxFile.zeroTime, Some "TimeAccess uint64 overflow"%string) /\
  DxFile.LastTimeRecentRepair (fst (DxFile.SetTimeRecentRepair None (-5) df))
  = (DxFile.zeroTime, Some "TimeRecentRepair uint64 overflow"%string) /\
  snd (DxFile.SetTimeAccess None (-5) df) = None /\
  snd (DxFile.SetTimeRecentRepair None (-5) df) = None /\
  DxFile.LastTimeRecentRepair (fst (DxFile.SetTimeAccess None (-5) df))
  = DxFile.LastTimeRecentRepair df /\
  DxFile.TimeAccess_ (fst (DxFile.SetTimeRecentRepair None (-5) df))
  = DxFile.TimeAccess_ df.
Proof.
  intros df. apply (time_set_then_get None (-5) df). lia.
Defined.

(** X18: the time of the last health check is read under the guard of
    another field, the time of the last repair.  Whatever time is set, before
    the epoch or after, it is read back as it was set when the time of
    the last repair fits in 63 bits, and as the zero time, with an overflow
    logged, when it does not; so setting the time of the last repair to a
    time before the epoch makes the last health check read as the zero
    time. *)
Theorem health_check_time_guard
    (saveErr : option string) (t repair : Z) (df : DxFile.DxFile) :
  - 2 ^ 63 <= t < 2 ^ 63 ->
  - 2 ^ 63 <= repair < 2 ^ 63 ->
  DxFile.TimeLastHealthCheck_ (fst (DxFile.SetTimeLastHealthCheck saveErr t df))
  = (if wrap_int (DxFile.TimeRecentRepair (DxFile.metadata df)) <? 0
     then (DxFile.zeroTime, Some "TimeRecentRepair uint64 overflow"%string)
     else (t, None)) /\
  DxFile.TimeLastHealthCheck_
    (fst (DxFile.SetTimeRecentRepair saveErr repair
            (fst (DxFile.SetTimeLastHealthCheck saveErr t df))))
  = (if repair <? 0
     then (DxFile.zeroTime, Some "TimeRecentRepair uint64 overflow"%string)
     else (t, None)).
Proof.
  intros Ht Hr. unfold DxFile.TimeLastHealthCheck_, DxFile.timeOf. cbn.
  rewrite (wrap_int_u64 t Ht), (wrap_int_u64 repair Hr). split; reflexivity.
Qed.

Lemma health_check_time_guard_witness :
  let df := DxFile.mkDxFile (DxFile.mkMetadata 10 2 "" "f" 0 0 0 0 0 0 420) "/data/f" in
  DxFile.TimeLastHealthCheck_ (fst (DxFile.SetTimeLastHealthCheck None (-5) df))
  = (if wrap_int 0 <? 0
     then (DxFile.zeroTime, Some "TimeRecentRepair uint64 overflow"%string)
     else (-5, None)) /\
  DxFile.TimeLastHealthCheck_
    (fst (DxFile.SetTimeRecentRepair None (-1)
            (fst (DxFile.SetTimeLastHealthCheck None (-5) df))))
  = (if -1 <? 0
     then (DxFile.zeroTime, Some "TimeRecentRepair uint64 overflow"%string)
     else (-5, None)).
Proof.
  intros df. apply (health_check_time_guard None (-5) (-1) df); lia.
Defined.

(** ** Creating a download *)

(** A download that [newDownload] returns carries the offset and the length
    asked for, and the length lies within the file. *)
Lemma newDownload_ok_fields (p : Download.downloadParams) (f : Download.Snapshot)
    (d : Download.download) (segs : list Download.unfinishedDownloadSegment) :
  Download.file p = Some f ->
  Download.newDownload p = Some (Ok (d, segs)) ->
  Download.d_offset d = Download.offset p /\
  Download.d_length d = Download.length p /\
  u64_add (Download.offset p) (Download.length p) <= Download.FileSize f.
Proof.
  intros Hf. unfold Download.newDownload. rewrite Hf.
  destruct (Z.ltb_spec (Download.FileSize f) (u64_add (Download.offset p) (Download.length p)))
    as [Hlt|Hge]; [discriminate|].
  destruct (Download.length p =? 0); [intros [= <- _]; repeat split; assumption|].
  destruct (Download.SegmentIndexByOffset f (Download.offset p)) as [[si so]|]; [|discriminate].
  destruct (Download.SegmentIndexByOffset f _) as [[ei eo]|]; [|discriminate].
  match goal with |- context [if ?c then None else _] => destruct c end; [discriminate|].
  destruct (Download.buildSegmentMaps _ _); [|discriminate].
  intros [= <- _]. repeat split; assumption.
Qed.

(** Where [createDownload] writes. *)
Lemma destinationPath_cases (sys : Client.System) (w dest : string) :
  Client.destinationPath sys w = Ok dest ->
  (dest = w /\ (w = "" \/ Client.IsAbs w = true)) \/
  (Client.IsAbs w = false /\ Client.containsSlash w = false /\ Client.HOME sys <> "" /\
   exists home, Client.userHomeDir sys = Ok home /\ dest = DxDir.Join [home; w]).
Proof.
  unfold Client.destinationPath.
  destruct (String.eqb_spec w "") as [->|Hw]; cbn [negb andb].
  - intros [= <-]. left. auto.
  - destruct (Client.IsAbs w) eqn:Habs; cbn [negb].
    + intros [= <-]. left. auto.
    + destruct (Client.containsSlash w) eqn:Hslash; [discriminate|].
      destruct (String.eqb_spec (Client.HOME sys) "") as [Hh|Hh]; [discriminate|].
      destruct (Client.userHomeDir sys) as [home|e] eqn:Hu; [|discriminate].
      intros [= <-]. right. repeat split; try assumption. exists home. auto.
Qed.

(** X19: [createDownload] always asks for the whole file.  It returns, with
    no panic, when the segments of the file have a positive size and the
    size of the file fits in 64 bits.  Whatever it returns: when the path
    or the opening of the file entry fails nothing is done; once the file
    entry is open, the access time is set and then the entry closed, last
    and whatever the outcome, after at most one file opened and closed; the
    file opened is the one named by the request when that is an absolute
    path, else the name, which must have no directory part, in the home
    directory; that file is closed exactly when [newDownload] is reached
    and fails; and a download that is returned is the one that
    [newDownload] makes from offset 0 for the size of the file, which lies
    within the snapshot. *)
Theorem createDownload_whole_file (sys : Client.System) (p : Client.DownloadParameters) :
  (forall dxPath entry snap,
     Client.NewDxPath sys (Client.RemoteFilePath p) = Ok dxPath ->
     Client.OpenDxFile sys dxPath = Ok entry ->
     Client.entrySnapshot entry = Ok snap ->
     0 < Download.SegmentSize snap ->
     0 <= Client.entryFileSize entry < two64 ->
     exists r tr, Client.createDownload sys p = Some (r, tr)) /\
  (forall r tr,
     Client.createDownload sys p = Some (r, tr) ->
     (forall e, Client.NewDxPath sys (Client.RemoteFilePath p) = Err e ->
                tr = [] /\ r = Err e) /\
     (forall dxPath e,
        Client.NewDxPath sys (Client.RemoteFilePath p) = Ok dxPath ->
        Client.OpenDxFile sys dxPath = Err e ->
        tr = [] /\ r = Err e) /\
     (forall dxPath entry,
        Client.NewDxPath sys (Client.RemoteFilePath p) = Ok dxPath ->
        Client.OpenDxFile sys dxPath = Ok entry ->
        tr = map Client.OpenedFile (Client.opened tr)
             ++ map Client.ClosedFile (Client.closed tr)
             ++ [Client.SetTimeAccess; Client.EntryClose]) /\
     (Client.opened tr = [] \/
      exists dest,
        Client.opened tr = [dest] /\
        Client.destinationPath sys (Client.WriteToLocalPath p) = Ok dest /\
        ((dest = Client.WriteToLocalPath p /\ Client.IsAbs dest = true) \/
         (Client.containsSlash (Client.WriteToLocalPath p) = false /\
          exists home, Client.userHomeDir sys = Ok home /\
                       dest = DxDir.Join [home; Client.WriteToLocalPath p]))) /\
     (Client.closed tr = [] \/ Client.closed tr = Client.opened tr) /\
     (Client.closed tr <> [] <->
      exists dxPath entry dest snap e,
        Client.NewDxPath sys (Client.RemoteFilePath p) = Ok dxPath /\
        Client.OpenDxFile sys dxPath = Ok entry /\
        Client.WriteToLocalPath p <> "" /\
        Client.destinationPath sys (Client.WriteToLocalPath p) = Ok dest /\
        Client.OpenFile sys dest = None /\
        Client.entrySnapshot entry = Ok snap /\
        Download.newDownload (Client.downloadRequest snap (Client.entryFileSize entry))
        = Some (Err e)) /\
     (forall d segs,
        r = Ok (d, segs) ->
        exists dxPath entry snap,
          Client.NewDxPath sys (Client.RemoteFilePath p) = Ok dxPath /\
          Client.OpenDxFile sys dxPath = Ok entry /\
          Client.entrySnapshot entry = Ok snap /\
          Download.newDownload (Client.downloadRequest snap (Client.entryFileSize entry))
          = Some (Ok (d, segs)) /\
          Download.d_offset d = 0 /\
          Download.d_length d = Client.entryFileSize entry /\
          wrap_u64 (Client.entryFileSize entry) <= Download.FileSize snap)).
Proof.
  split.
  - intros dxPath entry snap Hp He Hs Hseg Hsize.
    unfold Client.createDownload. rewrite Hp, He, Hs.
    destruct (String.eqb _ ""); [eauto|].
    destruct (Client.destinationPath sys _) as [dest|e]; [|eauto].
    destruct (Client.OpenFile sys dest); [eauto|].
    destruct (newDownload_returns (Client.downloadRequest snap (Client.entryFileSize entry))
                snap eq_refl Hseg) as [r Hr]; cbn; try lia.
    cbn in Hr. rewrite Hr. destruct r as [d|e]; eauto.
  - intros r tr. unfold Client.createDownload.
    assert (Hnone : forall P : Prop, (@nil string <> [] <-> P) <-> ~ P)
      by (intros P; split; [intros [_ H] HP; now apply H|intros HP; split; tauto]).
    destruct (Client.NewDxPath sys _) as [dxPath|e] eqn:Hp.
    2: { intros [= <- <-].
         split; [intros e' [= <-]; auto|]. split; [discriminate|]. split; [discriminate|].
         split; [now left|]. split; [now left|]. split; [|discriminate].
         apply Hnone. intros (a & b & c & d0 & e0 & H1 & _). discriminate. }
    destruct (Client.OpenDxFile sys dxPath) as [entry|e] eqn:He.
    2: { intros [= <- <-].
         split; [discriminate|].
         split; [intros a e' [= <-] H; rewrite He in H; injection H as <-; auto|].
         split; [intros a b [= <-] H; congruence|].
         split; [now left|]. split; [now left|]. split; [|discriminate].
         apply Hnone. intros (a & b & c & d0 & e0 & H1 & H2 & _). congruence. }
    destruct (String.eqb_spec (Client.WriteToLocalPath p) "") as [Hw|Hw].
    { intros [= <- <-].
      split; [discriminate|]. split; [intros a e' [= <-] H; congruence|].
      split; [reflexivity|]. split; [now left|]. split; [now left|].
      split; [|discriminate].
      apply Hnone. intros (a & b & c & d0 & e0 & _ & _ & H3 & _). contradiction. }
    destruct (Client.destinationPath sys _) as [dest|e] eqn:Hd.
    2: { intros [= <- <-].
         split; [discriminate|]. split; [intros a e' [= <-] H; congruence|].
         split; [reflexivity|]. split; [now left|]. split; [now left|].
         split; [|discriminate].
         apply Hnone. intros (a & b & c & d0 & e0 & _ & _ & _ & H4 & _). discriminate. }
    destruct (Client.OpenFile sys dest) as [e|] eqn:Ho.
    { intros [= <- <-].
      split; [discriminate|]. split; [intros a e' [= <-] H; congruence|].
      split; [reflexivity|]. split; [now left|]. split; [now left|].
      split; [|discriminate].
      apply Hnone. intros (a & b & c & d0 & e0 & _ & _ & _ & H4 & H5 & _). congruence. }
    assert (Hdest : (dest = Client.WriteToLocalPath p /\ Client.IsAbs dest = true) \/
                    (Client.containsSlash (Client.WriteToLocalPath p) = false /\
                     exists home, Client.userHomeDir sys = Ok home /\
                                  dest = DxDir.Join [home; Client.WriteToLocalPath p])).
    { destruct (destinationPath_cases _ _ _ Hd) as [[-> [Hempty|Habs]]|(_ & Hs & _ & Hh)];
        [contradiction|left; auto|right; auto]. }
    destruct (Client.entrySnapshot entry) as [snap|e] eqn:Hs.
    2: { intros [= <- <-].
         split; [discriminate|]. split; [intros a e' [= <-] H; congruence|].
         split; [reflexivity|]. split; [right; exists dest; auto|]. split; [now left|].
         split; [|discriminate].
         apply Hnone. intros (a & b & c & d0 & e0 & H1 & H2 & _ & _ & _ & H6 & _).
         congruence. }
    destruct (Download.newDownload _) as [[[d segs]|e]|] eqn:Hn; [| |discriminate].
    + intros [= <- <-].
      split; [discriminate|]. split; [intros a e' [= <-] H; congruence|].
      split; [reflexivity|]. split; [right; exists dest; auto|]. split; [now left|].
      split.
      { apply Hnone. intros (a & b & c & d0 & e0 & H1 & H2 & _ & _ & _ & H6 & H7).
        congruence. }
      intros d' segs' [= <- <-].
      destruct (newDownload_ok_fields
                  (Client.downloadRequest snap (Client.entryFileSize entry))
                  snap d segs eq_refl Hn) as (Hoff & Hl & Hb).
      exists dxPath, entry, snap. cbn in Hoff, Hl, Hb.
      repeat split; try assumption.
    + intros [= <- <-].
      split; [discriminate|]. split; [intros a e' [= <-] H; congruence|].
      split; [reflexivity|]. split; [right; exists dest; auto|]. split; [now right|].
      split.
      { split; [intros _; exists dxPath, entry, dest, snap, e; auto 10|discriminate]. }
      destruct (Client.closeFile sys dest); discriminate.
Qed.

(** ** The settings of the client *)

(** X20: what [SetClientSetting] does with the speeds.  The rate limits are
    set at most once, never to a negative speed, to the speeds of the
    setting, with a packet size of 0 when both speeds are 0 and the default
    packet size otherwise.  No error is returned exactly when the thread
    manager, the rent payment and the saving all succeed and no speed is
    negative; the calls are then those five, in that order, and the speeds
    in memory are those of the setting.  The worker pool is activated only
    then, and the speeds in memory change only when a save is tried. *)
Theorem SetClientSetting_calls {RentPayment : Type} (DefaultPacketSize : Z)
    (tmAddErr rentPaymentErr saveErr : option string)
    (persist : Client.persistence) (setting : Client.ClientSetting RentPayment) :
  let res :=
    Client.SetClientSetting DefaultPacketSize tmAddErr rentPaymentErr saveErr
      persist setting in
  let err := fst (fst res) in
  let persist' := snd (fst res) in
  let calls := snd res in
  let down := Client.MaxDownloadSpeed setting in
  let up := Client.MaxUploadSpeed setting in
  let limits :=
    (down, up, if (up =? 0) && (down =? 0) then 0 else DefaultPacketSize) in
  (Client.rateLimits calls = [] \/
   (Client.rateLimits calls = [limits] /\ 0 <= down /\ 0 <= up)) /\
  (err = None <->
   tmAddErr = None /\ rentPaymentErr = None /\ saveErr = None /\ 0 <= up /\ 0 <= down) /\
  (err = None ->
   calls = [Client.SetRentPayment (Client.rentPayment setting);
            Client.SetRateLimits (fst (fst limits)) (snd (fst limits)) (snd limits);
            Client.SetIPViolationCheck (Client.EnableIPViolation setting);
            Client.SaveSettings; Client.ActivateWorkerPool] /\
   persist' = Client.mkPersist down up) /\
  (In Client.ActivateWorkerPool calls -> err = None) /\
  (persist' = persist \/
   (In Client.SaveSettings calls /\ persist' = Client.mkPersist down up)).
Proof.
  intros res err persist' calls down up limits.
  subst res err persist' calls limits.
  unfold Client.SetClientSetting, Client.setBandwidthLimits. fold down up.
  destruct tmAddErr as [e|].
  { cbn. split; [now left|]. split; [split; [discriminate|intros (H & _); discriminate]|].
    split; [discriminate|]. split; [intros []|now left]. }
  destruct (Z.ltb_spec up 0) as [Hu|Hu]; cbn [orb].
  { cbn. split; [now left|]. split; [split; [discriminate|intros (_ & _ & _ & H & _); lia]|].
    split; [discriminate|]. split; [intros []|now left]. }
  destruct (Z.ltb_spec down 0) as [Hd|Hd].
  { cbn. split; [now left|]. split; [split; [discriminate|intros (_ & _ & _ & _ & H); lia]|].
    split; [discriminate|]. split; [intros []|now left]. }
  destruct rentPaymentErr as [e|].
  { cbn. split; [now left|]. split; [split; [discriminate|intros (_ & H & _); discriminate]|].
    split; [discriminate|]. split; [intros [H|[]]; discriminate H|now left]. }
  destruct ((up =? 0) && (down =? 0)) eqn:Hzero.
  - apply andb_true_iff in Hzero. destruct Hzero as [Hu0 Hd0].
    apply Z.eqb_eq in Hu0. apply Z.eqb_eq in Hd0.
    destruct saveErr as [e|]; cbn; rewrite Hu0, Hd0.
    + split; [right; repeat split; lia|].
      split; [split; [discriminate|intros (_ & _ & H & _); discriminate]|].
      split; [discriminate|].
      split; [intros H; repeat (destruct H as [H|H]; try discriminate H); destruct H|].
      right. split; [tauto|reflexivity].
    + split; [right; repeat split; lia|].
      split; [split; [intros _; repeat split; lia|reflexivity]|].
      split; [intros _; split; reflexivity|].
      split; [reflexivity|].
      right. split; [tauto|reflexivity].
  - destruct saveErr as [e|]; cbn.
    + split; [right; repeat split; lia|].
      split; [split; [discriminate|intros (_ & _ & H & _); discriminate]|].
      split; [discriminate|].
      split; [intros H; repeat (destruct H as [H|H]; try discriminate H); destruct H|].
      right. split; [tauto|reflexivity].
    + split; [right; repeat split; lia|].
      split; [split; [intros _; repeat split; lia|reflexivity]|].
      split; [intros _; split; reflexivity|].
      split; [reflexivity|].
      right. split; [tauto|reflexivity].
Qed.

(** ** Formatting a currency, continued *)

Lemma exact_quotient (v m : Z) :
  0 < v -> 0 < m -> v mod m = 0 -> 0 < v / m /\ v / m * m = v.
Proof.
  intros Hv Hm Hmod. pose proof (Z.div_mod v m ltac:(lia)) as Hdm.
  assert (Hq : v / m * m = v) by lia. split; [nia|exact Hq].
Qed.

Lemma not_next_unit (v m : Z) :
  0 < m -> v mod (m * 1000) <> 0 -> v mod m = 0 -> (v / m) mod 1000 <> 0.
Proof.
  intros Hm Hnext Hmod Hq. apply Hnext.
  pose proof (Z.div_mod v m ltac:(lia)) as Hdm.
  pose proof (Z.div_mod (v / m) 1000 ltac:(lia)) as Hdq.
  replace v with (v / m / 1000 * (m * 1000)) by nia.
  apply Z.mod_mul. lia.
Qed.

(** X21: [FormatCurrency] prints a positive amount exactly and in the
    largest unit that divides it: the text is a number, a space, the name of
    a unit and the extra strings; the number times the unit is the amount;
    and below the ether the number is not a multiple of 1000, or the next
    unit would have been taken. *)
Theorem FormatCurrency_largest_unit (fund : Z) (extra : list string) :
  0 < fund ->
  exists (n : Z) (unitName : string) (k : Z),
    Unit.FormatCurrency fund extra
    = (Unit.BigInt_String n ++ " " ++ unitName ++ String.concat "" extra)%string /\
    In (unitName, k)
      [("wei", 0); ("Kwei", 3); ("Mwei", 6); ("Gwei", 9); ("microether", 12);
       ("milliether", 15); ("ether", 18)]%string /\
    0 < n /\
    n * 10 ^ k = fund /\
    (k < 18 -> n mod 1000 <> 0).
Proof.
  intros Hpos. unfold Unit.FormatCurrency, Unit.IsEqual, Unit.DivNoRemaining, Unit.DivUint64.
  rewrite (proj2 (Z.eqb_neq fund 0)) by lia.
  change (Unit.index "ether") with (10 ^ 15 * 1000).
  change (Unit.index "milliether") with (10 ^ 12 * 1000).
  change (Unit.index "microether") with (10 ^ 9 * 1000).
  change (Unit.index "gwei") with (10 ^ 6 * 1000).
  change (Unit.index "mwei") with (10 ^ 3 * 1000).
  change (Unit.index "kwei") with (10 ^ 0 * 1000).
  destruct (Z.eqb_spec (fund mod (10 ^ 15 * 1000)) 0) as [H18|H18].
  { destruct (exact_quotient fund (10 ^ 15 * 1000) Hpos eq_refl H18) as [Hn Hmul].
    exists (fund / (10 ^ 15 * 1000)), "ether"%string, 18.
    split; [reflexivity|]. split; [cbn; tauto|]. split; [exact Hn|].
    split; [exact Hmul|lia]. }
  destruct (Z.eqb_spec (fund mod (10 ^ 12 * 1000)) 0) as [H15|H15].
  { destruct (exact_quotient fund (10 ^ 12 * 1000) Hpos eq_refl H15) as [Hn Hmul].
    exists (fund / (10 ^ 12 * 1000)), "milliether"%string, 15.
    split; [reflexivity|]. split; [cbn; tauto|]. split; [exact Hn|].
    split; [exact Hmul|]. intros _. exact (not_next_unit fund (10 ^ 15) eq_refl H18 H15). }
  destruct (Z.eqb_spec (fund mod (10 ^ 9 * 1000)) 0) as [H12|H12].
  { destruct (exact_quotient fund (10 ^ 9 * 1000) Hpos eq_refl H12) as [Hn Hmul].
    exists (fund / (10 ^ 9 * 1000)), "microether"%string, 12.
    split; [reflexivity|]. split; [cbn; tauto|]. split; [exact Hn|].
    split; [exact Hmul|]. intros _. exact (not_next_unit fund (10 ^ 12) eq_refl H15 H12). }
  destruct (Z.eqb_spec (fund mod (10 ^ 6 * 1000)) 0) as [H9|H9].
  { destruct (exact_quotient fund (10 ^ 6 * 1000) Hpos eq_refl H9) as [Hn Hmul].
    exists (fund / (10 ^ 6 * 1000)), "Gwei"%string, 9.
    split; [reflexivity|]. split; [cbn; tauto|]. split; [exact Hn|].
    split; [exact Hmul|]. intros _. exact (not_next_unit fund (10 ^ 9) eq_refl H12 H9). }
  destruct (Z.eqb_spec (fund mod (10 ^ 3 * 1000)) 0) as [H6|H6].
  { destruct (exact_quotient fund (10 ^ 3 * 1000) Hpos eq_refl H6) as [Hn Hmul].
    exists (fund / (10 ^ 3 * 1000)), "Mwei"%string, 6.
    split; [reflexivity|]. split; [cbn; tauto|]. split; [exact Hn|].
    split; [exact Hmul|]. intros _. exact (not_next_unit fund (10 ^ 6) eq_refl H9 H6). }
  destruct (Z.eqb_spec (fund mod (10 ^ 0 * 1000)) 0) as [H3|H3].
  { destruct (exact_quotient fund (10 ^ 0 * 1000) Hpos eq_refl H3) as [Hn Hmul].
    exists (fund / (10 ^ 0 * 1000)), "Kwei"%string, 3.
    split; [reflexivity|]. split; [cbn; tauto|]. split; [exact Hn|].
    split; [exact Hmul|]. intros _. exact (not_next_unit fund (10 ^ 3) eq_refl H6 H3). }
  exists fund, "wei"%string, 0.
  split; [reflexivity|]. split; [cbn; tauto|]. split; [exact Hpos|].
  split; [lia|]. intros _. exact H3.
Qed.

Lemma FormatCurrency_largest_unit_witness :
  exists (n : Z) (unitName : string) (k : Z),
    Unit.FormatCurrency 12000000 ["/month"]
    = (Unit.BigInt_String n ++ " " ++ unitName ++ String.concat "" ["/month"])%string /\
    In (unitName, k)
      [("wei", 0); ("Kwei", 3); ("Mwei", 6); ("Gwei", 9); ("microether", 12);
       ("milliether", 15); ("ether", 18)]%string /\
    0 < n /\
    n * 10 ^ k = 12000000 /\
    (k < 18 -> n mod 1000 <> 0).
Proof.
  apply (FormatCurrency_largest_unit 12000000 ["/month"%string]). lia.
Defined.
